(** * Project Oversight Dashboard: earned-value generator and aggregation views

    A shallow embedding of [data.generator.py] (the synthetic history
    generator) and of [app.py] (the four dashboard queries), followed by the
    properties of the specification that can be settled on them.

    Modelling conventions.
    - Python floats and SQLite REAL values are idealised as exact rationals
      ([Q]); [round(x, 2)] is rounding to the nearest hundredth, ties to even.
    - Text values are [string]s; SQLite's BINARY collation on text and Python's
      string order are [String.compare].
    - The [random] module is an interface ([Random]) with the two primitives
      the library builds everything on: [random()] and [_randbelow(n)].
    - A table is the list of its rows in rowid (insertion) order. A column
      holds values of its declared type and no NULL; [week_ending] holds date
      text such as 2024-01-07, which SQLite keeps and compares as text. *)

From Stdlib Require Import QArith Qround Qminmax Lqa ZArith Lia List String Ascii Bool.
From Stdlib Require Import Sorting.Sorted Sorting.Permutation.
From Stdlib Require DecimalString DecimalZ DecimalPos OrderedTypeEx.
Import ListNotations.

Local Open Scope Q_scope.

(* ===================================================================== *)
(** ** Numbers *)
(* ===================================================================== *)

Module Num.

(** Nearest integer, ties to the even neighbour. *)
Definition round_half_even (x : Q) : Z :=
  let f := Qfloor x in
  match Qcompare (x - inject_Z f) (1 # 2) with
  | Lt => f
  | Gt => (f + 1)%Z
  | Eq => if Z.even f then f else (f + 1)%Z
  end.

(** Python's [round(x, 2)]. *)
Definition round2 (x : Q) : Q := inject_Z (round_half_even (x * 100)) / 100.

(** Python's two-argument [min(a, b)]: [b] only when it is strictly smaller. *)
Definition py_min (a b : Q) : Q := if Qlt_le_dec b a then b else a.

End Num.
Import Num.

(* ===================================================================== *)
(** ** The fact tables ([create_schema]) *)
(* ===================================================================== *)

Module Model.

(** Table [workstreams]; [ws_id] is the primary key. *)
Record Workstream := mkWorkstream {
  ws_id : string;
  name : string;
  owner : string;
  budget : Q;
  complexity : string
}.

(** Table [progress]. The surrogate key [id] is never read by a query and is
    left out: the position of a row in the list is its rowid order. *)
Record Progress := mkProgress {
  week_ending : string;
  p_ws_id : string;
  planned_pct : Q;
  actual_pct : Q;
  budget_spent : Q;
  schedule_variance : Q;
  cpi : Q
}.

(** Table [change_requests]; [cr_id] is the primary key. *)
Record ChangeRequest := mkChangeRequest {
  cr_id : string;
  cr_ws_id : string;
  date_raised : string;
  title : string;
  status : string;
  cost_impact : Q;
  time_impact_days : Z
}.

Record DB := mkDB {
  workstreams : list Workstream;
  progress : list Progress;
  change_requests : list ChangeRequest
}.

(** The database right after [create_schema] on a fresh file. *)
Definition empty_db : DB := mkDB [] [] [].

(** [INSERT OR REPLACE INTO workstreams]: a row with the same primary key is
    deleted, then the new row is stored. *)
Definition insert_or_replace_workstream (tbl : list Workstream) (w : Workstream)
  : list Workstream :=
  filter (fun x => negb (ws_id x =? ws_id w)%string) tbl ++ [w].

(** [INSERT INTO progress]: the row is appended under a fresh [id]. *)
Definition insert_progress (tbl : list Progress) (p : Progress) : list Progress :=
  tbl ++ [p].

(** [INSERT OR REPLACE INTO change_requests]. *)
Definition insert_or_replace_change_request (tbl : list ChangeRequest)
  (c : ChangeRequest) : list ChangeRequest :=
  filter (fun x => negb (cr_id x =? cr_id c)%string) tbl ++ [c].

(** [cursor.executemany(stmt, rows)]: the statement once per row, in order. *)
Definition executemany {T R : Type} (stmt : T -> R -> T) (tbl : T) (rows : list R) : T :=
  fold_left stmt rows tbl.

End Model.
Import Model.

(* ===================================================================== *)
(** ** The random source *)
(* ===================================================================== *)

(** The two primitives of Python's [random.Random] that the generator's calls
    reduce to. [G] is the state of the generator. *)
Class Random (G : Type) := {
  random : G -> Q * G;
  randbelow : Z -> G -> Z * G
}.

(** What the library promises of them: [random()] lies in the unit interval
    (the closed one, which covers the end point that float rounding can
    reach), and [_randbelow(n)] in [0, n). *)
Class RandomLaws (G : Type) `{Random G} : Prop := {
  random_unit : forall g, 0 <= fst (random g) <= 1;
  randbelow_range : forall n g, (0 < n)%Z -> (0 <= fst (randbelow n g) < n)%Z
}.

Module Rand.
Section Rand.
Context {G : Type} `{Random G}.

(** Computations that consume randomness. *)
Definition M (A : Type) : Type := G -> A * G.

Definition ret {A} (a : A) : M A := fun g => (a, g).

Definition bind {A B} (m : M A) (k : A -> M B) : M B :=
  fun g => let (a, g') := m g in k a g'.

(** [random.uniform(a, b)] is [a + (b - a) * random()]. *)
Definition uniform (a b : Q) : M Q :=
  bind random (fun r => ret (a + (b - a) * r)).

(** [random.randint(a, b)] is [a + _randbelow(b - a + 1)]. *)
Definition randint (a b : Z) : M Z :=
  bind (randbelow (b - a + 1)) (fun k => ret (a + k)%Z).

(** [random.choice(seq)] is [seq[_randbelow(len(seq))]]; [default] stands for
    the [IndexError] of an empty sequence, which no call here can reach. *)
Definition choice {A} (seq : list A) (default : A) : M A :=
  bind (randbelow (Z.of_nat (List.length seq)))
       (fun k => ret (nth (Z.to_nat k) seq default)).

End Rand.
End Rand.
Import Rand.

(** A deterministic source for replaying a run: the state counts the draws
    made so far. *)
Module Replay.

Definition replay_random (s : nat) : Q * nat :=
  (inject_Z (Z.of_nat (s mod 11)) / 10, S s).

Definition replay_randbelow (n : Z) (s : nat) : Z * nat :=
  ((Z.of_nat s * 7 + 3) mod n, S s)%Z.

#[export] Instance replay_source : Random nat :=
  {| random := replay_random; randbelow := replay_randbelow |}.

(** Decimal text of a non-negative integer, left-padded with zeros to
    [width] characters. *)
Definition zero_pad (width : nat) (z : Z) : string :=
  let digits := DecimalString.NilZero.string_of_uint (N.to_uint (Z.to_N z)) in
  (String.concat EmptyString (repeat "0" (width - String.length digits)) ++ digits)%string.

(** The civil date of a day number counted from 1970-01-01, in the
    proleptic Gregorian calendar. *)
Definition civil_of_days (days : Z) : Z * Z * Z :=
  let z := (days + 719468)%Z in
  let era := (z / 146097)%Z in
  let doe := (z - era * 146097)%Z in
  let yoe := ((doe - doe / 1460 + doe / 36524 - doe / 146096) / 365)%Z in
  let doy := (doe - (365 * yoe + yoe / 4 - yoe / 100))%Z in
  let mp := ((5 * doy + 2) / 153)%Z in
  let d := (doy - (153 * mp + 2) / 5 + 1)%Z in
  let m := (if mp <? 10 then mp + 3 else mp - 9)%Z in
  let y := (yoe + era * 400 + (if m <=? 2 then 1 else 0))%Z in
  (y, m, d).

(** [strftime('%Y-%m-%d')] of a day number. *)
Definition strftime_ymd (days : Z) : string :=
  let '(y, m, d) := civil_of_days days in
  (zero_pad 4 y ++ "-" ++ zero_pad 2 m ++ "-" ++ zero_pad 2 d)%string.

(** A clock for the replay: the script is run on 2024-06-23, so
    [START_DATE], 24 weeks earlier, is 2024-01-07. *)
Definition replay_start : Z := 19729.

Definition replay_dates (d : Z) : string := strftime_ymd (replay_start + d).

End Replay.
Import Replay.

Declare Scope rand_scope.
Delimit Scope rand_scope with rand.
Notation "x <- m ;; k" := (bind m (fun x => k))
  (at level 61, m at next level, right associativity) : rand_scope.
Notation "' p <- m ;; k" := (bind m (fun x => let p := x in k))
  (at level 61, p pattern, m at next level, right associativity) : rand_scope.

(* ===================================================================== *)
(** ** data.generator.py *)
(* ===================================================================== *)

Module Generator.

Definition NUM_WEEKS : Z := 24.

(** Decimal text of an integer, as an f-string prints it. *)
Definition str_of_int (z : Z) : string :=
  DecimalString.NilZero.string_of_int (Z.to_int z).

Definition workstreams_data : list Workstream :=
  [ mkWorkstream "WS_001" "Finance (FICO)" "Sarah J." 1500000 "High";
    mkWorkstream "WS_002" "Supply Chain (MM/SD)" "Mike R." 2200000 "High";
    mkWorkstream "WS_003" "Human Capital (HXM)" "Amit P." 800000 "Medium";
    mkWorkstream "WS_004" "Data Migration" "Emily W." 600000 "Critical";
    mkWorkstream "WS_005" "Analytics (BW/SAC)" "John D." 450000 "Medium" ].

(** The running totals of one workstream's loop. *)
Record Running := mkRunning {
  current_planned : Q;
  current_actual : Q;
  current_spend : Q
}.

Definition start : Running := mkRunning 0 0 0.

Definition increment_plan : Q := 100 / inject_Z NUM_WEEKS.

(** The tuple appended to [progress_records] once the totals of the week
    are updated. *)
Definition record_of (week_str ws : string) (budget : Q) (st : Running) : Progress :=
  let variance := round2 (current_actual st - current_planned st) in
  let cpi := round2 ((current_actual st / 100 * budget) / (current_spend st + 1)) in
  mkProgress week_str ws
    (round2 (current_planned st)) (round2 (current_actual st))
    (round2 (current_spend st)) variance cpi.

Section Generate.
Context {G : Type} `{Random G}.

(** [(START_DATE + timedelta(days=d)).strftime('%Y-%m-%d')]. [START_DATE] is
    read from the clock when the module is loaded, so the formatted date is a
    parameter of the model. *)
Variable strftime_from_start : Z -> string.

Local Open Scope rand_scope.

(** The persona branch: [(increment_actual, spend_rate)] of one week. *)
Definition persona (ws : string) (budget : Q) : M (Q * Q) :=
  if (ws =? "WS_002")%string then
    f <- uniform (3 # 10) (8 # 10) ;;
    g <- uniform (11 # 10) (15 # 10) ;;
    ret (increment_plan * f, (budget / inject_Z NUM_WEEKS) * g)
  else if (ws =? "WS_001")%string then
    f <- uniform (95 # 100) (105 # 100) ;;
    g <- uniform (9 # 10) (11 # 10) ;;
    ret (increment_plan * f, (budget / inject_Z NUM_WEEKS) * g)
  else
    f <- uniform (8 # 10) 1 ;;
    g <- uniform (9 # 10) (11 # 10) ;;
    ret (increment_plan * f, (budget / inject_Z NUM_WEEKS) * g).

(** One pass of the body of [for i in range(NUM_WEEKS)], up to the metrics. *)
Definition week_step (ws : string) (budget : Q) (st : Running) : M Running :=
  let current_planned' := py_min 100 (current_planned st + increment_plan) in
  '(increment_actual, spend_rate) <- persona ws budget ;;
  let current_actual' := py_min 100 (current_actual st + increment_actual) in
  let current_spend' := current_spend st + spend_rate in
  ret (mkRunning current_planned' current_actual' current_spend').

(** The inner loop [for i in range(NUM_WEEKS)] over the weeks still to come,
    from the totals [st]. *)
Fixpoint weeks_loop (ws : string) (budget : Q) (weeks : list Z) (st : Running)
  : M (list Progress) :=
  match weeks with
  | [] => ret []
  | i :: rest =>
      let week_str := strftime_from_start (7 * i) in
      st' <- week_step ws budget st ;;
      rs <- weeks_loop ws budget rest st' ;;
      ret (record_of week_str ws budget st' :: rs)
  end.

(** [range(n)]. *)
Definition range (n : Z) : list Z := map Z.of_nat (seq 0 (Z.to_nat n)).

(** The outer loop [for ws in workstreams_data] that fills
    [progress_records]. *)
Fixpoint progress_loop (wss : list Workstream) : M (list Progress) :=
  match wss with
  | [] => ret []
  | w :: rest =>
      rs <- weeks_loop (ws_id w) (budget w) (range NUM_WEEKS) start ;;
      rs' <- progress_loop rest ;;
      ret (rs ++ rs')
  end.

Definition progress_records : M (list Progress) := progress_loop workstreams_data.

(** The number of change requests of a workstream. *)
Definition num_crs (ws : string) : M Z :=
  if (ws =? "WS_002")%string then randint 15 25
  else if (ws =? "WS_001")%string then randint 0 3
  else randint 3 8.

(** One change request, numbered [cr_counter]. *)
Definition change_request (ws : string) (cr_counter : Z) : M ChangeRequest :=
  d <- randint 0 (NUM_WEEKS * 7) ;;
  t <- randint 1 99 ;;
  s <- choice ["Approved"; "Approved"; "Rejected"; "Pending"]%string EmptyString ;;
  c <- randint 5000 50000 ;;
  n <- randint 1 10 ;;
  ret (mkChangeRequest ("CR_" ++ str_of_int cr_counter)%string ws
         (strftime_from_start d) ("Change Req #" ++ str_of_int t)%string s
         (inject_Z c) n).

(** [for _ in range(num_crs)]: the records and the counter after them. *)
Fixpoint crs_loop (ws : string) (n : nat) (cr_counter : Z) : M (list ChangeRequest * Z) :=
  match n with
  | O => ret ([], cr_counter)
  | S n' =>
      c <- change_request ws cr_counter ;;
      '(cs, k) <- crs_loop ws n' (cr_counter + 1) ;;
      ret (c :: cs, k)
  end.

Fixpoint cr_loop (wss : list Workstream) (cr_counter : Z) : M (list ChangeRequest) :=
  match wss with
  | [] => ret []
  | w :: rest =>
      n <- num_crs (ws_id w) ;;
      '(cs, k) <- crs_loop (ws_id w) (Z.to_nat n) cr_counter ;;
      cs' <- cr_loop rest k ;;
      ret (cs ++ cs')
  end.

Definition cr_records : M (list ChangeRequest) := cr_loop workstreams_data 1000.

Definition generate_data (db : DB) : M DB :=
  let ws' := executemany insert_or_replace_workstream (workstreams db) workstreams_data in
  ps <- progress_records ;;
  let ps' := executemany insert_progress (progress db) ps in
  cs <- cr_records ;;
  let cs' := executemany insert_or_replace_change_request (change_requests db) cs in
  ret (mkDB ws' ps' cs').

(** The script's entry point: the old database file is removed first. *)
Definition main : M DB := generate_data empty_db.

End Generate.
End Generator.
Import Generator.

(* ===================================================================== *)
(** ** app.py *)
(* ===================================================================== *)

Module Dashboard.

(** *** SQL building blocks *)

(** [ORDER BY ... ASC] as a stable insertion sort on the comparison [leb]. SQL
    leaves the order of ties open; the model keeps them in arrival order. *)
Fixpoint insert_by {A} (leb : A -> A -> bool) (x : A) (l : list A) : list A :=
  match l with
  | [] => [x]
  | y :: l' => if leb x y then x :: l else y :: insert_by leb x l'
  end.

Fixpoint order_by {A} (leb : A -> A -> bool) (l : list A) : list A :=
  match l with
  | [] => []
  | x :: l' => insert_by leb x (order_by leb l')
  end.

(** [SUM(col)]: NULL over no rows. *)
Definition sql_sum (l : list Q) : option Q :=
  match l with
  | [] => None
  | _ => Some (fold_left Qplus l 0)
  end.

(** [AVG(col)]: NULL over no rows. *)
Definition sql_avg (l : list Q) : option Q :=
  match l with
  | [] => None
  | _ => Some (fold_left Qplus l 0 / inject_Z (Z.of_nat (List.length l)))
  end.

(** [COALESCE(v, d)]. *)
Definition coalesce (v : option Q) (d : Q) : Q :=
  match v with Some q => q | None => d end.

(** One step of [MAX(week_ending)]: the greater of the running maximum and
    the week of the next row. *)
Definition max_step (acc : option string) (p : Progress) : option string :=
  match acc with
  | None => Some (week_ending p)
  | Some m => if String.ltb m (week_ending p) then Some (week_ending p) else Some m
  end.

(** [SELECT MAX(week_ending) FROM progress]: NULL on an empty table. *)
Definition max_week_ending (ps : list Progress) : option string :=
  fold_left max_step ps None.

(** [week_ending = (SELECT MAX(week_ending) FROM progress)]; a comparison
    with NULL selects nothing. *)
Definition at_latest_week (db : DB) (p : Progress) : bool :=
  match max_week_ending (progress db) with
  | Some m => (week_ending p =? m)%string
  | None => false
  end.

Definition approved (c : ChangeRequest) : bool := (status c =? "Approved")%string.

(** *** 1. KPI cards *)

Record KPI := mkKPI {
  total_spend : option Q;
  avg_cpi : option Q;
  active_risks : Z
}.

(** An aggregate query without GROUP BY yields exactly one row, which
    [fetchone] returns. *)
Definition kpi_query (db : DB) : KPI :=
  let rows := filter (at_latest_week db) (progress db) in
  mkKPI (sql_sum (map budget_spent rows))
        (sql_avg (map cpi rows))
        (Z.of_nat (List.length (filter approved (change_requests db)))).

(** *** 2. Status grid *)

Record StatusRow := mkStatusRow {
  sr_ws_id : string;
  sr_name : string;
  sr_owner : string;
  sr_actual_pct : Q;
  sr_planned_pct : Q;
  sr_schedule_variance : Q;
  sr_budget_spent : Q;
  sr_cpi : Q
}.

Definition status_row (w : Workstream) (p : Progress) : StatusRow :=
  mkStatusRow (ws_id w) (name w) (owner w) (actual_pct p) (planned_pct p)
              (schedule_variance p) (budget_spent p) (cpi p).

(** [workstreams w JOIN progress p ON w.ws_id = p.ws_id WHERE p.week_ending = ...]. *)
Definition status_join (db : DB) : list StatusRow :=
  flat_map
    (fun w =>
       map (status_row w)
           (filter (fun p => (ws_id w =? p_ws_id p)%string && at_latest_week db p)
                   (progress db)))
    (workstreams db).

Definition variance_leb (a b : StatusRow) : bool :=
  Qle_bool (sr_schedule_variance a) (sr_schedule_variance b).

Definition status_query (db : DB) : list StatusRow :=
  order_by variance_leb (status_join db).

(** *** 3. Line chart *)

Record HistoryRow := mkHistoryRow {
  h_week_ending : string;
  h_ws_id : string;
  h_actual_pct : Q;
  h_planned_pct : Q
}.

Definition history_query (db : DB) : list HistoryRow :=
  order_by (fun a b => String.leb (h_week_ending a) (h_week_ending b))
    (map (fun p => mkHistoryRow (week_ending p) (p_ws_id p) (actual_pct p) (planned_pct p))
         (progress db)).

(** [sorted(list(set(...)))]. *)
Definition sorted_set (l : list string) : list string :=
  order_by String.leb (nodup string_dec l).

Record Series := mkSeries {
  actual : list Q;
  planned : list Q
}.

(** The body of [for row in history_rows] on the dict [chart_datasets],
    a list of entries in insertion order. *)
Fixpoint chart_append (d : list (string * Series)) (row : HistoryRow)
  : list (string * Series) :=
  match d with
  | [] => [(h_ws_id row, mkSeries [h_actual_pct row] [h_planned_pct row])]
  | (k, s) :: d' =>
      if (k =? h_ws_id row)%string
      then (k, mkSeries (actual s ++ [h_actual_pct row])
                        (planned s ++ [h_planned_pct row])) :: d'
      else (k, s) :: chart_append d' row
  end.

(** *** 4. Bubble chart *)

Definition JoinRow : Type := Workstream * option ChangeRequest * Progress.

(** [LEFT JOIN change_requests cr ON w.ws_id = cr.ws_id AND cr.status = 'Approved']:
    the matching rows, or one all-NULL row when there is none. *)
Definition left_join_cr (db : DB) (w : Workstream) : list (option ChangeRequest) :=
  match filter (fun c => (ws_id w =? cr_ws_id c)%string && approved c)
               (change_requests db) with
  | [] => [None]
  | l => map Some l
  end.

Definition bubble_join (db : DB) : list JoinRow :=
  flat_map
    (fun w =>
       flat_map
         (fun oc =>
            map (fun p => (w, oc, p))
                (filter (fun p => (ws_id w =? p_ws_id p)%string && at_latest_week db p)
                        (progress db)))
         (left_join_cr db w))
    (workstreams db).

Record BubbleRow := mkBubbleRow {
  b_name : string;
  cr_count : Z;
  total_cr_cost : Q;
  b_schedule_variance : Q
}.

Definition join_key (r : JoinRow) : string := ws_id (fst (fst r)).

(** [COUNT(cr.cr_id)] counts the rows whose change request is not NULL. *)
Definition count_cr (grp : list JoinRow) : Z :=
  Z.of_nat (List.length (filter (fun r => match snd (fst r) with Some _ => true | None => false end) grp)).

(** [SUM(cr.cost_impact)] skips NULLs and is NULL when nothing is left. *)
Definition sum_cost (grp : list JoinRow) : option Q :=
  sql_sum (flat_map (fun r => match snd (fst r) with Some c => [cost_impact c] | None => [] end) grp).

(** One output row per group of [GROUP BY w.ws_id]. The bare columns [w.name]
    and [p.schedule_variance] come from one row of the group (SQLite does not
    say which; the model reads the first). *)
Definition bubble_group (rows : list JoinRow) (k : string) : list BubbleRow :=
  match filter (fun r => (join_key r =? k)%string) rows with
  | [] => []
  | ((w, _, p) :: _) as grp =>
      [mkBubbleRow (name w) (count_cr grp) (coalesce (sum_cost grp) 0)
                   (schedule_variance p)]
  end.

(** Groups leave in ascending key order. *)
Definition bubble_query (db : DB) : list BubbleRow :=
  let rows := bubble_join db in
  flat_map (bubble_group rows) (sorted_set (map join_key rows)).

Record Bubble := mkBubble {
  label : string;
  x : Z;
  y : Q;
  r : Q
}.

Definition bubble_of (row : BubbleRow) : Bubble :=
  mkBubble (b_name row) (cr_count row) (b_schedule_variance row)
           (total_cr_cost row / 10000).

(** *** The controller *)

(** What [dashboard] hands to [render_template], before [json.dumps]. *)
Record Page := mkPage {
  kpis : KPI;
  projects : list StatusRow;
  chart_labels : list string;
  chart_datasets : list (string * Series);
  bubble_data : list Bubble
}.

Definition dashboard (db : DB) : Page :=
  let kpi_data := kpi_query db in
  let projects := status_query db in
  let history_rows := history_query db in
  let labels := sorted_set (map h_week_ending history_rows) in
  let chart_datasets := fold_left chart_append history_rows [] in
  let bubble_rows := bubble_query db in
  let bubble_data := map bubble_of bubble_rows in
  mkPage kpi_data projects labels chart_datasets bubble_data.

End Dashboard.
Import Dashboard.

(* ===================================================================== *)
(** ** Vocabulary of the specification *)
(* ===================================================================== *)

(** *** The generator as the set of histories it can emit *)

(** The interval a persona draws its two multipliers from. *)
Record Ranges := mkRanges { f_lo : Q; f_hi : Q; g_lo : Q; g_hi : Q }.

Definition ranges_of (ws : string) : Ranges :=
  if (ws =? "WS_002")%string then mkRanges (3 # 10) (8 # 10) (11 # 10) (15 # 10)
  else if (ws =? "WS_001")%string then mkRanges (95 # 100) (105 # 100) (9 # 10) (11 # 10)
  else mkRanges (8 # 10) 1 (9 # 10) (11 # 10).

Definition in_ranges (rg : Ranges) (f k : Q) : Prop :=
  f_lo rg <= f <= f_hi rg /\ g_lo rg <= k <= g_hi rg.

(** The totals after a week whose draws were [f] and [k]. *)
Definition advance (b f k : Q) (st : Running) : Running :=
  mkRunning (py_min 100 (current_planned st + increment_plan))
            (py_min 100 (current_actual st + increment_plan * f))
            (current_spend st + b / inject_Z NUM_WEEKS * k).

(** [reach rg b n st st']: [n] weeks lead from [st] to [st']. *)
Inductive reach (rg : Ranges) (b : Q) : nat -> Running -> Running -> Prop :=
| reach_O st : reach rg b O st st
| reach_S n st f k st' :
    in_ranges rg f k ->
    reach rg b n (advance b f k st) st' ->
    reach rg b (S n) st st'.

(** [history fmt ws b st weeks rs]: the inner loop over [weeks] from [st] can
    append exactly the records [rs]. *)
Inductive history (fmt : Z -> string) (ws : string) (b : Q)
  : Running -> list Z -> list Progress -> Prop :=
| history_nil st : history fmt ws b st [] []
| history_cons st i weeks f k rs :
    in_ranges (ranges_of ws) f k ->
    history fmt ws b (advance b f k st) weeks rs ->
    history fmt ws b st (i :: weeks)
            (record_of (fmt (7 * i)%Z) ws b (advance b f k st) :: rs).

Inductive histories (fmt : Z -> string) : list Workstream -> list Progress -> Prop :=
| histories_nil : histories fmt [] []
| histories_cons w wss rs rs' :
    history fmt (ws_id w) (budget w) start (range NUM_WEEKS) rs ->
    histories fmt wss rs' ->
    histories fmt (w :: wss) (rs ++ rs').

(** *** Invariants of a history *)

(** The running totals stay inside the ranges of the data model. *)
Definition sane (st : Running) : Prop :=
  0 <= current_planned st <= 100 /\
  0 <= current_actual st <= 100 /\
  0 <= current_spend st.

(** The snapshot [q] does not fall behind [p] in plan or in spend. *)
Definition no_regress (p q : Progress) : Prop :=
  planned_pct p <= planned_pct q /\ budget_spent p <= budget_spent q.

Definition in_bounds (p : Progress) : Prop :=
  0 <= planned_pct p <= 100 /\ 0 <= actual_pct p <= 100 /\ 0 <= budget_spent p.

(** The last snapshot a workstream has in a list of records. *)
Definition terminal (ws : string) (rs : list Progress) : option Progress :=
  match filter (fun p => (p_ws_id p =? ws)%string) rs with
  | [] => None
  | p :: l => Some (last (p :: l) p)
  end.

(** *** Sums and the latest week *)

(** The sum of a column, as a specification: right to left from 0. *)
Definition sum_of (l : list Q) : Q := fold_right Qplus 0 l.

(** Equality of two nullable numbers, up to the representation of the
    number. *)
Definition opt_Qeq (a b : option Q) : Prop :=
  match a, b with
  | Some u, Some v => u == v
  | None, None => True
  | _, _ => False
  end.

(** [wk] is the greatest [week_ending] of the snapshots [ps]. *)
Definition is_latest_week (ps : list Progress) (wk : string) : Prop :=
  (exists p, In p ps /\ week_ending p = wk) /\
  (forall p, In p ps -> String.leb (week_ending p) wk = true).

Definition at_week (wk : string) (p : Progress) : bool :=
  (week_ending p =? wk)%string.

(** *** Keys and joins *)

(** The keys of the data model: [ws_id] identifies a workstream (the primary
    key of the table) and there is at most one snapshot per workstream and
    week. *)
Definition well_keyed (db : DB) : Prop :=
  NoDup (map ws_id (workstreams db)) /\
  NoDup (map (fun p => (p_ws_id p, week_ending p)) (progress db)).

(** The workstream [w] has a snapshot at the latest week. *)
Definition reports_latest (db : DB) (w : Workstream) : Prop :=
  exists p, In p (progress db) /\ p_ws_id p = ws_id w /\
            is_latest_week (progress db) (week_ending p).

(** The join condition of the status and bubble queries for [w]. *)
Definition latest_of (db : DB) (w : Workstream) (p : Progress) : bool :=
  (ws_id w =? p_ws_id p)%string && at_latest_week db p.

Definition status_rows_of (db : DB) (w : Workstream) : list StatusRow :=
  map (status_row w) (filter (latest_of db w) (progress db)).

(** The approved change requests of a workstream. *)
Definition approved_of (db : DB) (w : Workstream) : list ChangeRequest :=
  filter (fun c => (ws_id w =? cr_ws_id c)%string && approved c) (change_requests db).

Definition join_rows_of (db : DB) (w : Workstream) : list JoinRow :=
  flat_map (fun oc => map (fun p => (w, oc, p)) (filter (latest_of db w) (progress db)))
           (left_join_cr db w).

Definition bubble_row (db : DB) (w : Workstream) (p : Progress) : BubbleRow :=
  mkBubbleRow (name w)
              (Z.of_nat (List.length (approved_of db w)))
              (fold_left Qplus (map cost_impact (approved_of db w)) 0)
              (schedule_variance p).

(** The workstream has at least one row in the join. *)
Definition reporting (db : DB) (w : Workstream) : bool :=
  match filter (latest_of db w) (progress db) with
  | [] => false
  | _ => true
  end.

(** The bubble of workstream [w] read off its snapshot [p]. *)
Definition bubble_entry (db : DB) (w : Workstream) (p : Progress) : Bubble :=
  mkBubble (name w)
           (Z.of_nat (List.length (approved_of db w)))
           (schedule_variance p)
           (fold_left Qplus (map cost_impact (approved_of db w)) 0 / 10000).

(** The bubbles a workstream contributes: one per latest-week snapshot. *)
Definition bubble_entries (db : DB) (w : Workstream) : list Bubble :=
  map (bubble_entry db w) (filter (latest_of db w) (progress db)).

(** *** Intake *)

(** The invariants of the data model on a change request. *)
Definition valid_cr (c : ChangeRequest) : Prop :=
  In (status c) ["Pending"; "Approved"; "Rejected"]%string /\ 0 <= cost_impact c.

(** What the generator draws for a change request. *)
Definition generated_cr (c : ChangeRequest) : Prop :=
  In (status c) ["Approved"; "Rejected"; "Pending"]%string /\
  5000 <= cost_impact c <= 50000 /\
  (1 <= time_impact_days c <= 10)%Z.

(** *** What the storage layer holds as given *)

Definition is_digit (c : ascii) : bool :=
  (48 <=? nat_of_ascii c)%nat && (nat_of_ascii c <=? 57)%nat.

(** The text that [strftime('%Y-%m-%d')] writes for a four-digit year. The
    DATE columns have NUMERIC affinity: SQLite turns a text that reads as a
    number into that number, and keeps a text of this shape, which does not,
    as it is. *)
Definition date_text (s : string) : bool :=
  match list_ascii_of_string s with
  | [y1; y2; y3; y4; h1; m1; m2; h2; d1; d2] =>
      forallb is_digit [y1; y2; y3; y4; m1; m2; d1; d2]
      && Ascii.eqb h1 "-" && Ascii.eqb h2 "-"
  | _ => false
  end.

(** A number that a REAL column holds as given whether it is bound as a
    Python [int] or as a [float]: at most 2^53 in magnitude. (An [int]
    beyond 64 bits is refused with an [OverflowError]; one beyond 2^53 may
    be rounded.) *)
Definition sqlite_real (x : Q) : bool :=
  Qle_bool (- inject_Z (2 ^ 53)) x && Qle_bool x (inject_Z (2 ^ 53)).

(** An integer that the [sqlite3] module binds: outside SQLite's 64-bit
    range it raises an [OverflowError] and nothing is stored. *)
Definition sqlite_integer (n : Z) : bool :=
  (- 2 ^ 63 <=? n)%Z && (n <? 2 ^ 63)%Z.

(** The snapshots and change requests that the storage layer holds as they
    are given. Nothing is asked of the percentages, the costs or the status
    beyond their being such numbers and texts. *)
Definition storable_snapshot (p : Progress) : bool :=
  date_text (week_ending p)
  && forallb sqlite_real
       [planned_pct p; actual_pct p; budget_spent p; schedule_variance p; cpi p].

Definition storable_change_request (c : ChangeRequest) : bool :=
  date_text (date_raised c) && sqlite_real (cost_impact c)
  && sqlite_integer (time_impact_days c).

(** *** Fact sets used as examples *)

(** The two-workstream fact set of the end-to-end example. Both snapshots are
    of week 2024-01-07; [schedule_variance] is [actual - planned] and [cpi]
    is [actual / 100 * budget / (spend + 1)] to two decimals. *)
Definition example_facts : DB :=
  mkDB
    [ mkWorkstream "A" "A" "owner A" 2000 "Medium";
      mkWorkstream "B" "B" "owner B" 2000 "Medium" ]
    [ mkProgress "2024-01-07" "A" 50 50 1000 0 1;
      mkProgress "2024-01-07" "B" 50 20 1500 (-30) (27 # 100) ]
    [].

(** A fact set in which workstream B reports one week behind A. *)
Definition lagging_facts : DB :=
  mkDB
    [ mkWorkstream "A" "A" "owner A" 2000 "Medium";
      mkWorkstream "B" "B" "owner B" 2000 "Medium" ]
    [ mkProgress "2023-12-31" "A" 25 25 500 0 1;
      mkProgress "2023-12-31" "B" 25 10 700 (-15) (29 # 100);
      mkProgress "2024-01-07" "A" 50 50 1000 0 1 ]
    [].

(** A fact set in which workstream A has two snapshots of the same week, as
    after a status report entered twice. *)
Definition twice_reported_facts : DB :=
  mkDB
    [ mkWorkstream "A" "A" "owner A" 2000 "Medium" ]
    [ mkProgress "2024-01-07" "A" 50 50 1000 0 1;
      mkProgress "2024-01-07" "A" 50 40 1200 (-10) (67 # 100) ]
    [].

(** A snapshot and a change request that break every invariant. *)
Definition bad_snapshot : Progress :=
  mkProgress "2024-01-07" "WS_001" 150 (-5) (-1000) (-155) 0.

Definition bad_change_request : ChangeRequest :=
  mkChangeRequest "CR_1" "WS_001" "2024-01-07" "Change Req #1" "Escalated" (-1) 3.

(** *** Primary keys *)

(** [INSERT OR REPLACE] on a table whose primary key is [key]: both tables
    with such a key are written this way. *)
Definition upsert {R : Type} (key : R -> string) (tbl : list R) (r : R) : list R :=
  filter (fun x => negb (key x =? key r)%string) tbl ++ [r].

(** [SELECT * FROM tbl WHERE key = k], first match. *)
Definition find_by {R : Type} (key : R -> string) (k : string) (tbl : list R) : option R :=
  find (fun x => (key x =? k)%string) tbl.

(** The row of [tbl] has a key that none of [rows] has. *)
Definition untouched_by {R : Type} (key : R -> string) (rows : list R) (x : R) : bool :=
  negb (existsb (fun r => (key r =? key x)%string) rows).

(** *** Change-request numbering *)

(** The identifier of the [i]-th change request numbered from [k]. *)
Definition cr_name (k : Z) (i : nat) : string :=
  ("CR_" ++ str_of_int (k + Z.of_nat i))%string.

(** The bounds of [num_crs] for a workstream. *)
Definition cr_count_bounds (ws : string) : Z * Z :=
  if (ws =? "WS_002")%string then (15, 25)%Z
  else if (ws =? "WS_001")%string then (0, 3)%Z
  else (3, 8)%Z.

(** [batches wss cs]: [cs] is one batch of change requests per workstream of
    [wss], in order, each batch of a size within the bounds of its
    workstream. *)
Inductive batches : list Workstream -> list ChangeRequest -> Prop :=
| batches_nil : batches [] []
| batches_cons w wss cs cs' :
    Forall (fun c => cr_ws_id c = ws_id w) cs ->
    (fst (cr_count_bounds (ws_id w)) <= Z.of_nat (List.length cs)
     <= snd (cr_count_bounds (ws_id w)))%Z ->
    batches wss cs' ->
    batches (w :: wss) (cs ++ cs').

(** *** The baseline plan *)

(** The [planned_pct] values of [n] more weeks after a running plan [c]. *)
Fixpoint plan_from (c : Q) (n : nat) : list Q :=
  match n with
  | O => []
  | S n' =>
      let c' := py_min 100 (c + increment_plan) in
      round2 c' :: plan_from c' n'
  end.

(** The straight-line plan over 24 weeks, to two decimals. *)
Definition linear_plan : list Q :=
  [ 4.17; 8.33; 12.5; 16.67; 20.83; 25; 29.17; 33.33; 37.5; 41.67; 45.83; 50;
    54.17; 58.33; 62.5; 66.67; 70.83; 75; 79.17; 83.33; 87.5; 91.67; 95.83; 100 ].

(** The snapshot [q] is not behind [p] in delivered work. *)
Definition no_setback (p q : Progress) : Prop := actual_pct p <= actual_pct q.

(** The derived fields of a snapshot agree with its stored percentages. *)
Definition metrics_consistent (p : Progress) : Prop :=
  0 <= cpi p /\
  -100 <= schedule_variance p <= 100 /\
  actual_pct p - planned_pct p - (3 # 200) <= schedule_variance p
    <= actual_pct p - planned_pct p + (3 # 200).

(** *** The chart payload *)

(** The columns [history_query] selects of a snapshot. *)
Definition history_row (p : Progress) : HistoryRow :=
  mkHistoryRow (week_ending p) (p_ws_id p) (actual_pct p) (planned_pct p).

(** The snapshots in the order [history_query] reads them. *)
Definition by_week (db : DB) : list Progress :=
  order_by (fun a b => String.leb (week_ending a) (week_ending b)) (progress db).

(** The snapshots of workstream [ws], by ascending week. *)
Definition snapshots_of (db : DB) (ws : string) : list Progress :=
  filter (fun p => (p_ws_id p =? ws)%string) (by_week db).

(** The series of the history rows [rows] that belong to [ws]. *)
Definition series_of (ws : string) (rows : list HistoryRow) : Series :=
  let mine := filter (fun row => (h_ws_id row =? ws)%string) rows in
  mkSeries (map h_actual_pct mine) (map h_planned_pct mine).

(** The dict [d] maps every workstream of [rows], and no other key, to its
    series. *)
Definition charts (rows : list HistoryRow) (d : list (string * Series)) : Prop :=
  NoDup (map fst d) /\
  forall ws,
    find_by fst ws d
    = if existsb (fun row => (h_ws_id row =? ws)%string) rows
      then Some (ws, series_of ws rows)
      else None.

(** *** Across the views *)

(** The change requests counted on the bubbles, all together. *)
Definition total_x (bs : list Bubble) : Z := fold_right Z.add 0%Z (map x bs).

(** What a bubble and a status row show of a workstream. *)
Definition bubble_face (b : Bubble) : string * Q := (label b, y b).

Definition status_face (row : StatusRow) : string * Q :=
  (sr_name row, sr_schedule_variance row).

(** *** Week labels *)

(** The formatted dates of the weeks of the window come in strictly ascending
    text order, as dates written year-month-day with four-digit years do. *)
Definition weeks_increasing (fmt : Z -> string) : Prop :=
  forall i j : Z, (0 <= i)%Z -> (i < j)%Z -> (j < NUM_WEEKS)%Z ->
    String.ltb (fmt (7 * i)%Z) (fmt (7 * j)%Z) = true.

(** Two windows of weeks, each formatted from its own start date, have a
    week label in common. *)
Definition windows_overlap (fmt fmt' : Z -> string) : Prop :=
  exists i j : Z, (0 <= i < NUM_WEEKS)%Z /\ (0 <= j < NUM_WEEKS)%Z /\
                  fmt (7 * i)%Z = fmt' (7 * j)%Z.

(** The key of a snapshot in the data model. *)
Definition snapshot_key (p : Progress) : string * string := (p_ws_id p, week_ending p).

(** The check of [weeks_increasing] on every pair of weeks. *)
Definition weeks_increasing_check (fmt : Z -> string) : bool :=
  forallb (fun ij => (snd ij <=? fst ij)%Z
                     || String.ltb (fmt (7 * fst ij)%Z) (fmt (7 * snd ij)%Z))
          (list_prod (range NUM_WEEKS) (range NUM_WEEKS)).

(** *** Orphan snapshots *)

(** The snapshot refers to a workstream that the table does not hold (the
    foreign key of the schema is declared, not enforced). *)
Definition orphan (db : DB) (p : Progress) : bool :=
  negb (existsb (fun w => (ws_id w =? p_ws_id p)%string) (workstreams db)).

Section NumFacts.

Lemma round_half_even_bounds (x : Q) :
  inject_Z (Qfloor x) <= inject_Z (round_half_even x) /\
  inject_Z (round_half_even x) <= inject_Z (Qfloor x) + 1.
Proof.
  unfold round_half_even.
  destruct (Qcompare _ _); try destruct (Z.even _);
    rewrite ?inject_Z_plus; change (inject_Z 1) with 1; split; lra.
Qed.

Lemma round_half_even_near (x : Q) :
  x - (1 # 2) <= inject_Z (round_half_even x) <= x + (1 # 2).
Proof.
  unfold round_half_even.
  pose proof (Qfloor_le x) as Hlo.
  pose proof (Qlt_floor x) as Hhi. rewrite inject_Z_plus in Hhi.
  change (inject_Z 1) with 1 in Hhi.
  destruct (Qcompare _ _) eqn:E.
  - apply <- Qeq_alt in E.
    destruct (Z.even _); rewrite ?inject_Z_plus;
      change (inject_Z 1) with 1; split; lra.
  - apply <- Qlt_alt in E. split; lra.
  - apply <- Qgt_alt in E. rewrite inject_Z_plus.
    change (inject_Z 1) with 1. split; lra.
Qed.

Lemma round_half_even_Z (z : Z) : round_half_even (inject_Z z) = z.
Proof.
  unfold round_half_even. rewrite Qfloor_Z.
  assert (E : Qcompare (inject_Z z - inject_Z z) (1 # 2) = Lt).
  { apply -> Qlt_alt. lra. }
  now rewrite E.
Qed.

Lemma round_half_even_mono (x y : Q) :
  x <= y -> (round_half_even x <= round_half_even y)%Z.
Proof.
  intros Hxy.
  pose proof (Qfloor_resp_le _ _ Hxy) as Hf.
  destruct (Z.eq_dec (Qfloor x) (Qfloor y)) as [Heq | Hne].
  - unfold round_half_even. rewrite Heq.
    destruct (Qcompare (x - inject_Z (Qfloor y)) (1 # 2)) eqn:Ex;
      destruct (Qcompare (y - inject_Z (Qfloor y)) (1 # 2)) eqn:Ey;
      try destruct (Z.even (Qfloor y)); try lia;
      exfalso;
      repeat match goal with
      | H : Qcompare _ _ = Eq |- _ => apply <- Qeq_alt in H
      | H : Qcompare _ _ = Lt |- _ => apply <- Qlt_alt in H
      | H : Qcompare _ _ = Gt |- _ => apply <- Qgt_alt in H
      end; lra.
  - assert (Hlt : (Qfloor x + 1 <= Qfloor y)%Z) by lia.
    pose proof (round_half_even_bounds x) as [_ Hx].
    pose proof (round_half_even_bounds y) as [Hy _].
    change 1 with (inject_Z 1) in Hx. rewrite <- inject_Z_plus in Hx.
    rewrite <- Zle_Qle in Hx, Hy. lia.
Qed.

Lemma round2_mono (x y : Q) : x <= y -> round2 x <= round2 y.
Proof.
  intros H. unfold round2.
  assert (Hm : (round_half_even (x * 100) <= round_half_even (y * 100))%Z).
  { apply round_half_even_mono. lra. }
  rewrite Zle_Qle in Hm.
  unfold Qdiv. apply Qmult_le_compat_r; [exact Hm | discriminate].
Qed.

(** Rounding does not move a value that is a whole number of hundredths. *)
Lemma round2_hundredths (z : Z) : round2 (inject_Z z / 100) == inject_Z z / 100.
Proof.
  unfold round2.
  assert (E : inject_Z z / 100 * 100 == inject_Z z) by (field; discriminate).
  assert (R : round_half_even (inject_Z z / 100 * 100) = z).
  { rewrite <- (round_half_even_Z z) at 2.
    unfold round_half_even.
    assert (F : Qfloor (inject_Z z / 100 * 100) = Qfloor (inject_Z z)).
    { apply Z.le_antisymm; apply Qfloor_resp_le; rewrite E; apply Qle_refl. }
    rewrite F.
    assert (C : Qcompare (inject_Z z / 100 * 100 - inject_Z (Qfloor (inject_Z z))) (1 # 2)
              = Qcompare (inject_Z z - inject_Z (Qfloor (inject_Z z))) (1 # 2)).
    { now rewrite E. }
    now rewrite C. }
  now rewrite R.
Qed.

Lemma round2_Z (z : Z) : round2 (inject_Z z) == inject_Z z.
Proof.
  assert (E : inject_Z z == inject_Z (z * 100) / 100).
  { rewrite inject_Z_mult. field. }
  unfold round2.
  assert (R : round_half_even (inject_Z z * 100) = (z * 100)%Z).
  { change 100 with (inject_Z 100). rewrite <- inject_Z_mult.
    apply round_half_even_Z. }
  rewrite R. rewrite inject_Z_mult. field.
Qed.

Lemma round2_near (x : Q) : x - (1 # 200) <= round2 x <= x + (1 # 200).
Proof.
  unfold round2.
  pose proof (round_half_even_near (x * 100)) as [Hlo Hhi].
  split.
  - apply Qle_shift_div_l; [reflexivity | lra].
  - apply Qle_shift_div_r; [reflexivity | lra].
Qed.

Lemma round2_nonneg (x : Q) : 0 <= x -> 0 <= round2 x.
Proof.
  intros H. apply round2_mono in H.
  rewrite (round2_Z 0) in H. exact H.
Qed.

Lemma round2_le_Z (x : Q) (z : Z) : x <= inject_Z z -> round2 x <= inject_Z z.
Proof. intros H. apply round2_mono in H. now rewrite round2_Z in H. Qed.

Lemma round2_ge_Z (x : Q) (z : Z) : inject_Z z <= x -> inject_Z z <= round2 x.
Proof. intros H. apply round2_mono in H. now rewrite round2_Z in H. Qed.

Lemma py_min_le_l (a b : Q) : py_min a b <= a.
Proof. unfold py_min. destruct (Qlt_le_dec b a); lra. Qed.

Lemma py_min_le_r (a b : Q) : py_min a b <= b.
Proof. unfold py_min. destruct (Qlt_le_dec b a); lra. Qed.

Lemma py_min_glb (a b c : Q) : c <= a -> c <= b -> c <= py_min a b.
Proof. unfold py_min. destruct (Qlt_le_dec b a); lra. Qed.

Lemma py_min_mono_r (a b b' : Q) : b <= b' -> py_min a b <= py_min a b'.
Proof.
  intros H. apply py_min_glb; [apply py_min_le_l |].
  pose proof (py_min_le_r a b). lra.
Qed.

End NumFacts.

(* ===================================================================== *)
(** ** The generator, as the set of histories it can emit *)
(* ===================================================================== *)

Section GeneratorRuns.
Context {G : Type} {RG : Random G} {RL : RandomLaws G}.
Variable fmt : Z -> string.

Lemma bind_run {A B} (m : M A) (k : A -> M B) (g : G) :
  bind m k g = k (fst (m g)) (snd (m g)).
Proof. unfold bind. now destruct (m g). Qed.

Lemma uniform_range (a b : Q) (g : G) :
  a <= b -> a <= fst (uniform a b g) <= b.
Proof.
  intros Hab. unfold uniform. rewrite bind_run. cbn.
  pose proof (random_unit g) as [Hr0 Hr1].
  split; nra.
Qed.

Lemma randint_range (a b : Z) (g : G) :
  (a <= b)%Z -> (a <= fst (randint a b g) <= b)%Z.
Proof.
  intros Hab. unfold randint. rewrite bind_run. cbn.
  pose proof (randbelow_range (b - a + 1) g). lia.
Qed.

Lemma choice_in {A} (l : list A) (d : A) (g : G) :
  l <> [] -> In (fst (choice l d g)) l.
Proof.
  intros Hl. unfold choice. rewrite bind_run. cbn.
  apply nth_In.
  assert (Hpos : (0 < Z.of_nat (List.length l))%Z).
  { destruct l; [congruence | cbn; lia]. }
  pose proof (randbelow_range _ g Hpos). lia.
Qed.

Lemma persona_spec (ws : string) (b : Q) (g : G) :
  exists f k, in_ranges (ranges_of ws) f k /\
    fst (persona ws b g) = (increment_plan * f, b / inject_Z NUM_WEEKS * k).
Proof.
  unfold persona, ranges_of, in_ranges.
  destruct (ws =? "WS_002")%string; [| destruct (ws =? "WS_001")%string];
    rewrite !bind_run; cbn [ret fst snd f_lo f_hi g_lo g_hi];
    eexists; eexists; (split; [split | reflexivity]);
    apply uniform_range; lra.
Qed.

Lemma week_step_spec (ws : string) (b : Q) (st : Running) (g : G) :
  exists f k, in_ranges (ranges_of ws) f k /\
    fst (week_step ws b st g) = advance b f k st.
Proof.
  destruct (persona_spec ws b g) as (f & k & Hr & E).
  exists f, k. split; [exact Hr |].
  unfold week_step. rewrite bind_run.
  destruct (fst (persona ws b g)) as [ia sr]. inversion E; subst.
  reflexivity.
Qed.

Lemma weeks_loop_history (ws : string) (b : Q) (weeks : list Z) :
  forall st g, history fmt ws b st weeks (fst (weeks_loop fmt ws b weeks st g)).
Proof.
  induction weeks as [| i weeks IH]; intros st g; cbn [weeks_loop].
  - constructor.
  - rewrite bind_run.
    destruct (week_step_spec ws b st g) as (f & k & Hr & E).
    rewrite E. rewrite bind_run. cbn [ret fst].
    apply history_cons; [exact Hr | apply IH].
Qed.

Lemma progress_loop_histories (wss : list Workstream) :
  forall g, histories fmt wss (fst (progress_loop fmt wss g)).
Proof.
  induction wss as [| w wss IH]; intros g; cbn [progress_loop].
  - constructor.
  - rewrite !bind_run. cbn [ret fst].
    constructor; [apply weeks_loop_history | apply IH].
Qed.

End GeneratorRuns.

(* ===================================================================== *)
(** ** Invariants of a history *)
(* ===================================================================== *)

Section HistoryFacts.

Lemma increment_plan_eq : increment_plan == 25 # 6.
Proof. reflexivity. Qed.

Lemma weekly_budget_eq (b : Q) : b / inject_Z NUM_WEEKS == b / 24.
Proof. reflexivity. Qed.

Lemma ranges_of_pos (ws : string) (f k : Q) :
  in_ranges (ranges_of ws) f k -> 0 < f /\ 0 < k.
Proof.
  unfold in_ranges, ranges_of.
  destruct (ws =? "WS_002")%string; [| destruct (ws =? "WS_001")%string];
    cbn; intros [[? ?] [? ?]]; split; lra.
Qed.

Lemma start_sane : sane start.
Proof. unfold sane, start; cbn. repeat split; lra. Qed.

Lemma weekly_spend_nonneg (b k : Q) :
  0 <= b -> 0 <= k -> 0 <= b / inject_Z NUM_WEEKS * k.
Proof.
  intros Hb Hk. rewrite weekly_budget_eq.
  apply Qmult_le_0_compat; [| exact Hk].
  apply Qle_shift_div_l; lra.
Qed.

Lemma advance_sane (b f k : Q) (st : Running) :
  0 <= b -> 0 <= f -> 0 <= k -> sane st -> sane (advance b f k st).
Proof.
  intros Hb Hf Hk (Hp & Ha & Hs). unfold sane, advance; cbn.
  pose proof (weekly_spend_nonneg b k Hb Hk) as Hw.
  assert (Hi : 0 <= increment_plan * f).
  { apply Qmult_le_0_compat; [rewrite increment_plan_eq; lra | exact Hf]. }
  pose proof increment_plan_eq as Ei.
  repeat split; try apply py_min_le_l; try (apply py_min_glb; lra); lra.
Qed.

Lemma advance_no_loss (b f k : Q) (st : Running) :
  0 <= b -> 0 <= k -> current_planned st <= 100 ->
  current_planned st <= current_planned (advance b f k st) /\
  current_spend st <= current_spend (advance b f k st).
Proof.
  intros Hb Hk Hp. unfold advance; cbn.
  pose proof (weekly_spend_nonneg b k Hb Hk) as Hw.
  pose proof increment_plan_eq as Ei.
  split; [apply py_min_glb |]; lra.
Qed.

Lemma record_in_bounds (wk ws : string) (b : Q) (st : Running) :
  sane st -> in_bounds (record_of wk ws b st).
Proof.
  intros (Hp & Ha & Hs). unfold in_bounds, record_of; cbn.
  repeat split;
    first [ apply (round2_ge_Z _ 0); tauto
          | apply (round2_le_Z _ 100); tauto ].
Qed.

Section OneWorkstream.
Variable fmt : Z -> string.
Variable ws : string.
Variable b : Q.
Hypothesis b_nonneg : 0 <= b.

Lemma history_in_bounds (st : Running) (weeks : list Z) (rs : list Progress) :
  history fmt ws b st weeks rs -> sane st -> Forall in_bounds rs.
Proof.
  induction 1 as [st | st i weeks f k rs Hr Hh IH]; intros Hs.
  - constructor.
  - destruct (ranges_of_pos _ _ _ Hr) as [Hf Hk].
    assert (Hs' : sane (advance b f k st)).
    { apply advance_sane; auto; lra. }
    constructor; [apply record_in_bounds; exact Hs' | apply IH; exact Hs'].
Qed.

Lemma history_floor (st : Running) (weeks : list Z) (rs : list Progress) :
  history fmt ws b st weeks rs -> sane st ->
  Forall (fun p => round2 (current_planned st) <= planned_pct p /\
                   round2 (current_spend st) <= budget_spent p) rs.
Proof.
  induction 1 as [st | st i weeks f k rs Hr Hh IH]; intros Hs.
  - constructor.
  - destruct (ranges_of_pos _ _ _ Hr) as [Hf Hk].
    assert (Hs' : sane (advance b f k st)).
    { apply advance_sane; auto; lra. }
    destruct (advance_no_loss b f k st) as [Hp Hsp]; try lra.
    { destruct Hs as (Hp & _). lra. }
    apply round2_mono in Hp, Hsp.
    constructor.
    + unfold record_of; cbn. split; assumption.
    + specialize (IH Hs'). revert IH. apply Forall_impl.
      intros p [H1 H2]. split; lra.
Qed.

Lemma history_no_regress (st : Running) (weeks : list Z) (rs : list Progress) :
  history fmt ws b st weeks rs -> sane st -> StronglySorted no_regress rs.
Proof.
  induction 1 as [st | st i weeks f k rs Hr Hh IH]; intros Hs.
  - constructor.
  - destruct (ranges_of_pos _ _ _ Hr) as [Hf Hk].
    assert (Hs' : sane (advance b f k st)).
    { apply advance_sane; auto; lra. }
    constructor; [apply IH; exact Hs' |].
    pose proof (history_floor _ _ _ Hh Hs') as Hfl.
    revert Hfl. apply Forall_impl. intros p Hp. exact Hp.
Qed.

Lemma history_labels (st : Running) (weeks : list Z) (rs : list Progress) :
  history fmt ws b st weeks rs ->
  map week_ending rs = map (fun i => fmt (7 * i)%Z) weeks /\
  Forall (fun p => p_ws_id p = ws) rs.
Proof.
  induction 1 as [st | st i weeks f k rs Hr Hh [IH1 IH2]].
  - split; [reflexivity | constructor].
  - split; [cbn; now rewrite IH1 | constructor; [reflexivity | exact IH2]].
Qed.

End OneWorkstream.
End HistoryFacts.

Section ReachFacts.

Lemma history_reach (fmt : Z -> string) (ws : string) (b : Q)
      (st : Running) (weeks : list Z) (rs : list Progress) :
  history fmt ws b st weeks rs ->
  weeks <> [] ->
  forall d, exists st',
    reach (ranges_of ws) b (List.length weeks) st st' /\
    last rs d = record_of (fmt (7 * last weeks 0)%Z) ws b st'.
Proof.
  induction 1 as [st | st i weeks f k rs Hr Hh IH]; intros Hne d.
  - congruence.
  - destruct weeks as [| j weeks].
    + inversion Hh; subst. exists (advance b f k st). split.
      * econstructor; [exact Hr | constructor].
      * reflexivity.
    + assert (Hne' : j :: weeks <> []) by discriminate.
      destruct (IH Hne' d) as (st' & Hreach & Hlast).
      exists st'. split.
      * econstructor; [exact Hr | exact Hreach].
      * inversion Hh; subst. exact Hlast.
Qed.

Lemma reach_bounds (rg : Ranges) (b : Q) (n : nat) (st st' : Running) :
  reach rg b n st st' ->
  0 <= b -> 0 <= f_lo rg -> 0 <= g_lo rg -> sane st ->
  let N := inject_Z (Z.of_nat n) in
  sane st' /\
  py_min 100 (current_planned st + N * increment_plan) <= current_planned st' /\
  current_actual st' <= current_actual st + N * (increment_plan * f_hi rg) /\
  py_min 100 (current_actual st + N * (increment_plan * f_lo rg)) <= current_actual st' /\
  current_spend st + N * (b / inject_Z NUM_WEEKS * g_lo rg) <= current_spend st'.
Proof.
  intros Hreach Hb Hflo Hglo.
  induction Hreach as [st | n st f k st' [[Hf1 Hf2] [Hk1 Hk2]] Hreach IH]; intros Hs N.
  - subst N. cbn [Z.of_nat]. change (inject_Z 0) with 0.
    split; [exact Hs |].
    pose proof (py_min_le_r 100 (current_planned st + 0 * increment_plan)).
    pose proof (py_min_le_r 100 (current_actual st + 0 * (increment_plan * f_lo rg))).
    repeat split; lra.
  - assert (Hs1 : sane (advance b f k st)) by (apply advance_sane; auto; lra).
    specialize (IH Hs1). cbv zeta in IH.
    destruct IH as (Hs' & Hp & Hau & Hal & Hsp).
    subst N. rewrite Nat2Z.inj_succ. unfold Z.succ. rewrite inject_Z_plus.
    change (inject_Z 1) with 1.
    set (M := inject_Z (Z.of_nat n)) in *.
    assert (HM : 0 <= M).
    { subst M. change 0 with (inject_Z 0). rewrite <- Zle_Qle. lia. }
    pose proof increment_plan_eq as Ei.
    assert (Hinc : 0 <= increment_plan) by lra.
    destruct Hs as (Hp0 & Ha0 & Hs0).
    assert (X1 : increment_plan * f <= increment_plan * f_hi rg).
    { apply Qmult_le_compat_nonneg; split; lra. }
    assert (X2 : increment_plan * f_lo rg <= increment_plan * f).
    { apply Qmult_le_compat_nonneg; split; lra. }
    assert (X3 : 0 <= increment_plan * f_lo rg) by (apply Qmult_le_0_compat; lra).
    assert (X4 : 0 <= M * (increment_plan * f_lo rg)) by (apply Qmult_le_0_compat; lra).
    assert (X5 : 0 <= M * increment_plan) by (apply Qmult_le_0_compat; lra).
    assert (Hw : 0 <= b / inject_Z NUM_WEEKS).
    { rewrite weekly_budget_eq. apply Qle_shift_div_l; lra. }
    assert (X6 : b / inject_Z NUM_WEEKS * g_lo rg <= b / inject_Z NUM_WEEKS * k).
    { apply Qmult_le_compat_nonneg; split; lra. }
    unfold advance in Hp, Hau, Hal, Hsp; cbn in Hp, Hau, Hal, Hsp.
    split; [exact Hs' |].
    repeat split.
    + eapply Qle_trans; [| exact Hp].
      apply py_min_glb; [apply py_min_le_l |].
      pose proof (py_min_le_r 100 (current_planned st + (M + 1) * increment_plan)).
      unfold py_min in *.
      repeat match goal with
             | _ : context [Qlt_le_dec ?a ?c] |- _ => destruct (Qlt_le_dec a c)
             | |- context [Qlt_le_dec ?a ?c] => destruct (Qlt_le_dec a c)
             end; lra.
    + pose proof (py_min_le_r 100 (current_actual st + increment_plan * f)). lra.
    + eapply Qle_trans; [| exact Hal].
      apply py_min_glb; [apply py_min_le_l |].
      pose proof (py_min_le_r 100
                    (current_actual st + (M + 1) * (increment_plan * f_lo rg))).
      unfold py_min in *.
      repeat match goal with
             | _ : context [Qlt_le_dec ?a ?c] |- _ => destruct (Qlt_le_dec a c)
             | |- context [Qlt_le_dec ?a ?c] => destruct (Qlt_le_dec a c)
             end; lra.
    + lra.
Qed.

End ReachFacts.

(* ===================================================================== *)
(** ** The records of all workstreams *)
(* ===================================================================== *)

Section AllWorkstreams.
Variable fmt : Z -> string.

Lemma filter_all {A} (f : A -> bool) (l : list A) :
  Forall (fun a => f a = true) l -> filter f l = l.
Proof.
  induction 1 as [| a l Ha _ IH]; cbn; [reflexivity |].
  now rewrite Ha, IH.
Qed.

Lemma filter_none {A} (f : A -> bool) (l : list A) :
  Forall (fun a => f a = false) l -> filter f l = [].
Proof.
  induction 1 as [| a l Ha _ IH]; cbn; [reflexivity |].
  now rewrite Ha, IH.
Qed.

Lemma histories_owner (wss : list Workstream) (rs : list Progress) :
  histories fmt wss rs -> Forall (fun p => In (p_ws_id p) (map ws_id wss)) rs.
Proof.
  induction 1 as [| w wss rs rs' Hh Hhs IH].
  - constructor.
  - apply Forall_app. split.
    + destruct (history_labels _ _ _ _ _ _ Hh) as [_ Hown].
      revert Hown. apply Forall_impl. intros p ->. now left.
    + revert IH. apply Forall_impl. intros p Hp. now right.
Qed.

(** The records of one workstream, picked out of the whole list, are one
    history of that workstream. *)
Lemma histories_filter (wss : list Workstream) (rs : list Progress) :
  histories fmt wss rs ->
  NoDup (map ws_id wss) ->
  forall w, In w wss ->
    history fmt (ws_id w) (budget w) start (range NUM_WEEKS)
            (filter (fun p => (p_ws_id p =? ws_id w)%string) rs).
Proof.
  induction 1 as [| w0 wss rs rs' Hh Hhs IH]; intros Hnd w Hin.
  - destruct Hin.
  - cbn in Hnd. inversion Hnd as [| ? ? Hnotin Hnd']; subst.
    rewrite filter_app.
    destruct (history_labels _ _ _ _ _ _ Hh) as [_ Hown].
    pose proof (histories_owner _ _ Hhs) as Hown'.
    destruct Hin as [-> | Hin].
    + rewrite (filter_all _ rs), (filter_none _ rs'), app_nil_r; [exact Hh | |].
      * revert Hown'. apply Forall_impl. intros p Hp.
        apply String.eqb_neq. intros E. rewrite E in Hp. contradiction.
      * revert Hown. apply Forall_impl. intros p ->. apply String.eqb_refl.
    + rewrite (filter_none _ rs); [cbn; apply IH; assumption |].
      revert Hown. apply Forall_impl. intros p ->.
      apply String.eqb_neq. intros E. apply Hnotin. rewrite E.
      apply in_map. exact Hin.
Qed.

Lemma workstreams_data_keys : NoDup (map ws_id workstreams_data).
Proof.
  cbn. repeat constructor; cbn; intuition discriminate.
Qed.

Lemma workstreams_data_budgets : Forall (fun w => 0 <= budget w) workstreams_data.
Proof. repeat constructor; cbn; discriminate. Qed.

Lemma histories_in_bounds (wss : list Workstream) (rs : list Progress) :
  histories fmt wss rs ->
  Forall (fun w => 0 <= budget w) wss ->
  Forall in_bounds rs.
Proof.
  induction 1 as [| w wss rs rs' Hh Hhs IH]; intros Hb.
  - constructor.
  - inversion Hb; subst. apply Forall_app. split.
    + eapply history_in_bounds; eauto using start_sane.
    + apply IH. assumption.
Qed.

End AllWorkstreams.

(* ===================================================================== *)
(** ** Personas *)
(* ===================================================================== *)

Section PersonaFacts.
Variable fmt : Z -> string.

(** A persona whose delivery multiplier never exceeds 1 never gets ahead of
    the plan. *)
Lemma history_behind_plan (ws : string) (b : Q) (st : Running)
      (weeks : list Z) (rs : list Progress) :
  history fmt ws b st weeks rs ->
  f_hi (ranges_of ws) <= 1 ->
  current_actual st <= current_planned st ->
  Forall (fun p => actual_pct p <= planned_pct p /\ schedule_variance p <= 0) rs.
Proof.
  intros Hh Hhi.
  induction Hh as [st | st i weeks f k rs Hr Hh IH]; intros Hle.
  - constructor.
  - destruct (ranges_of_pos _ _ _ Hr) as [Hf Hk].
    destruct Hr as [[_ Hf2] _].
    pose proof increment_plan_eq as Ei.
    assert (Hstep : current_actual (advance b f k st)
                    <= current_planned (advance b f k st)).
    { unfold advance; cbn.
      assert (X : increment_plan * f <= increment_plan * 1).
      { apply Qmult_le_compat_nonneg; split; lra. }
      apply py_min_glb; [apply py_min_le_l |].
      pose proof (py_min_le_r 100 (current_actual st + increment_plan * f)).
      lra. }
    constructor; [| apply IH; exact Hstep].
    unfold record_of; cbn. split.
    + apply round2_mono. exact Hstep.
    + apply (round2_le_Z _ 0).
      unfold advance in Hstep; cbn in Hstep.
      change (inject_Z 0) with 0. lra.
Qed.

Lemma ranges_not_on_track (ws : string) :
  ws <> "WS_001"%string -> f_hi (ranges_of ws) <= 1.
Proof.
  intros Hne. unfold ranges_of.
  destruct (ws =? "WS_002")%string; [cbn; lra |].
  destruct (String.eqb_spec ws "WS_001"); [contradiction | cbn; lra].
Qed.

(** The totals of a workstream after the [NUM_WEEKS] weeks of its loop. *)
Lemma final_totals (ws : string) (b : Q) (st' : Running) :
  0 <= b ->
  reach (ranges_of ws) b (List.length (range NUM_WEEKS)) start st' ->
  sane st' /\
  current_planned st' == 100 /\
  current_actual st' <= 100 * f_hi (ranges_of ws) /\
  py_min 100 (100 * f_lo (ranges_of ws)) <= current_actual st' /\
  b * g_lo (ranges_of ws) <= current_spend st'.
Proof.
  intros Hb Hreach.
  assert (Hlo : 0 <= f_lo (ranges_of ws) /\ 0 <= g_lo (ranges_of ws)).
  { unfold ranges_of.
    destruct (ws =? "WS_002")%string; [| destruct (ws =? "WS_001")%string];
      cbn; split; lra. }
  destruct Hlo as [Hf Hg].
  pose proof (reach_bounds _ _ _ _ _ Hreach Hb Hf Hg start_sane) as HB.
  cbv zeta in HB. destruct HB as (Hs & Hp & Hau & Hal & Hsp).
  change (inject_Z (Z.of_nat (List.length (range NUM_WEEKS)))) with 24 in *.
  cbn [start current_planned current_actual current_spend] in *.
  pose proof increment_plan_eq as Ei.
  pose proof (weekly_budget_eq b) as Eb.
  split; [exact Hs |].
  destruct Hs as ((_ & Hp100) & _ & _).
  assert (P : py_min 100 (0 + 24 * increment_plan) == 100).
  { unfold py_min. destruct (Qlt_le_dec _ _); lra. }
  repeat split.
  - lra.
  - rewrite Ei in Hau. lra.
  - eapply Qle_trans; [| exact Hal].
    apply py_min_mono_r. rewrite Ei. lra.
  - rewrite Eb in Hsp.
    assert (E : 0 + 24 * (b / 24 * g_lo (ranges_of ws)) == b * g_lo (ranges_of ws))
      by field.
    lra.
Qed.

(** The last record of a history over the whole window is the record of
    the final totals. *)
Lemma terminal_of_history (ws : string) (b : Q) (rs : list Progress) :
  history fmt ws b start (range NUM_WEEKS) rs ->
  exists p l st', rs = p :: l /\
    reach (ranges_of ws) b (List.length (range NUM_WEEKS)) start st' /\
    last (p :: l) p = record_of (fmt (7 * 23)%Z) ws b st'.
Proof.
  intros Hh.
  destruct rs as [| p l]; [inversion Hh |].
  assert (Hne : range NUM_WEEKS <> []) by discriminate.
  destruct (history_reach _ _ _ _ _ _ Hh Hne p) as (st' & Hreach & Hlast).
  exists p, l, st'. repeat split; assumption.
Qed.

End PersonaFacts.

(* ===================================================================== *)
(** ** The replay source is a lawful random source *)
(* ===================================================================== *)

#[export] Instance replay_laws : RandomLaws nat.
Proof.
  split.
  - intros g. change (random g) with (replay_random g).
    unfold replay_random; cbn [fst].
    pose proof (Nat.mod_upper_bound g 11 ltac:(discriminate)) as Hlt.
    assert (H0 : 0 <= inject_Z (Z.of_nat (g mod 11))).
    { change 0 with (inject_Z 0). rewrite <- Zle_Qle. lia. }
    assert (H1 : inject_Z (Z.of_nat (g mod 11)) <= 10).
    { change 10 with (inject_Z 10). rewrite <- Zle_Qle. lia. }
    split.
    + apply Qle_shift_div_l; lra.
    + apply Qle_shift_div_r; lra.
  - intros n g Hn. change (randbelow n g) with (replay_randbelow n g).
    unfold replay_randbelow; cbn [fst].
    apply Z.mod_pos_bound. exact Hn.
Qed.

(* ===================================================================== *)
(** ** Properties of the generator *)
(* ===================================================================== *)

Section MetricsSpec.

(** C5. The cost performance index of a snapshot is the quotient of the
    earned value [current_actual / 100 * budget] by [current_spend + 1],
    rounded to two decimals. Whenever the earned value and the cumulative
    spend are non-negative, the divisor is strictly positive (also at zero
    spend), so the quotient is a true quotient, and both the quotient and
    the stored [cpi] are non-negative rationals. *)
Theorem cpi_guarded (wk ws : string) (b : Q) (st : Running) :
  0 <= current_actual st / 100 * b ->
  0 <= current_spend st ->
  let earned_value := current_actual st / 100 * b in
  let quotient := earned_value / (current_spend st + 1) in
  0 < current_spend st + 1 /\
  quotient * (current_spend st + 1) == earned_value /\
  0 <= quotient /\
  cpi (record_of wk ws b st) = round2 quotient /\
  0 <= cpi (record_of wk ws b st) /\
  quotient - (1 # 200) <= cpi (record_of wk ws b st) <= quotient + (1 # 200).
Proof.
  intros Hev Hsp ev q.
  assert (Hden : 0 < current_spend st + 1) by lra.
  assert (Hq : 0 <= q).
  { subst q. apply Qle_shift_div_l; [exact Hden | subst ev; lra]. }
  repeat split.
  - exact Hden.
  - subst q. field. lra.
  - exact Hq.
  - cbn. apply round2_nonneg. exact Hq.
  - apply round2_near.
  - apply round2_near.
Qed.

(** The week-1 corner of C5: nothing spent yet. *)
Lemma cpi_guarded_witness :
  0 < 0 + 1 /\
  cpi (record_of "2024-01-07" "A" 2000 (mkRunning 50 50 0)) = round2 (50 / 100 * 2000 / (0 + 1)).
Proof.
  pose proof (cpi_guarded "2024-01-07" "A" 2000 (mkRunning 50 50 0)) as H.
  cbn [current_actual current_spend] in H.
  assert (H1 : 0 <= 50 / 100 * 2000) by discriminate.
  assert (H2 : 0 <= 0) by discriminate.
  destruct (H H1 H2) as (Hd & _ & _ & Hc & _).
  split; [exact Hd | exact Hc].
Defined.

End MetricsSpec.

Section GeneratorSpec.
Context {G : Type} {RG : Random G} {RL : RandomLaws G}.
Variable fmt : Z -> string.

(** C6. Whatever the random source draws, every snapshot the generator emits
    has [planned_pct] and [actual_pct] in [0, 100] and a non-negative
    [budget_spent]; and the snapshots of each workstream, which are emitted
    week after week (their [week_ending] labels are those of weeks
    0, 1, ..., 23 in this order), never regress in [planned_pct] nor in
    [budget_spent]. *)
Theorem snapshots_bounded_monotone (g : G) :
  let rs := fst (progress_records fmt g) in
  Forall in_bounds rs /\
  forall w, In w workstreams_data ->
    let snaps := filter (fun p => (p_ws_id p =? ws_id w)%string) rs in
    map week_ending snaps = map (fun i => fmt (7 * i)%Z) (range NUM_WEEKS) /\
    StronglySorted no_regress snaps.
Proof.
  intros rs.
  pose proof (progress_loop_histories fmt workstreams_data g) as Hh.
  fold (progress_records fmt) in Hh. fold rs in Hh.
  split.
  - eapply histories_in_bounds; [exact Hh | apply workstreams_data_budgets].
  - intros w Hw snaps.
    pose proof (histories_filter fmt _ _ Hh workstreams_data_keys w Hw) as Hf.
    fold snaps in Hf.
    assert (Hb : 0 <= budget w).
    { pose proof workstreams_data_budgets as Hall.
      rewrite Forall_forall in Hall. now apply Hall. }
    split.
    + eapply history_labels; exact Hf.
    + eapply history_no_regress; [exact Hb | exact Hf | apply start_sane].
Qed.

(** C10. Whatever the random source draws, a snapshot of any workstream other
    than the on-track one (WS_001) has [actual_pct <= planned_pct] and a
    [schedule_variance] that is not positive, in every week. *)
Theorem off_track_never_ahead (g : G) (p : Progress) :
  In p (fst (progress_records fmt g)) ->
  p_ws_id p <> "WS_001"%string ->
  actual_pct p <= planned_pct p /\ schedule_variance p <= 0.
Proof.
  intros Hin Hne.
  pose proof (progress_loop_histories fmt workstreams_data g) as Hh.
  fold (progress_records fmt) in Hh.
  pose proof (histories_owner fmt _ _ Hh) as Hown.
  rewrite Forall_forall in Hown. specialize (Hown p Hin).
  apply in_map_iff in Hown. destruct Hown as (w & Ew & Hw).
  pose proof (histories_filter fmt _ _ Hh workstreams_data_keys w Hw) as Hf.
  assert (Hlag : f_hi (ranges_of (ws_id w)) <= 1).
  { apply ranges_not_on_track. now rewrite Ew. }
  pose proof (history_behind_plan fmt _ _ _ _ _ Hf Hlag) as Hall.
  rewrite Forall_forall in Hall. apply Hall.
  - cbn. lra.
  - apply filter_In. split; [exact Hin |].
    rewrite Ew. apply String.eqb_refl.
Qed.

End GeneratorSpec.

Section PersonaSpec.
Context {G : Type} {RG : Random G} {RL : RandomLaws G}.
Variable fmt : Z -> string.

Lemma terminal_record (g : G) (w : Workstream) :
  In w workstreams_data ->
  exists p st',
    terminal (ws_id w) (fst (progress_records fmt g)) = Some p /\
    p = record_of (fmt (7 * 23)%Z) (ws_id w) (budget w) st' /\
    reach (ranges_of (ws_id w)) (budget w) (List.length (range NUM_WEEKS)) start st'.
Proof.
  intros Hw.
  pose proof (progress_loop_histories fmt workstreams_data g) as Hh.
  fold (progress_records fmt) in Hh.
  pose proof (histories_filter fmt _ _ Hh workstreams_data_keys w Hw) as Hf.
  destruct (terminal_of_history fmt _ _ _ Hf) as (p & l & st' & E & Hreach & Hlast).
  exists (last (p :: l) p), st'. unfold terminal. rewrite E.
  repeat split; assumption.
Qed.

(** C7. Whatever the random source draws within the persona ranges, the last
    snapshot of the at-risk workstream (WS_002) has [actual_pct] strictly
    below [planned_pct], a strictly negative [schedule_variance] (at most
    -20) and a [cpi] strictly below 1 (at most 0.73); and the last snapshot
    of the on-track workstream (WS_001) has a [schedule_variance] between
    -5 and 0. *)
Theorem persona_terminal (g : G) :
  let rs := fst (progress_records fmt g) in
  (exists p, terminal "WS_002" rs = Some p /\
     actual_pct p < planned_pct p /\
     schedule_variance p < 0 /\ schedule_variance p <= -20 /\
     cpi p < 1 /\ cpi p <= 73 # 100) /\
  (exists q, terminal "WS_001" rs = Some q /\
     -5 <= schedule_variance q <= 0).
Proof.
  intros rs. split.
  - destruct (terminal_record g
                (mkWorkstream "WS_002" "Supply Chain (MM/SD)" "Mike R." 2200000 "High"))
      as (p & st' & Ht & Ep & Hreach).
    { cbn. tauto. }
    cbn [ws_id budget] in *.
    apply final_totals in Hreach; [| discriminate].
    destruct Hreach as (((Hp0 & Hp1) & (Ha0 & Ha1) & Hs0) & Hp & Hau & _ & Hsp).
    change (f_hi (ranges_of "WS_002")) with (8 # 10) in Hau.
    change (g_lo (ranges_of "WS_002")) with (11 # 10) in Hsp.
    exists p. split; [exact Ht |].
    assert (Hact : actual_pct p <= 80).
    { subst p. cbn. apply (round2_le_Z _ 80). change (inject_Z 80) with 80. lra. }
    assert (Hplan : 100 <= planned_pct p).
    { subst p. cbn. apply (round2_ge_Z _ 100). change (inject_Z 100) with 100. lra. }
    assert (Hvar : schedule_variance p <= -20).
    { subst p. cbn. apply (round2_le_Z _ (-20)).
      change (inject_Z (-20)) with (-20). lra. }
    assert (Hcpi : cpi p <= 73 # 100).
    { subst p. cbn.
      rewrite <- (round2_hundredths 73). apply round2_mono.
      assert (Ev : current_actual st' / 100 * 2200000 == current_actual st' * 22000)
        by field.
      apply Qle_shift_div_r; [lra |].
      rewrite Ev. unfold inject_Z.
      setoid_replace ((73 # 1) / 100) with (73 # 100) by reflexivity. lra. }
    repeat split; lra.
  - destruct (terminal_record g
                (mkWorkstream "WS_001" "Finance (FICO)" "Sarah J." 1500000 "High"))
      as (q & st' & Ht & Eq & Hreach).
    { cbn. tauto. }
    cbn [ws_id budget] in *.
    apply final_totals in Hreach; [| discriminate].
    destruct Hreach as (((Hp0 & Hp1) & (Ha0 & Ha1) & Hs0) & Hp & _ & Hal & _).
    change (f_lo (ranges_of "WS_001")) with (95 # 100) in Hal.
    assert (Hmin : 95 <= py_min 100 (100 * (95 # 100))).
    { apply py_min_glb; lra. }
    exists q. split; [exact Ht |].
    subst q. cbn. split.
    + apply (round2_ge_Z _ (-5)). change (inject_Z (-5)) with (-5). lra.
    + apply (round2_le_Z _ 0). change (inject_Z 0) with 0. lra.
Qed.

End PersonaSpec.

(** Replays on the deterministic source and clock. *)
Lemma snapshots_bounded_monotone_witness :
  RandomLaws nat /\ Forall in_bounds (fst (progress_records replay_dates 0%nat)).
Proof.
  split; [exact replay_laws |].
  exact (proj1 (snapshots_bounded_monotone (G := nat) replay_dates 0%nat)).
Defined.

Lemma persona_terminal_witness :
  RandomLaws nat /\
  exists q, terminal "WS_001" (fst (progress_records replay_dates 0%nat)) = Some q /\
            -5 <= schedule_variance q <= 0.
Proof.
  split; [exact replay_laws |].
  exact (proj2 (persona_terminal (G := nat) replay_dates 0%nat)).
Defined.

Lemma off_track_never_ahead_witness :
  let rs := fst (progress_records replay_dates 0%nat) in
  let p := nth 24 rs (mkProgress EmptyString EmptyString 0 0 0 0 0) in
  RandomLaws nat /\ In p rs /\ p_ws_id p <> "WS_001"%string /\
  actual_pct p <= planned_pct p /\ schedule_variance p <= 0.
Proof.
  intros rs p.
  assert (Hin : In p rs).
  { apply nth_In. apply Nat.ltb_lt. vm_compute. reflexivity. }
  assert (Hne : p_ws_id p <> "WS_001"%string).
  { vm_compute. discriminate. }
  split; [exact replay_laws |].
  split; [exact Hin |]. split; [exact Hne |].
  exact (off_track_never_ahead (G := nat) replay_dates 0%nat p Hin Hne).
Defined.

(* ===================================================================== *)
(** ** Text order, sorting and sums *)
(* ===================================================================== *)

Section TextOrder.

Lemma string_compare_refl (s : string) : String.compare s s = Eq.
Proof. now apply OrderedTypeEx.String_as_OT.cmp_eq. Qed.

Lemma string_leb_refl (s : string) : String.leb s s = true.
Proof. unfold String.leb. now rewrite string_compare_refl. Qed.

Lemma string_leb_cases (a b : string) :
  String.leb a b = true <-> a = b \/ OrderedTypeEx.String_as_OT.lt a b.
Proof.
  unfold String.leb.
  destruct (String.compare a b) eqn:E.
  - apply String.compare_eq_iff in E. intuition.
  - apply OrderedTypeEx.String_as_OT.cmp_lt in E. intuition.
  - split; [discriminate |].
    intros [-> | Hlt].
    + now rewrite string_compare_refl in E.
    + apply OrderedTypeEx.String_as_OT.cmp_lt in Hlt.
      unfold OrderedTypeEx.String_as_OT.cmp in Hlt. congruence.
Qed.

Lemma string_leb_trans (a b c : string) :
  String.leb a b = true -> String.leb b c = true -> String.leb a c = true.
Proof.
  rewrite !string_leb_cases.
  intros [-> | Hab] [-> | Hbc]; auto.
  right. eapply OrderedTypeEx.String_as_OT.lt_trans; eassumption.
Qed.

Lemma string_ltb_leb (a b : string) : String.ltb a b = true -> String.leb a b = true.
Proof.
  unfold String.ltb, String.leb. now destruct (String.compare a b).
Qed.

Lemma string_nltb_leb (a b : string) : String.ltb a b = false -> String.leb b a = true.
Proof.
  unfold String.ltb, String.leb. rewrite (String.compare_antisym a b).
  destruct (String.compare b a); cbn; congruence.
Qed.

End TextOrder.

Section Sorting.
Context {A : Type}.
Variable leb : A -> A -> bool.

Lemma insert_by_perm (a : A) (l : list A) : Permutation (insert_by leb a l) (a :: l).
Proof.
  induction l as [| b l IH]; cbn; [reflexivity |].
  destruct (leb a b); [reflexivity |].
  rewrite IH. apply perm_swap.
Qed.

Lemma order_by_perm (l : list A) : Permutation (order_by leb l) l.
Proof.
  induction l as [| a l IH]; cbn; [reflexivity |].
  rewrite insert_by_perm. now constructor.
Qed.

Hypothesis leb_total : forall a b, leb a b = true \/ leb b a = true.
Hypothesis leb_trans : forall a b c, leb a b = true -> leb b c = true -> leb a c = true.

Lemma insert_by_sorted (a : A) (l : list A) :
  StronglySorted (fun u v => leb u v = true) l ->
  StronglySorted (fun u v => leb u v = true) (insert_by leb a l).
Proof.
  induction 1 as [| b l Hs IH Hb]; cbn.
  - repeat constructor.
  - destruct (leb a b) eqn:E.
    + constructor; [now constructor |].
      constructor; [exact E |].
      revert Hb. apply Forall_impl. intros c Hc. eapply leb_trans; eassumption.
    + constructor; [exact IH |].
      assert (Hba : leb b a = true) by (destruct (leb_total a b); congruence).
      eapply Permutation_Forall; [symmetry; apply insert_by_perm |].
      constructor; assumption.
Qed.

Lemma order_by_sorted (l : list A) :
  StronglySorted (fun u v => leb u v = true) (order_by leb l).
Proof.
  induction l as [| a l IH]; cbn; [constructor | now apply insert_by_sorted].
Qed.

End Sorting.

Section Sums.

Lemma fold_left_Qplus (l : list Q) (a : Q) : fold_left Qplus l a == a + sum_of l.
Proof.
  revert a. induction l as [| q l IH]; intros a;
    unfold sum_of; cbn [fold_left fold_right].
  - ring.
  - fold (sum_of l). rewrite IH. ring.
Qed.

Lemma sum_of_perm (l l' : list Q) : Permutation l l' -> sum_of l == sum_of l'.
Proof.
  induction 1; unfold sum_of in *; cbn [fold_right]; lra.
Qed.

End Sums.

(* ===================================================================== *)
(** ** The latest week *)
(* ===================================================================== *)

Section LatestWeek.

Lemma max_fold_spec (ps : list Progress) (m : string) :
  exists wk, fold_left max_step ps (Some m) = Some wk /\
    String.leb m wk = true /\
    (wk = m \/ exists p, In p ps /\ week_ending p = wk) /\
    (forall p, In p ps -> String.leb (week_ending p) wk = true).
Proof.
  revert m. induction ps as [| q ps IH]; intros m.
  - exists m. cbn. repeat split; auto using string_leb_refl; intros p [].
  - cbn [fold_left]. unfold max_step at 2.
    destruct (String.ltb m (week_ending q)) eqn:E.
    + destruct (IH (week_ending q)) as (wk & Hf & Hle & Hatt & Hub).
      exists wk. split; [exact Hf |]. repeat split.
      * eapply string_leb_trans; [apply string_ltb_leb; exact E | exact Hle].
      * right. destruct Hatt as [-> | (p & Hp & Ep)].
        -- exists q. split; [now left | reflexivity].
        -- exists p. split; [now right | exact Ep].
      * intros p [<- | Hp]; [exact Hle | now apply Hub].
    + destruct (IH m) as (wk & Hf & Hle & Hatt & Hub).
      exists wk. split; [exact Hf |]. repeat split.
      * exact Hle.
      * destruct Hatt as [-> | (p & Hp & Ep)]; [now left |].
        right. exists p. split; [now right | exact Ep].
      * intros p [<- | Hp]; [| now apply Hub].
        eapply string_leb_trans; [apply string_nltb_leb; exact E | exact Hle].
Qed.

Lemma max_week_ending_nonempty (ps : list Progress) :
  ps <> [] -> exists wk, max_week_ending ps = Some wk /\ is_latest_week ps wk.
Proof.
  destruct ps as [| q ps]; [congruence | intros _].
  unfold max_week_ending. cbn [fold_left].
  destruct (max_fold_spec ps (week_ending q)) as (wk & Hf & Hle & Hatt & Hub).
  exists wk. split; [exact Hf |]. split.
  - destruct Hatt as [-> | (p & Hp & Ep)].
    + exists q. split; [now left | reflexivity].
    + exists p. split; [now right | exact Ep].
  - intros p [<- | Hp]; [exact Hle | now apply Hub].
Qed.

Lemma is_latest_week_unique (ps : list Progress) (a b : string) :
  is_latest_week ps a -> is_latest_week ps b -> a = b.
Proof.
  intros [(p & Hp & Ep) Ha] [(q & Hq & Eq) Hb].
  apply String.leb_antisym.
  - rewrite <- Ep. now apply Hb.
  - rewrite <- Eq. now apply Ha.
Qed.

Lemma max_week_ending_latest (ps : list Progress) (wk : string) :
  is_latest_week ps wk -> max_week_ending ps = Some wk.
Proof.
  intros Hl.
  assert (Hne : ps <> []).
  { destruct Hl as [(p & Hp & _) _]. destruct ps; [destruct Hp | discriminate]. }
  destruct (max_week_ending_nonempty ps Hne) as (wk' & E & Hl').
  rewrite E. f_equal. eapply is_latest_week_unique; eassumption.
Qed.

(** The rows a query keeps under [WHERE week_ending = (SELECT MAX ...)]. *)
Lemma at_latest_week_filter (db : DB) (wk : string) :
  max_week_ending (progress db) = Some wk ->
  filter (at_latest_week db) (progress db)
  = filter (fun p => (week_ending p =? wk)%string) (progress db).
Proof.
  intros E. apply filter_ext. intros p. unfold at_latest_week. now rewrite E.
Qed.

End LatestWeek.

(* ===================================================================== *)
(** ** Properties of the dashboard views *)
(* ===================================================================== *)

Section ViewsSpec.

(** C1. On the example fact set the status grid lists B, whose schedule
    variance is -30, before A, whose variance is 0, and the KPI summary
    reports a total spend of 2500. *)
Theorem status_grid_example :
  map sr_ws_id (status_query example_facts) = ["B"; "A"]%string /\
  map sr_schedule_variance (status_query example_facts) = [-30; 0] /\
  map sr_ws_id (projects (dashboard example_facts)) = ["B"; "A"]%string /\
  total_spend (kpi_query example_facts) = Some 2500 /\
  total_spend (kpis (dashboard example_facts)) = Some 2500.
Proof. vm_compute. repeat split. Qed.

(** C8. On the empty fact set every query returns and the page is made of a
    KPI row with NULL sums and a zero count, no status row, no chart label,
    no chart series and no bubble. *)
Theorem dashboard_empty :
  dashboard empty_db = mkPage (mkKPI None None 0) [] [] [] [].
Proof. reflexivity. Qed.

Lemma kpi_total_spend (db : DB) (wk : string) :
  is_latest_week (progress db) wk ->
  total_spend (kpi_query db)
  = Some (fold_left Qplus (map budget_spent (filter (at_week wk) (progress db))) 0).
Proof.
  intros Hl. pose proof (max_week_ending_latest _ _ Hl) as E.
  unfold kpi_query; cbn [total_spend].
  rewrite (at_latest_week_filter db wk E). fold (at_week wk).
  destruct Hl as [(p & Hp & Ep) _].
  assert (Hin : In p (filter (at_week wk) (progress db))).
  { apply filter_In. split; [exact Hp |]. unfold at_week. rewrite Ep.
    apply String.eqb_refl. }
  destruct (filter (at_week wk) (progress db)); [destruct Hin | reflexivity].
Qed.

(** C3. On a fact set with at least one snapshot, [total_spend] is the sum of
    [budget_spent] over exactly the snapshots of the greatest [week_ending];
    hence any other fact set with the same latest week and the same
    snapshots at that week has the same [total_spend], whatever its
    snapshots of other weeks are. *)
Theorem total_spend_latest_week (db : DB) :
  progress db <> [] ->
  exists wk,
    is_latest_week (progress db) wk /\
    opt_Qeq (total_spend (kpi_query db))
            (Some (sum_of (map budget_spent (filter (at_week wk) (progress db))))) /\
    forall db',
      is_latest_week (progress db') wk ->
      Permutation (filter (at_week wk) (progress db'))
                  (filter (at_week wk) (progress db)) ->
      opt_Qeq (total_spend (kpi_query db')) (total_spend (kpi_query db)).
Proof.
  intros Hne.
  destruct (max_week_ending_nonempty _ Hne) as (wk & _ & Hl).
  exists wk. split; [exact Hl |].
  rewrite (kpi_total_spend db wk Hl). cbn [opt_Qeq]. split.
  - rewrite fold_left_Qplus. lra.
  - intros db' Hl' Hperm.
    rewrite (kpi_total_spend db' wk Hl'). cbn [opt_Qeq].
    rewrite !fold_left_Qplus.
    apply (Permutation_map budget_spent) in Hperm.
    apply sum_of_perm in Hperm. lra.
Qed.

Lemma total_spend_latest_week_witness :
  progress example_facts <> [] /\
  exists wk,
    is_latest_week (progress example_facts) wk /\
    opt_Qeq (total_spend (kpi_query example_facts))
            (Some (sum_of (map budget_spent
                             (filter (at_week wk) (progress example_facts))))).
Proof.
  assert (Hne : progress example_facts <> []) by discriminate.
  split; [exact Hne |].
  destruct (total_spend_latest_week example_facts Hne) as (wk & Hl & Hs & _).
  exists wk. split; assumption.
Defined.

End ViewsSpec.

(* ===================================================================== *)
(** ** The status grid *)
(* ===================================================================== *)

Section ListFacts.
Context {A : Type}.

Lemma filter_perm (f : A -> bool) (l l' : list A) :
  Permutation l l' -> Permutation (filter f l) (filter f l').
Proof.
  induction 1 as [| a l l' _ IH | a b l | l l' l'' _ IH1 _ IH2]; cbn.
  - constructor.
  - destruct (f a); [now constructor | exact IH].
  - destruct (f a), (f b); try reflexivity. apply perm_swap.
  - now transitivity (filter f l').
Qed.

Lemma filter_key_unique {K : Type} (key : A -> K) (f : A -> bool) (l : list A) (k : K) :
  NoDup (map key l) ->
  (forall a, In a l -> f a = true -> key a = k) ->
  (List.length (filter f l) <= 1)%nat.
Proof.
  induction l as [| a l IH]; cbn [map filter]; intros Hnd Hk; [cbn; lia |].
  inversion Hnd as [| ? ? Hnotin Hnd']; subst.
  destruct (f a) eqn:Ea.
  - assert (E : filter f l = []).
    { apply filter_none. apply Forall_forall. intros b Hb.
      destruct (f b) eqn:Eb; [| reflexivity].
      exfalso. apply Hnotin.
      rewrite (Hk a (or_introl eq_refl) Ea), <- (Hk b (or_intror Hb) Eb).
      now apply in_map. }
    rewrite E. cbn. lia.
  - apply IH; [exact Hnd' |]. intros b Hb. apply Hk. now right.
Qed.

Lemma StronglySorted_weaken (R R' : A -> A -> Prop) (l : list A) :
  (forall a b, R a b -> R' a b) -> StronglySorted R l -> StronglySorted R' l.
Proof.
  intros HR. induction 1 as [| a l _ IH Hall]; constructor; [exact IH |].
  revert Hall. apply Forall_impl. intros b. apply HR.
Qed.

End ListFacts.

Lemma NoDup_map_filter {A K : Type} (key : A -> K) (f : A -> bool) (l : list A) :
  NoDup (map key l) -> NoDup (map key (filter f l)).
Proof.
  induction l as [| a l IH]; cbn; intros Hnd; [constructor |].
  inversion Hnd as [| ? ? Hnotin Hnd']; subst.
  destruct (f a); cbn; [constructor |]; auto.
  intros Hin. apply Hnotin.
  apply in_map_iff in Hin. destruct Hin as (b & E & Hb).
  apply filter_In in Hb. rewrite <- E. apply in_map. tauto.
Qed.

Lemma flat_map_of_map {A B C : Type} (f : B -> list C) (g : A -> B) (l : list A) :
  flat_map f (map g l) = flat_map (fun a => f (g a)) l.
Proof. induction l as [| a l IH]; cbn; [reflexivity | now rewrite IH]. Qed.

Lemma map_of_flat_map {A B C : Type} (f : B -> C) (g : A -> list B) (l : list A) :
  map f (flat_map g l) = flat_map (fun a => map f (g a)) l.
Proof.
  induction l as [| a l IH]; cbn; [reflexivity |].
  now rewrite map_app, IH.
Qed.

Lemma flat_map_skip {A B : Type} (f : A -> list B) (g : A -> bool) (l : list A) :
  (forall a, In a l -> g a = false -> f a = []) ->
  flat_map f (filter g l) = flat_map f l.
Proof.
  induction l as [| a l IH]; cbn; intros Hskip; [reflexivity |].
  destruct (g a) eqn:E; cbn.
  - rewrite IH; auto.
  - rewrite (Hskip a (or_introl eq_refl) E). cbn. apply IH. auto.
Qed.

Lemma flat_map_agree {A B : Type} (f g : A -> list B) (l : list A) :
  (forall a, In a l -> f a = g a) -> flat_map f l = flat_map g l.
Proof.
  induction l as [| a l IH]; cbn; intros Hfg; [reflexivity |].
  rewrite (Hfg a (or_introl eq_refl)), IH; auto.
Qed.

Section KeyedRows.
Context {B : Type}.
Variable key : B -> string.
Variable rows_of : Workstream -> list B.
Hypothesis rows_of_key : forall w b, In b (rows_of w) -> key b = ws_id w.

Lemma keyed_rows_other (k : string) (ws : list Workstream) :
  ~ In k (map ws_id ws) ->
  filter (fun b => (key b =? k)%string) (flat_map rows_of ws) = [].
Proof.
  intros Hk. apply filter_none. apply Forall_forall. intros b Hb.
  apply in_flat_map in Hb. destruct Hb as (w & Hw & Hb).
  rewrite (rows_of_key w b Hb).
  apply String.eqb_neq. intros E. apply Hk. rewrite <- E. now apply in_map.
Qed.

Lemma keyed_rows_mine (ws : list Workstream) (w : Workstream) :
  NoDup (map ws_id ws) -> In w ws ->
  filter (fun b => (key b =? ws_id w)%string) (flat_map rows_of ws) = rows_of w.
Proof.
  induction ws as [| w0 ws IH]; intros Hnd Hin; [destruct Hin |].
  cbn [map] in Hnd. inversion Hnd as [| ? ? Hnotin Hnd']; subst.
  cbn [flat_map]. rewrite filter_app.
  destruct Hin as [-> | Hin].
  - rewrite (keyed_rows_other _ _ Hnotin), app_nil_r.
    apply filter_all. apply Forall_forall. intros b Hb.
    rewrite (rows_of_key w b Hb). apply String.eqb_refl.
  - rewrite (IH Hnd' Hin).
    rewrite (filter_none _ (rows_of w0)); [reflexivity |].
    apply Forall_forall. intros b Hb. rewrite (rows_of_key w0 b Hb).
    apply String.eqb_neq. intros E. apply Hnotin. rewrite E. now apply in_map.
Qed.

End KeyedRows.

Section StatusGrid.
Variable db : DB.

Lemma at_latest_week_iff (p : Progress) :
  In p (progress db) ->
  at_latest_week db p = true <-> is_latest_week (progress db) (week_ending p).
Proof.
  intros Hin. split.
  - unfold at_latest_week.
    assert (Hne : progress db <> []) by (destruct (progress db); [destruct Hin | discriminate]).
    destruct (max_week_ending_nonempty _ Hne) as (wk & E & Hl).
    rewrite E. intros Heq. apply String.eqb_eq in Heq. now rewrite Heq.
  - intros Hl. unfold at_latest_week.
    rewrite (max_week_ending_latest _ _ Hl). apply String.eqb_refl.
Qed.

Lemma latest_of_iff (w : Workstream) (p : Progress) :
  In p (progress db) ->
  latest_of db w p = true <->
  p_ws_id p = ws_id w /\ is_latest_week (progress db) (week_ending p).
Proof.
  intros Hin. unfold latest_of.
  rewrite andb_true_iff, String.eqb_eq, (at_latest_week_iff p Hin).
  intuition congruence.
Qed.

(** Under the keys of the data model a workstream has one latest snapshot
    or none. *)
Lemma latest_snapshots (w : Workstream) :
  well_keyed db ->
  (reports_latest db w ->
     exists p, filter (latest_of db w) (progress db) = [p] /\
               In p (progress db) /\ p_ws_id p = ws_id w /\
               is_latest_week (progress db) (week_ending p)) /\
  (~ reports_latest db w -> filter (latest_of db w) (progress db) = []).
Proof.
  intros [_ Hkeys]. split.
  - intros (p & Hp & Ews & Hl).
    assert (Hin : In p (filter (latest_of db w) (progress db))).
    { apply filter_In. split; [exact Hp |]. now apply latest_of_iff. }
    assert (Hlen : (List.length (filter (latest_of db w) (progress db)) <= 1)%nat).
    { apply (filter_key_unique (fun q => (p_ws_id q, week_ending q)) _ _
               (ws_id w, week_ending p)); [exact Hkeys |].
      intros q Hq Hf. apply (latest_of_iff w q Hq) in Hf. destruct Hf as [E Hl'].
      f_equal; [exact E |]. eapply is_latest_week_unique; eassumption. }
    destruct (filter (latest_of db w) (progress db)) as [| q [| q' l]] eqn:E.
    + destruct Hin.
    + destruct Hin as [-> | []]. exists p. tauto.
    + cbn in Hlen. lia.
  - intros Hno.
    apply filter_none. apply Forall_forall. intros p Hp.
    destruct (latest_of db w p) eqn:E; [| reflexivity].
    exfalso. apply Hno. exists p.
    apply (latest_of_iff w p Hp) in E. tauto.
Qed.

Lemma status_join_eq : status_join db = flat_map (status_rows_of db) (workstreams db).
Proof. reflexivity. Qed.

Lemma status_rows_of_key (w : Workstream) (r : StatusRow) :
  In r (status_rows_of db w) -> sr_ws_id r = ws_id w.
Proof.
  unfold status_rows_of. intros Hr.
  apply in_map_iff in Hr. destruct Hr as (p & <- & _). reflexivity.
Qed.

Lemma variance_leb_total (a b : StatusRow) :
  variance_leb a b = true \/ variance_leb b a = true.
Proof.
  unfold variance_leb. rewrite !Qle_bool_iff.
  destruct (Qlt_le_dec (sr_schedule_variance b) (sr_schedule_variance a)); [right | left]; lra.
Qed.

Lemma variance_leb_trans (a b c : StatusRow) :
  variance_leb a b = true -> variance_leb b c = true -> variance_leb a c = true.
Proof. unfold variance_leb. rewrite !Qle_bool_iff. lra. Qed.

(** C2. For every fact set, each row of the status grid joins a workstream
    with one of its snapshots at the latest week, a workstream has a row
    exactly when it has a snapshot at the latest week, and a row never comes
    before a row of smaller [schedule_variance]. When [ws_id] identifies a
    workstream (it is the primary key of the table) a workstream has as many
    rows as it has snapshots at the latest week; so on a fact set with the
    keys of the data model, where that is at most one snapshot per workstream
    and week, the grid has exactly one row for each such workstream. *)
Theorem status_grid_rows_sorted :
  StronglySorted (fun a b => sr_schedule_variance a <= sr_schedule_variance b)
                 (status_query db) /\
  (forall r, In r (status_query db) ->
     exists w p, In w (workstreams db) /\ In p (progress db) /\
       p_ws_id p = ws_id w /\ is_latest_week (progress db) (week_ending p) /\
       r = status_row w p) /\
  (forall w, In w (workstreams db) ->
     let mine := filter (fun r => (sr_ws_id r =? ws_id w)%string) (status_query db) in
     (reports_latest db w -> mine <> []) /\
     (~ reports_latest db w -> mine = [])) /\
  (NoDup (map ws_id (workstreams db)) ->
   forall w, In w (workstreams db) ->
     List.length (filter (fun r => (sr_ws_id r =? ws_id w)%string) (status_query db))
     = List.length (filter (latest_of db w) (progress db))) /\
  (well_keyed db ->
   forall w, In w (workstreams db) -> reports_latest db w ->
     List.length (filter (fun r => (sr_ws_id r =? ws_id w)%string) (status_query db))
     = 1%nat).
Proof.
  assert (Hperm : Permutation (status_query db) (status_join db))
    by apply order_by_perm.
  assert (Hrows : forall r, In r (status_query db) ->
            exists w p, In w (workstreams db) /\ In p (progress db) /\
              p_ws_id p = ws_id w /\ is_latest_week (progress db) (week_ending p) /\
              r = status_row w p).
  { intros r Hr.
    apply (Permutation_in _ Hperm) in Hr. rewrite status_join_eq in Hr.
    apply in_flat_map in Hr. destruct Hr as (w & Hw & Hr).
    apply in_map_iff in Hr. destruct Hr as (p & <- & Hp).
    apply filter_In in Hp. destruct Hp as [Hp Hf].
    apply (latest_of_iff w p Hp) in Hf. destruct Hf as [E Hl].
    exists w, p. tauto. }
  assert (Hcount : NoDup (map ws_id (workstreams db)) ->
            forall w, In w (workstreams db) ->
              List.length (filter (fun r => (sr_ws_id r =? ws_id w)%string)
                                  (status_query db))
              = List.length (filter (latest_of db w) (progress db))).
  { intros Hws w Hw.
    assert (Hmine : Permutation
                      (filter (fun r => (sr_ws_id r =? ws_id w)%string) (status_query db))
                      (status_rows_of db w)).
    { rewrite <- (keyed_rows_mine sr_ws_id (status_rows_of db) status_rows_of_key
                    _ w Hws Hw), <- status_join_eq.
      apply filter_perm. exact Hperm. }
    rewrite (Permutation_length Hmine). unfold status_rows_of. apply length_map. }
  split; [| split; [exact Hrows | split; [| split; [exact Hcount |]]]].
  - apply (StronglySorted_weaken (fun a b => variance_leb a b = true)).
    + intros a b. unfold variance_leb. now rewrite Qle_bool_iff.
    + apply order_by_sorted; [apply variance_leb_total | apply variance_leb_trans].
  - intros w Hw mine. split.
    + intros (p & Hp & Ews & Hl) Hnil.
      assert (Hin : In (status_row w p) mine).
      { subst mine. apply filter_In. split.
        - apply (Permutation_in _ (Permutation_sym Hperm)).
          rewrite status_join_eq. apply in_flat_map. exists w. split; [exact Hw |].
          unfold status_rows_of. apply in_map. apply filter_In.
          split; [exact Hp |]. now apply latest_of_iff.
        - rewrite (status_rows_of_key w (status_row w p)); [apply String.eqb_refl |].
          unfold status_rows_of. apply in_map. apply filter_In.
          split; [exact Hp |]. now apply latest_of_iff. }
      rewrite Hnil in Hin. destruct Hin.
    + intros Hno. subst mine. apply filter_none. apply Forall_forall. intros r Hr.
      destruct (sr_ws_id r =? ws_id w)%string eqn:E; [| reflexivity].
      exfalso. apply Hno. apply String.eqb_eq in E.
      destruct (Hrows r Hr) as (w' & p & Hw' & Hp & Ep & Hl & ->).
      exists p. split; [exact Hp |]. split; [| exact Hl].
      rewrite Ep, <- E. symmetry. apply (status_rows_of_key w').
      unfold status_rows_of. apply in_map. apply filter_In.
      split; [exact Hp |]. now apply latest_of_iff.
  - intros Hk w Hw Hr. pose proof Hk as [Hws _].
    destruct (latest_snapshots w Hk) as [Hyes _].
    destruct (Hyes Hr) as (p & E & _).
    rewrite (Hcount Hws w Hw). now rewrite E.
Qed.

End StatusGrid.

Lemma example_facts_keyed : well_keyed example_facts.
Proof.
  split; cbn; repeat constructor; cbn; intuition discriminate.
Qed.

Lemma status_grid_rows_sorted_witness :
  well_keyed example_facts /\
  List.length (filter (fun r => (sr_ws_id r =? "B")%string) (status_query example_facts))
  = 1%nat.
Proof.
  split; [exact example_facts_keyed |].
  refine (proj2 (proj2 (proj2 (proj2 (status_grid_rows_sorted example_facts))))
            example_facts_keyed (mkWorkstream "B" "B" "owner B" 2000 "Medium") _ _).
  - cbn. tauto.
  - exists (mkProgress "2024-01-07" "B" 50 20 1500 (-30) (27 # 100)).
    split; [cbn; tauto |]. split; [reflexivity |]. split.
    + exists (mkProgress "2024-01-07" "B" 50 20 1500 (-30) (27 # 100)).
      split; [cbn; tauto | reflexivity].
    + intros q [<- | [<- | []]]; reflexivity.
Defined.

(** C2 as stated fails without the second key: nothing keeps a workstream
    from having two snapshots of one week, and A, with two snapshots of the
    latest week, has two rows in the grid. *)
Lemma status_grid_repeats_workstream :
  ~ (forall w, In w (workstreams twice_reported_facts) ->
       reports_latest twice_reported_facts w ->
       List.length (filter (fun r => (sr_ws_id r =? ws_id w)%string)
                           (status_query twice_reported_facts))
       = 1%nat).
Proof.
  intros H.
  specialize (H (mkWorkstream "A" "A" "owner A" 2000 "Medium")).
  assert (Hin : In (mkWorkstream "A" "A" "owner A" 2000 "Medium")
                   (workstreams twice_reported_facts)) by (cbn; tauto).
  assert (Hr : reports_latest twice_reported_facts
                 (mkWorkstream "A" "A" "owner A" 2000 "Medium")).
  { exists (mkProgress "2024-01-07" "A" 50 50 1000 0 1).
    split; [cbn; tauto |]. split; [reflexivity |]. split.
    - exists (mkProgress "2024-01-07" "A" 50 50 1000 0 1).
      split; [cbn; tauto | reflexivity].
    - intros q [<- | [<- | []]]; reflexivity. }
  specialize (H Hin Hr). vm_compute in H. discriminate.
Qed.

(* ===================================================================== *)
(** ** The risk bubbles *)
(* ===================================================================== *)

Section Bubbles.
Variable db : DB.
Hypothesis keyed : well_keyed db.

Lemma bubble_join_eq : bubble_join db = flat_map (join_rows_of db) (workstreams db).
Proof. reflexivity. Qed.

Lemma join_rows_of_key (w : Workstream) (row : JoinRow) :
  In row (join_rows_of db w) -> join_key row = ws_id w.
Proof.
  unfold join_rows_of. intros Hin.
  apply in_flat_map in Hin. destruct Hin as (oc & _ & Hin).
  apply in_map_iff in Hin. destruct Hin as (p & <- & _). reflexivity.
Qed.

Lemma left_join_cr_cases (w : Workstream) :
  (approved_of db w = [] /\ left_join_cr db w = [None]) \/
  (approved_of db w <> [] /\ left_join_cr db w = map Some (approved_of db w)).
Proof.
  unfold left_join_cr. fold (approved_of db w).
  destruct (approved_of db w); [left | right]; split; congruence.
Qed.

(** The group of [w] with its single latest snapshot [p]. *)
Lemma join_rows_of_one (w : Workstream) (p : Progress) :
  filter (latest_of db w) (progress db) = [p] ->
  join_rows_of db w = map (fun oc => (w, oc, p)) (left_join_cr db w).
Proof.
  intros E. unfold join_rows_of. rewrite E.
  induction (left_join_cr db w) as [| oc l IH]; cbn [flat_map map app];
    [reflexivity | f_equal; exact IH].
Qed.

Lemma join_rows_of_none (w : Workstream) :
  filter (latest_of db w) (progress db) = [] -> join_rows_of db w = [].
Proof.
  intros E. unfold join_rows_of. rewrite E.
  induction (left_join_cr db w) as [| oc l IH]; cbn; [reflexivity | exact IH].
Qed.

Lemma count_cr_group (w : Workstream) (p : Progress) :
  count_cr (map (fun oc => (w, oc, p)) (left_join_cr db w))
  = Z.of_nat (List.length (approved_of db w)).
Proof.
  unfold count_cr. f_equal.
  destruct (left_join_cr_cases w) as [[E1 E2] | [_ E2]]; rewrite E2.
  - now rewrite E1.
  - clear E2. induction (approved_of db w) as [| c l IH]; cbn; [reflexivity |].
    now rewrite IH.
Qed.

Lemma sum_cost_some (w : Workstream) (p : Progress) (l : list ChangeRequest) :
  sum_cost (map (fun oc => (w, oc, p)) (map Some l)) = sql_sum (map cost_impact l).
Proof.
  unfold sum_cost. f_equal.
  induction l as [| c l IH]; cbn; [reflexivity | now rewrite IH].
Qed.

Lemma sum_cost_group (w : Workstream) (p : Progress) :
  coalesce (sum_cost (map (fun oc => (w, oc, p)) (left_join_cr db w))) 0
  = fold_left Qplus (map cost_impact (approved_of db w)) 0.
Proof.
  destruct (left_join_cr_cases w) as [[E1 E2] | [_ E2]]; rewrite E2.
  - now rewrite E1.
  - rewrite sum_cost_some. unfold sql_sum.
    destruct (map cost_impact (approved_of db w)); reflexivity.
Qed.

Lemma bubble_group_of (w : Workstream) :
  In w (workstreams db) ->
  bubble_group (bubble_join db) (ws_id w)
  = map (bubble_row db w) (filter (latest_of db w) (progress db)).
Proof.
  intros Hw. destruct keyed as [Hws _].
  unfold bubble_group.
  rewrite bubble_join_eq, (keyed_rows_mine join_key (join_rows_of db) join_rows_of_key _ w Hws Hw).
  destruct (latest_snapshots db w keyed) as [Hyes Hno].
  destruct (filter (latest_of db w) (progress db)) as [| p l] eqn:E.
  - now rewrite (join_rows_of_none w E).
  - assert (Hr : reports_latest db w).
    { assert (Hin : In p (filter (latest_of db w) (progress db)))
        by (rewrite E; now left).
      apply filter_In in Hin. destruct Hin as [Hp Hf].
      apply (latest_of_iff db w p Hp) in Hf. exists p. tauto. }
    destruct (Hyes Hr) as (p' & E' & _).
    inversion E'; subst p' l.
    rewrite (join_rows_of_one w p E).
    pose proof (count_cr_group w p) as Hc.
    pose proof (sum_cost_group w p) as Hsum.
    destruct (left_join_cr_cases w) as [[_ E2] | [Hne E2]].
    + rewrite E2 in *. cbn [map] in *. unfold bubble_row.
      f_equal. f_equal; assumption.
    + rewrite E2 in *.
      destruct (approved_of db w) as [| c cs] eqn:Eap; [congruence |].
      cbn [map] in *. unfold bubble_row. rewrite Eap.
      f_equal. f_equal; assumption.
Qed.

End Bubbles.

Section BubbleView.
Variable db : DB.
Hypothesis keyed : well_keyed db.

Lemma join_rows_of_reporting (w : Workstream) :
  reporting db w = true <-> join_rows_of db w <> [].
Proof.
  unfold reporting.
  destruct (filter (latest_of db w) (progress db)) as [| p l] eqn:E.
  - rewrite (join_rows_of_none db w E). split; congruence.
  - split; [intros _ | reflexivity].
    unfold join_rows_of. rewrite E.
    destruct (left_join_cr_cases db w) as [[_ E2] | [Hne E2]]; rewrite E2.
    + discriminate.
    + destruct (approved_of db w); [congruence | discriminate].
Qed.

Lemma bubble_keys (k : string) :
  In k (map join_key (bubble_join db)) <->
  In k (map ws_id (filter (reporting db) (workstreams db))).
Proof.
  rewrite !in_map_iff. split.
  - intros (row & Ek & Hrow).
    rewrite bubble_join_eq in Hrow. apply in_flat_map in Hrow.
    destruct Hrow as (w & Hw & Hrow).
    exists w. split.
    + rewrite <- Ek. symmetry. now apply (join_rows_of_key db).
    + apply filter_In. split; [exact Hw |].
      apply join_rows_of_reporting. intros E. now rewrite E in Hrow.
  - intros (w & Ek & Hw). apply filter_In in Hw. destruct Hw as [Hw Hrep].
    apply join_rows_of_reporting in Hrep.
    destruct (join_rows_of db w) as [| row rows] eqn:E; [congruence |].
    exists row. split.
    + rewrite <- Ek. apply (join_rows_of_key db). rewrite E. now left.
    + rewrite bubble_join_eq. apply in_flat_map. exists w.
      split; [exact Hw | rewrite E; now left].
Qed.

Lemma bubble_group_keys :
  Permutation (sorted_set (map join_key (bubble_join db)))
              (map ws_id (filter (reporting db) (workstreams db))).
Proof.
  destruct keyed as [Hws _].
  apply NoDup_Permutation.
  - eapply Permutation_NoDup; [symmetry; apply order_by_perm | apply NoDup_nodup].
  - now apply NoDup_map_filter.
  - intros k. rewrite <- bubble_keys. unfold sorted_set. split; intros Hin.
    + apply (Permutation_in _ (order_by_perm _ _)) in Hin.
      now apply nodup_In in Hin.
    + apply (Permutation_in _ (Permutation_sym (order_by_perm _ _))).
      now apply nodup_In.
Qed.

Lemma bubble_query_perm :
  Permutation (bubble_query db)
              (flat_map (fun w => map (bubble_row db w)
                                      (filter (latest_of db w) (progress db)))
                        (workstreams db)).
Proof.
  unfold bubble_query. cbv zeta.
  rewrite bubble_group_keys, flat_map_of_map.
  rewrite <- (flat_map_skip _ (reporting db) (workstreams db)).
  - apply Permutation_refl'. apply flat_map_agree. intros w Hw.
    apply filter_In in Hw. apply bubble_group_of; tauto.
  - intros w _. unfold reporting.
    destruct (filter (latest_of db w) (progress db)); [reflexivity | discriminate].
Qed.

(** C4, as the code has it. On a fact set with the keys of the data model,
    the bubble list holds, in some order, exactly the bubbles of the
    workstreams: a workstream with a snapshot [p] at the latest week
    contributes one bubble, whose [x] counts its approved change requests
    only, whose [r] is the sum of their [cost_impact] divided by 10000 (so
    [x = 0] and [r = 0 / 10000] when it has none) and whose [y] is the
    [schedule_variance] of [p]; a workstream without a snapshot at the latest
    week contributes none. *)
Theorem bubbles_of_reporting_workstreams :
  Permutation (bubble_data (dashboard db))
              (flat_map (bubble_entries db) (workstreams db)) /\
  forall w, In w (workstreams db) ->
    (forall p, In p (progress db) -> p_ws_id p = ws_id w ->
               is_latest_week (progress db) (week_ending p) ->
       bubble_entries db w
       = [ mkBubble (name w)
                    (Z.of_nat (List.length (approved_of db w)))
                    (schedule_variance p)
                    (fold_left Qplus (map cost_impact (approved_of db w)) 0 / 10000) ] /\
       (approved_of db w = [] ->
        bubble_entries db w = [ mkBubble (name w) 0 (schedule_variance p) (0 / 10000) ])) /\
    (~ reports_latest db w -> bubble_entries db w = []).
Proof.
  split.
  - unfold dashboard; cbn [bubble_data].
    rewrite bubble_query_perm, map_of_flat_map.
    apply Permutation_refl'. apply flat_map_ext. intros w.
    unfold bubble_entries. rewrite map_map. apply map_ext. reflexivity.
  - intros w Hw.
    destruct (latest_snapshots db w keyed) as [Hyes Hno]. split.
    + intros p Hp Ews Hl.
      assert (Hr : reports_latest db w) by (exists p; tauto).
      destruct (Hyes Hr) as (p' & E & _ & _ & Hl').
      assert (Hin : In p (filter (latest_of db w) (progress db))).
      { apply filter_In. split; [exact Hp |]. now apply latest_of_iff. }
      rewrite E in Hin. destruct Hin as [-> | []].
      unfold bubble_entries. rewrite E. cbn [map]. split; [reflexivity |].
      intros Enone. unfold bubble_entry. now rewrite Enone.
    + intros Hr. unfold bubble_entries. now rewrite (Hno Hr).
Qed.

End BubbleView.

(** C4 as stated fails: B has no snapshot at the latest week (and no approved
    change request) and gets no bubble at all. *)
Lemma bubble_omits_lagging_workstream :
  ~ (forall w, In w (workstreams lagging_facts) ->
       exists b, In b (bubble_data (dashboard lagging_facts)) /\ label b = name w).
Proof.
  intros H.
  destruct (H (mkWorkstream "B" "B" "owner B" 2000 "Medium")) as (b & Hb & E).
  { cbn. tauto. }
  vm_compute in Hb. destruct Hb as [<- | []]. discriminate.
Qed.

Lemma lagging_facts_keyed : well_keyed lagging_facts.
Proof.
  split; cbn; repeat constructor; cbn; intuition discriminate.
Qed.

Lemma bubbles_of_reporting_workstreams_witness :
  well_keyed lagging_facts /\
  Permutation (bubble_data (dashboard lagging_facts))
              (flat_map (bubble_entries lagging_facts) (workstreams lagging_facts)).
Proof.
  split; [exact lagging_facts_keyed |].
  exact (proj1 (bubbles_of_reporting_workstreams lagging_facts lagging_facts_keyed)).
Defined.

(* ===================================================================== *)
(** ** Entering rows into the fact log *)
(* ===================================================================== *)

Section Inserts.

Lemma insert_progress_many (tbl rows : list Progress) :
  executemany insert_progress tbl rows = tbl ++ rows.
Proof.
  unfold executemany. revert tbl.
  induction rows as [| p rows IH]; intros tbl; cbn [fold_left].
  - now rewrite app_nil_r.
  - rewrite IH. unfold insert_progress. now rewrite <- app_assoc.
Qed.

Lemma insert_change_request_stored (tbl : list ChangeRequest) (c : ChangeRequest) :
  In c (insert_or_replace_change_request tbl c).
Proof. unfold insert_or_replace_change_request. apply in_or_app. right. now left. Qed.

Lemma insert_change_request_many (rows tbl : list ChangeRequest) (c : ChangeRequest) :
  In c (executemany insert_or_replace_change_request tbl rows) ->
  In c tbl \/ In c rows.
Proof.
  unfold executemany. revert tbl.
  induction rows as [| c0 rows IH]; intros tbl; cbn [fold_left]; [tauto |].
  intros Hin. apply IH in Hin. destruct Hin as [Hin | Hin]; [| right; now right].
  unfold insert_or_replace_change_request in Hin.
  apply in_app_or in Hin. destruct Hin as [Hin | [<- | []]].
  - apply filter_In in Hin. tauto.
  - right. now left.
Qed.

Lemma insert_change_request_kept (rows tbl : list ChangeRequest) (c : ChangeRequest) :
  In c tbl -> ~ In (cr_id c) (map cr_id rows) ->
  In c (executemany insert_or_replace_change_request tbl rows).
Proof.
  unfold executemany. revert tbl.
  induction rows as [| c0 rows IH]; intros tbl Hin Hnew; cbn [fold_left]; [exact Hin |].
  cbn [map In] in Hnew. apply IH; [| tauto].
  unfold insert_or_replace_change_request. apply in_or_app. left.
  apply filter_In. split; [exact Hin |].
  destruct (cr_id c =? cr_id c0)%string eqn:E; [| reflexivity].
  apply String.eqb_eq in E. exfalso. apply Hnew. left. now symmetry.
Qed.

Lemma insert_change_requests_stored (rows tbl : list ChangeRequest) (c : ChangeRequest) :
  NoDup (map cr_id rows) -> In c rows ->
  In c (executemany insert_or_replace_change_request tbl rows).
Proof.
  revert tbl.
  induction rows as [| c0 rows IH]; intros tbl Hnd Hin; [destruct Hin |].
  cbn [map] in Hnd. inversion Hnd as [| ? ? Hnotin Hnd']; subst.
  destruct Hin as [-> | Hin].
  - change (executemany insert_or_replace_change_request tbl (c :: rows))
      with (executemany insert_or_replace_change_request
              (insert_or_replace_change_request tbl c) rows).
    apply insert_change_request_kept; [apply insert_change_request_stored | exact Hnotin].
  - change (executemany insert_or_replace_change_request tbl (c0 :: rows))
      with (executemany insert_or_replace_change_request
              (insert_or_replace_change_request tbl c0) rows).
    now apply IH.
Qed.

End Inserts.

Section GeneratedChangeRequests.
Context {G : Type} {RG : Random G} {RL : RandomLaws G}.
Variable fmt : Z -> string.

Lemma change_request_generated (ws : string) (k : Z) (g : G) :
  generated_cr (fst (change_request fmt ws k g)).
Proof.
  unfold change_request. rewrite !bind_run. cbn [ret fst].
  unfold generated_cr; cbn [status cost_impact time_impact_days].
  split; [| split].
  - match goal with
    | |- In (fst (choice ?l ?d ?s)) _ =>
        pose proof (choice_in l d s ltac:(discriminate)) as Hc
    end.
    cbn [In] in *. intuition.
  - match goal with
    | |- _ <= inject_Z (fst (randint ?a ?b ?s)) <= _ =>
        pose proof (randint_range a b s ltac:(lia)) as [H1 H2]
    end.
    rewrite Zle_Qle in H1, H2. split; assumption.
  - apply randint_range. lia.
Qed.

Lemma crs_loop_generated (ws : string) (n : nat) :
  forall k g, Forall generated_cr (fst (fst (crs_loop fmt ws n k g))).
Proof.
  induction n as [| n IH]; intros k g; cbn [crs_loop].
  - constructor.
  - rewrite bind_run.
    rewrite bind_run.
    specialize (IH (k + 1)%Z (snd (change_request fmt ws k g))).
    destruct (crs_loop fmt ws n (k + 1) (snd (change_request fmt ws k g)))
      as [[cs k'] g'].
    cbn [ret fst snd] in *.
    constructor; [apply change_request_generated | exact IH].
Qed.

Lemma cr_loop_generated (wss : list Workstream) :
  forall k g, Forall generated_cr (fst (cr_loop fmt wss k g)).
Proof.
  induction wss as [| w wss IH]; intros k g; cbn [cr_loop].
  - constructor.
  - rewrite bind_run. rewrite bind_run.
    set (g1 := snd (num_crs (ws_id w) g)).
    set (n := Z.to_nat (fst (num_crs (ws_id w) g))).
    pose proof (crs_loop_generated (ws_id w) n k g1) as Hcs.
    destruct (crs_loop fmt (ws_id w) n k g1) as [[cs k'] g2].
    cbn [fst snd] in *. rewrite bind_run. cbn [ret fst].
    apply Forall_app. split; [exact Hcs | apply IH].
Qed.

Lemma generated_cr_valid (c : ChangeRequest) : generated_cr c -> valid_cr c.
Proof.
  intros (Hs & [Hlo _] & _). split; [cbn [In] in *; intuition | lra].
Qed.

(** C9, as the code has it. Nothing validates a row on its way into the fact
    log. Snapshots that the storage layer holds as given (a date of the form
    yyyy-mm-dd, numbers within 2^53) are appended unchanged whatever their
    percentages and spend, and so is every change request of a batch of
    distinct ids (a date of that form, a cost within 2^53, a day count within
    64 bits) whatever its status and cost. The invariants hold on what the
    generator writes into a fresh database: every snapshot has its
    percentages in [0, 100] and a non-negative spend, every change request a
    status among Pending, Approved and Rejected and a non-negative
    [cost_impact]. *)
Theorem rows_stored_unvalidated (g : G) :
  (forall tbl rows,
     Forall (fun p => storable_snapshot p = true) rows ->
     executemany insert_progress tbl rows = tbl ++ rows) /\
  (forall tbl rows,
     Forall (fun c => storable_change_request c = true) rows ->
     NoDup (map cr_id rows) ->
     forall c, In c rows ->
       In c (executemany insert_or_replace_change_request tbl rows)) /\
  let db := fst (main fmt g) in
  Forall in_bounds (progress db) /\
  Forall valid_cr (change_requests db).
Proof.
  split; [intros tbl rows _; apply insert_progress_many |].
  split; [intros tbl rows _ Hnd c Hc; now apply insert_change_requests_stored |].
  intros db. subst db. unfold main, generate_data.
  rewrite bind_run. rewrite bind_run. cbn [ret fst progress change_requests empty_db].
  split.
  - rewrite insert_progress_many. cbn [app].
    eapply histories_in_bounds;
      [apply progress_loop_histories | apply workstreams_data_budgets].
  - apply Forall_forall. intros c Hc.
    apply insert_change_request_many in Hc. destruct Hc as [[] | Hc].
    pose proof (cr_loop_generated workstreams_data 1000
                  (snd (progress_records fmt g))) as Hall.
    rewrite Forall_forall in Hall. specialize (Hall c Hc).
    apply generated_cr_valid. exact Hall.
Qed.

End GeneratedChangeRequests.

(** C9 as stated fails: rows that break every invariant are stored as they
    are. *)
Lemma invalid_rows_accepted :
  In bad_snapshot (executemany insert_progress [] [bad_snapshot]) /\
  ~ in_bounds bad_snapshot /\
  In bad_change_request
     (executemany insert_or_replace_change_request [] [bad_change_request]) /\
  ~ valid_cr bad_change_request.
Proof.
  split; [cbn; tauto |]. split.
  - unfold in_bounds, bad_snapshot; cbn. intros [[_ H] _]. revert H. apply Qlt_not_le.
    reflexivity.
  - split; [cbn; tauto |].
    unfold valid_cr, bad_change_request; cbn. intros [H _].
    intuition discriminate.
Qed.

Lemma rows_stored_unvalidated_witness :
  RandomLaws nat /\
  Forall (fun p => storable_snapshot p = true) [bad_snapshot] /\
  executemany insert_progress (progress example_facts) [bad_snapshot]
  = progress example_facts ++ [bad_snapshot] /\
  Forall (fun c => storable_change_request c = true) [bad_change_request] /\
  NoDup (map cr_id [bad_change_request]) /\
  In bad_change_request
     (executemany insert_or_replace_change_request (change_requests example_facts)
                  [bad_change_request]).
Proof.
  assert (Hs : Forall (fun p => storable_snapshot p = true) [bad_snapshot])
    by (constructor; [reflexivity | constructor]).
  assert (Hc : Forall (fun c => storable_change_request c = true) [bad_change_request])
    by (constructor; [reflexivity | constructor]).
  assert (Hnd : NoDup (map cr_id [bad_change_request]))
    by (constructor; [intros [] | constructor]).
  split; [exact replay_laws |]. split; [exact Hs |]. split.
  - exact (proj1 (rows_stored_unvalidated (G := nat) replay_dates 0%nat)
             (progress example_facts) [bad_snapshot] Hs).
  - split; [exact Hc |]. split; [exact Hnd |].
    exact (proj1 (proj2 (rows_stored_unvalidated (G := nat) replay_dates 0%nat))
             (change_requests example_facts) [bad_change_request] Hc Hnd
             bad_change_request (or_introl eq_refl)).
Defined.

(* ===================================================================== *)
(** ** The replayed database *)
(* ===================================================================== *)

Section ReplayedFacts.

Lemma nodup_fixed_NoDup {A : Type} (dec : forall a b : A, {a = b} + {a <> b})
      (l : list A) :
  nodup dec l = l -> NoDup l.
Proof. intros E. rewrite <- E. apply NoDup_nodup. Qed.

Lemma key_eq_dec (a b : string * string) : {a = b} + {a <> b}.
Proof. decide equality; apply string_dec. Defined.

(** The database the script builds on the replay source and clock has the
    keys of the data model. *)
Lemma replayed_facts_keyed : well_keyed (fst (main replay_dates 0%nat)).
Proof.
  split.
  - apply (nodup_fixed_NoDup string_dec). vm_compute. reflexivity.
  - apply (nodup_fixed_NoDup key_eq_dec). vm_compute. reflexivity.
Qed.

Lemma replayed_status_grid :
  map sr_ws_id (status_query (fst (main replay_dates 0%nat)))
  = ["WS_002"; "WS_004"; "WS_005"; "WS_003"; "WS_001"]%string.
Proof. vm_compute. reflexivity. Qed.

End ReplayedFacts.

(* ===================================================================== *)
(** ** Primary keys: INSERT OR REPLACE *)
(* ===================================================================== *)

Section Upsert.
Context {R : Type}.
Variable key : R -> string.

Lemma find_app (f : R -> bool) (l l' : list R) :
  find f (l ++ l') = match find f l with Some a => Some a | None => find f l' end.
Proof.
  induction l as [| a l IH]; cbn; [reflexivity |].
  destruct (f a); [reflexivity | exact IH].
Qed.

Lemma find_filter_other (k : string) (r : R) (tbl : list R) :
  key r <> k ->
  find (fun a => (key a =? k)%string) (filter (fun a => negb (key a =? key r)%string) tbl)
  = find (fun a => (key a =? k)%string) tbl.
Proof.
  intros Hne. induction tbl as [| a tbl IH]; cbn; [reflexivity |].
  destruct (String.eqb_spec (key a) (key r)) as [E | E]; cbn.
  - destruct (String.eqb_spec (key a) k) as [E' | E']; [congruence | exact IH].
  - destruct (key a =? k)%string; [reflexivity | exact IH].
Qed.

Lemma find_filter_same (r : R) (tbl : list R) :
  find (fun a => (key a =? key r)%string)
       (filter (fun a => negb (key a =? key r)%string) tbl) = None.
Proof.
  induction tbl as [| a tbl IH]; cbn; [reflexivity |].
  destruct (key a =? key r)%string eqn:E; cbn; [exact IH |].
  now rewrite E.
Qed.

Lemma find_by_upsert (k : string) (tbl : list R) (r : R) :
  find_by key k (upsert key tbl r)
  = if (key r =? k)%string then Some r else find_by key k tbl.
Proof.
  unfold find_by, upsert. rewrite find_app.
  destruct (String.eqb_spec (key r) k) as [E | E].
  - subst k. rewrite find_filter_same. cbn. now rewrite String.eqb_refl.
  - rewrite (find_filter_other k r tbl E).
    destruct (find _ tbl); [reflexivity |].
    cbn. destruct (String.eqb_spec (key r) k); [contradiction | reflexivity].
Qed.

Lemma upsert_keys (tbl : list R) (r : R) :
  NoDup (map key tbl) -> NoDup (map key (upsert key tbl r)).
Proof.
  intros Hnd. unfold upsert. rewrite map_app. cbn [map].
  apply Permutation_NoDup with (l := key r :: map key (filter (fun x => negb (key x =? key r)%string) tbl)).
  - apply Permutation_cons_append.
  - constructor.
    + intros Hin. apply in_map_iff in Hin. destruct Hin as (x & E & Hx).
      apply filter_In in Hx. destruct Hx as [_ Hx].
      rewrite E, String.eqb_refl in Hx. discriminate.
    + now apply NoDup_map_filter.
Qed.

Lemma executemany_upsert_keys (rows tbl : list R) :
  NoDup (map key tbl) -> NoDup (map key (executemany (upsert key) tbl rows)).
Proof.
  unfold executemany. revert tbl.
  induction rows as [| r rows IH]; intros tbl Hnd; cbn [fold_left]; [exact Hnd |].
  apply IH. now apply upsert_keys.
Qed.

Lemma find_by_executemany (k : string) (rows tbl : list R) :
  find_by key k (executemany (upsert key) tbl rows)
  = match find_by key k (rev rows) with
    | Some r => Some r
    | None => find_by key k tbl
    end.
Proof.
  unfold executemany. revert tbl.
  induction rows as [| r rows IH]; intros tbl; cbn [fold_left rev]; [reflexivity |].
  rewrite IH.
  assert (E : find_by key k (rev rows ++ [r])
              = match find_by key k (rev rows) with
                | Some a => Some a
                | None => if (key r =? k)%string then Some r else None
                end).
  { unfold find_by. rewrite find_app. reflexivity. }
  rewrite E, find_by_upsert.
  destruct (find_by key k (rev rows)); [reflexivity |].
  destruct (key r =? k)%string; reflexivity.
Qed.

Lemma filter_filter (f g : R -> bool) (l : list R) :
  filter f (filter g l) = filter (fun a => g a && f a) l.
Proof.
  induction l as [| a l IH]; cbn; [reflexivity |].
  destruct (g a); cbn; [destruct (f a) |]; now rewrite IH.
Qed.

(** Rows with pairwise distinct keys are all stored, after the rows of the
    table that none of them replaces. *)
Lemma executemany_upsert_distinct (rows tbl : list R) :
  NoDup (map key rows) ->
  executemany (upsert key) tbl rows = filter (untouched_by key rows) tbl ++ rows.
Proof.
  unfold executemany. revert tbl.
  induction rows as [| r rows IH]; intros tbl Hnd; cbn [fold_left].
  - rewrite app_nil_r. symmetry. apply filter_all.
    apply Forall_forall. reflexivity.
  - cbn [map] in Hnd. inversion Hnd as [| ? ? Hnotin Hnd']; subst.
    rewrite (IH _ Hnd'). unfold upsert. rewrite filter_app, filter_filter.
    rewrite <- app_assoc. f_equal.
    + apply filter_ext. intros a. unfold untouched_by. cbn [existsb].
      rewrite negb_orb. rewrite (String.eqb_sym (key r) (key a)). reflexivity.
    + cbn [filter].
      assert (E : untouched_by key rows r = true).
      { unfold untouched_by. apply negb_true_iff.
        destruct (existsb _ rows) eqn:Ex; [| reflexivity].
        apply existsb_exists in Ex. destruct Ex as (x & Hx & Ek).
        apply String.eqb_eq in Ek. exfalso. apply Hnotin. rewrite <- Ek.
        now apply in_map. }
      now rewrite E.
Qed.

End Upsert.

(* ===================================================================== *)
(** ** The generated change requests *)
(* ===================================================================== *)

Section DecimalText.

Lemma str_of_int_inj (a b : Z) : str_of_int a = str_of_int b -> a = b.
Proof.
  unfold str_of_int. intros E.
  apply DecimalZ.to_int_inj.
  assert (Hok : forall z, Z.to_int z <> Decimal.Pos Decimal.Nil /\
                          Z.to_int z <> Decimal.Neg Decimal.Nil).
  { intros [| p | p]; cbn; split; try discriminate;
      intros [= Hp]; now apply (DecimalPos.Unsigned.to_uint_nonnil p). }
  destruct (Hok a) as [Ha1 Ha2], (Hok b) as [Hb1 Hb2].
  pose proof (DecimalString.NilZero.isi _ Ha1 Ha2) as Ia.
  pose proof (DecimalString.NilZero.isi _ Hb1 Hb2) as Ib.
  rewrite E in Ia. congruence.
Qed.

Lemma cr_name_inj (k : Z) (i j : nat) : cr_name k i = cr_name k j -> i = j.
Proof.
  unfold cr_name. cbn [String.append]. intros [= E].
  apply str_of_int_inj in E. lia.
Qed.

Lemma NoDup_map_inj {A B : Type} (f : A -> B) (l : list A) :
  (forall a b, f a = f b -> a = b) -> NoDup l -> NoDup (map f l).
Proof.
  intros Hinj. induction 1 as [| a l Hnotin _ IH]; cbn; constructor; [| exact IH].
  intros Hin. apply in_map_iff in Hin. destruct Hin as (b & E & Hb).
  apply Hinj in E. now subst b.
Qed.

Lemma cr_names_shift (m : nat) :
  forall (k : Z) (n : nat),
    map (cr_name k) (seq n m) = map (cr_name (k + Z.of_nat n)) (seq 0 m).
Proof.
  induction m as [| m IH]; intros k n; [reflexivity |].
  cbn [seq map]. f_equal.
  - unfold cr_name. do 2 f_equal. lia.
  - rewrite (IH k (S n)), (IH (k + Z.of_nat n)%Z 1%nat).
    apply map_ext. intros i. unfold cr_name. do 2 f_equal. lia.
Qed.

End DecimalText.

Section ChangeRequestNumbers.
Context {G : Type} {RG : Random G}.
Variable fmt : Z -> string.

Lemma change_request_fields (ws : string) (k : Z) (g : G) :
  cr_id (fst (change_request fmt ws k g)) = cr_name k 0 /\
  cr_ws_id (fst (change_request fmt ws k g)) = ws.
Proof.
  unfold change_request. rewrite !bind_run. cbn [ret fst cr_id cr_ws_id].
  unfold cr_name. now rewrite Z.add_0_r.
Qed.

Lemma crs_loop_numbers (ws : string) (n : nat) :
  forall k g,
    snd (fst (crs_loop fmt ws n k g)) = (k + Z.of_nat n)%Z /\
    map cr_id (fst (fst (crs_loop fmt ws n k g))) = map (cr_name k) (seq 0 n) /\
    Forall (fun c => cr_ws_id c = ws) (fst (fst (crs_loop fmt ws n k g))).
Proof.
  induction n as [| n IH]; intros k g; cbn [crs_loop].
  - cbn. repeat split; [lia | constructor].
  - rewrite bind_run. rewrite bind_run.
    specialize (IH (k + 1)%Z (snd (change_request fmt ws k g))).
    destruct (crs_loop fmt ws n (k + 1) (snd (change_request fmt ws k g)))
      as [[cs k'] g'].
    cbn [ret fst snd] in *. destruct IH as (Hk & Hids & Hws).
    destruct (change_request_fields ws k g) as [Eid Ews].
    repeat split.
    + lia.
    + cbn [map seq]. rewrite Eid, Hids. f_equal.
      rewrite <- seq_shift, map_map. apply map_ext. intros i.
      unfold cr_name. do 2 f_equal. lia.
    + constructor; assumption.
Qed.

Lemma cr_loop_numbers (wss : list Workstream) :
  forall k g,
    map cr_id (fst (cr_loop fmt wss k g))
    = map (cr_name k) (seq 0 (List.length (fst (cr_loop fmt wss k g)))).
Proof.
  induction wss as [| w wss IH]; intros k g; cbn [cr_loop]; [reflexivity |].
  rewrite bind_run. rewrite bind_run.
  set (g1 := snd (num_crs (ws_id w) g)).
  set (n := Z.to_nat (fst (num_crs (ws_id w) g))).
  destruct (crs_loop_numbers (ws_id w) n k g1) as (Hk & Hids & _).
  pose proof (f_equal (@List.length _) Hids) as Hlen.
  rewrite !length_map, length_seq in Hlen.
  destruct (crs_loop fmt (ws_id w) n k g1) as [[cs k'] g2].
  cbn [fst snd] in *. rewrite bind_run. cbn [ret fst].
  rewrite map_app, length_app, seq_app, map_app, Hids, Hlen. f_equal.
  rewrite (IH k' g2). cbn [Nat.add].
  rewrite (cr_names_shift _ k n). now subst k'.
Qed.

Lemma cr_loop_distinct (wss : list Workstream) (k : Z) (g : G) :
  NoDup (map cr_id (fst (cr_loop fmt wss k g))).
Proof.
  rewrite cr_loop_numbers.
  apply NoDup_map_inj; [apply cr_name_inj | apply seq_NoDup].
Qed.

End ChangeRequestNumbers.

Section ChangeRequestBatches.
Context {G : Type} {RG : Random G} {RL : RandomLaws G}.
Variable fmt : Z -> string.

Lemma num_crs_bounds (ws : string) (g : G) :
  (fst (cr_count_bounds ws) <= fst (num_crs ws g) <= snd (cr_count_bounds ws))%Z.
Proof.
  unfold num_crs, cr_count_bounds.
  destruct (ws =? "WS_002")%string; [| destruct (ws =? "WS_001")%string];
    cbn [fst snd]; apply randint_range; lia.
Qed.

Lemma cr_loop_batches (wss : list Workstream) :
  forall k g, batches wss (fst (cr_loop fmt wss k g)).
Proof.
  induction wss as [| w wss IH]; intros k g; cbn [cr_loop]; [constructor |].
  rewrite bind_run. rewrite bind_run.
  pose proof (num_crs_bounds (ws_id w) g) as Hb.
  set (g1 := snd (num_crs (ws_id w) g)) in *.
  set (n := fst (num_crs (ws_id w) g)) in *.
  destruct (crs_loop_numbers fmt (ws_id w) (Z.to_nat n) k g1) as (_ & Hids & Hws).
  pose proof (f_equal (@List.length _) Hids) as Hlen.
  rewrite !length_map, length_seq in Hlen.
  destruct (crs_loop fmt (ws_id w) (Z.to_nat n) k g1) as [[cs k'] g2].
  cbn [fst snd] in *. rewrite bind_run. cbn [ret fst].
  constructor; [exact Hws | | apply IH].
  rewrite Hlen.
  assert (0 <= fst (cr_count_bounds (ws_id w)))%Z.
  { unfold cr_count_bounds.
    destruct (ws_id w =? "WS_002")%string; [| destruct (ws_id w =? "WS_001")%string];
      cbn; lia. }
  lia.
Qed.

End ChangeRequestBatches.

Section BatchFacts.

Lemma batches_owner (wss : list Workstream) (cs : list ChangeRequest) :
  batches wss cs -> Forall (fun c => In (cr_ws_id c) (map ws_id wss)) cs.
Proof.
  induction 1 as [| w wss cs cs' Hws _ _ IH]; [constructor |].
  apply Forall_app. split.
  - revert Hws. apply Forall_impl. intros c ->. now left.
  - revert IH. apply Forall_impl. intros c Hc. now right.
Qed.

Lemma batches_filter (wss : list Workstream) (cs : list ChangeRequest) :
  batches wss cs ->
  NoDup (map ws_id wss) ->
  forall w, In w wss ->
    (fst (cr_count_bounds (ws_id w))
     <= Z.of_nat (List.length (filter (fun c => (cr_ws_id c =? ws_id w)%string) cs))
     <= snd (cr_count_bounds (ws_id w)))%Z.
Proof.
  induction 1 as [| w0 wss cs cs' Hws Hb Hrest IH]; intros Hnd w Hin; [destruct Hin |].
  cbn [map] in Hnd. inversion Hnd as [| ? ? Hnotin Hnd']; subst.
  rewrite filter_app.
  pose proof (batches_owner _ _ Hrest) as Hown.
  destruct Hin as [-> | Hin].
  - rewrite (filter_all _ cs), (filter_none _ cs'), app_nil_r; [exact Hb | |].
    + revert Hown. apply Forall_impl. intros c Hc.
      apply String.eqb_neq. intros E. rewrite E in Hc. contradiction.
    + revert Hws. apply Forall_impl. intros c ->. apply String.eqb_refl.
  - rewrite (filter_none _ cs); [cbn [app]; now apply IH |].
    revert Hws. apply Forall_impl. intros c ->.
    apply String.eqb_neq. intros E. apply Hnotin. rewrite E. now apply in_map.
Qed.

Lemma batches_length (wss : list Workstream) (cs : list ChangeRequest) :
  batches wss cs ->
  (fold_right (fun w acc => fst (cr_count_bounds (ws_id w)) + acc) 0 wss
   <= Z.of_nat (List.length cs)
   <= fold_right (fun w acc => snd (cr_count_bounds (ws_id w)) + acc) 0 wss)%Z.
Proof.
  induction 1 as [| w wss cs cs' _ Hb _ IH]; cbn [fold_right List.length]; [lia |].
  rewrite length_app, Nat2Z.inj_add. lia.
Qed.

End BatchFacts.

(* ===================================================================== *)
(** ** Further properties of the generator's writes *)
(* ===================================================================== *)

Section WriteCounts.
Context {G : Type} {RG : Random G}.
Variable fmt : Z -> string.

Lemma weeks_loop_length (ws : string) (b : Q) (weeks : list Z) :
  forall st g, List.length (fst (weeks_loop fmt ws b weeks st g)) = List.length weeks.
Proof.
  induction weeks as [| i weeks IH]; intros st g; cbn [weeks_loop]; [reflexivity |].
  rewrite !bind_run. cbn [ret fst List.length]. now rewrite IH.
Qed.

Lemma progress_loop_length (wss : list Workstream) :
  forall g, List.length (fst (progress_loop fmt wss g)) = (24 * List.length wss)%nat.
Proof.
  induction wss as [| w wss IH]; intros g; cbn [progress_loop]; [reflexivity |].
  rewrite !bind_run. cbn [ret fst].
  rewrite length_app, weeks_loop_length, IH. cbn [List.length]. 
  change (List.length (range NUM_WEEKS)) with 24%nat. lia.
Qed.

End WriteCounts.

Section PrimaryKeys.

(** X1. Writing rows into [workstreams] with INSERT OR REPLACE keeps [ws_id]
    a key of the table, and a later look-up by [ws_id] returns the last row
    written under that key, or the row the table held when none was
    written. *)
Theorem workstreams_last_write_wins (tbl rows : list Workstream) (k : string) :
  NoDup (map ws_id tbl) ->
  let tbl' := executemany insert_or_replace_workstream tbl rows in
  NoDup (map ws_id tbl') /\
  find_by ws_id k tbl'
  = match find_by ws_id k (rev rows) with
    | Some w => Some w
    | None => find_by ws_id k tbl
    end.
Proof.
  intros Hnd tbl'. subst tbl'.
  change insert_or_replace_workstream with (upsert ws_id).
  split; [now apply executemany_upsert_keys | apply find_by_executemany].
Qed.

Lemma workstreams_last_write_wins_witness :
  NoDup (map ws_id workstreams_data) /\
  find_by ws_id "WS_003"
    (executemany insert_or_replace_workstream workstreams_data
       [ mkWorkstream "WS_003" "HR" "Amit P." 900000 "High";
         mkWorkstream "WS_003" "Human Capital" "Amit P." 950000 "High" ])
  = Some (mkWorkstream "WS_003" "Human Capital" "Amit P." 950000 "High").
Proof.
  split; [exact workstreams_data_keys |].
  exact (proj2 (workstreams_last_write_wins workstreams_data
                  [ mkWorkstream "WS_003" "HR" "Amit P." 900000 "High";
                    mkWorkstream "WS_003" "Human Capital" "Amit P." 950000 "High" ]
                  "WS_003" workstreams_data_keys)).
Defined.

End PrimaryKeys.

Section GeneratedTables.
Context {G : Type} {RG : Random G}.
Variable fmt : Z -> string.

(** X2. Run on any database, [generate_data] leaves in [workstreams] the rows
    whose key is none of the five generated ones, followed by the five
    generated rows; appends its 120 snapshots after the snapshots the table
    held, replacing none; and leaves in [change_requests] the rows whose
    [cr_id] is none of the generated ones, followed by every generated
    change request. *)
Theorem generate_data_tables (db : DB) (g : G) :
  let db' := fst (generate_data fmt db g) in
  let ps := fst (progress_records fmt g) in
  let cs := fst (cr_records fmt (snd (progress_records fmt g))) in
  workstreams db'
  = filter (untouched_by ws_id workstreams_data) (workstreams db) ++ workstreams_data /\
  progress db' = progress db ++ ps /\
  List.length ps = 120%nat /\
  change_requests db'
  = filter (untouched_by cr_id cs) (change_requests db) ++ cs.
Proof.
  intros db' ps cs. subst db'. unfold generate_data.
  rewrite bind_run. rewrite bind_run.
  cbn [ret fst workstreams progress change_requests].
  fold ps. fold cs.
  split; [| split; [| split]].
  - change insert_or_replace_workstream with (upsert ws_id).
    apply executemany_upsert_distinct. apply workstreams_data_keys.
  - apply insert_progress_many.
  - subst ps. unfold progress_records. now rewrite progress_loop_length.
  - change insert_or_replace_change_request with (upsert cr_id).
    apply executemany_upsert_distinct. subst cs. apply cr_loop_distinct.
Qed.

(** X3. The generated change requests are numbered without a gap from
    CR_1000 in the order they are made, so that no two of them share a
    [cr_id]. *)
Theorem change_requests_numbered (g : G) :
  let cs := fst (cr_records fmt g) in
  map cr_id cs = map (cr_name 1000) (seq 0 (List.length cs)) /\
  NoDup (map cr_id cs).
Proof.
  intros cs. subst cs. unfold cr_records.
  split; [apply cr_loop_numbers | apply cr_loop_distinct].
Qed.

End GeneratedTables.

Section ChangeRequestCounts.
Context {G : Type} {RG : Random G} {RL : RandomLaws G}.
Variable fmt : Z -> string.

(** X4. Whatever the random source draws, every generated change request
    belongs to one of the five workstreams, WS_002 gets between 15 and 25 of
    them, WS_001 at most 3, each other workstream between 3 and 8, so that
    WS_002 always has more than any other workstream, and there are between
    24 and 52 in all. *)
Theorem change_request_counts (g : G) :
  let cs := fst (cr_records fmt g) in
  let count ws := Z.of_nat (List.length (filter (fun c => (cr_ws_id c =? ws)%string) cs)) in
  Forall (fun c => In (cr_ws_id c) (map ws_id workstreams_data)) cs /\
  (15 <= count "WS_002"%string <= 25)%Z /\
  (0 <= count "WS_001"%string <= 3)%Z /\
  (forall w, In w workstreams_data ->
     ws_id w <> "WS_002"%string -> ws_id w <> "WS_001"%string ->
     (3 <= count (ws_id w) <= 8)%Z) /\
  (forall w, In w workstreams_data ->
     ws_id w <> "WS_002"%string -> (count (ws_id w) < count "WS_002"%string)%Z) /\
  (24 <= Z.of_nat (List.length cs) <= 52)%Z.
Proof.
  intros cs count.
  pose proof (cr_loop_batches fmt workstreams_data 1000 g) as Hb.
  fold (cr_records fmt g) in Hb. fold cs in Hb.
  pose proof (batches_filter _ _ Hb workstreams_data_keys) as Hf.
  assert (H2 : (15 <= count "WS_002"%string <= 25)%Z).
  { apply (Hf (mkWorkstream "WS_002" "Supply Chain (MM/SD)" "Mike R." 2200000 "High")).
    cbn. tauto. }
  assert (H1 : (0 <= count "WS_001"%string <= 3)%Z).
  { apply (Hf (mkWorkstream "WS_001" "Finance (FICO)" "Sarah J." 1500000 "High")).
    cbn. tauto. }
  assert (Hother : forall w, In w workstreams_data ->
            ws_id w <> "WS_002"%string -> ws_id w <> "WS_001"%string ->
            (3 <= count (ws_id w) <= 8)%Z).
  { intros w Hw Hn2 Hn1. specialize (Hf w Hw). unfold cr_count_bounds in Hf.
    destruct (String.eqb_spec (ws_id w) "WS_002"); [contradiction |].
    destruct (String.eqb_spec (ws_id w) "WS_001"); [contradiction |].
    exact Hf. }
  split; [now apply batches_owner |].
  split; [exact H2 |]. split; [exact H1 |]. split; [exact Hother |].
  split.
  - intros w Hw Hn2.
    destruct (String.eqb_spec (ws_id w) "WS_001") as [E | E].
    + rewrite E. lia.
    + specialize (Hother w Hw Hn2 E). lia.
  - exact (batches_length _ _ Hb).
Qed.

End ChangeRequestCounts.

Lemma change_request_counts_witness :
  RandomLaws nat /\
  (15 <= Z.of_nat (List.length
                     (filter (fun c => (cr_ws_id c =? "WS_002")%string)
                             (fst (cr_records replay_dates 0%nat)))) <= 25)%Z.
Proof.
  split; [exact replay_laws |].
  exact (proj1 (proj2 (change_request_counts (G := nat) replay_dates 0%nat))).
Defined.

(* ===================================================================== *)
(** ** Further properties of the generated snapshots *)
(* ===================================================================== *)

Section SnapshotFacts.
Variable fmt : Z -> string.

Lemma history_plan (ws : string) (b : Q) (st : Running)
      (weeks : list Z) (rs : list Progress) :
  history fmt ws b st weeks rs ->
  map planned_pct rs = plan_from (current_planned st) (List.length weeks).
Proof.
  induction 1 as [st | st i weeks f k rs _ _ IH]; [reflexivity |].
  cbn [map List.length plan_from]. f_equal. exact IH.
Qed.

Lemma linear_plan_eq : Forall2 Qeq (plan_from 0 24) linear_plan.
Proof. unfold linear_plan. cbn [plan_from]. repeat constructor. Qed.

Lemma advance_actual (b f k : Q) (st : Running) :
  0 <= f -> current_actual st <= 100 ->
  current_actual st <= current_actual (advance b f k st).
Proof.
  intros Hf Ha. unfold advance; cbn.
  assert (0 <= increment_plan * f).
  { apply Qmult_le_0_compat; [rewrite increment_plan_eq; lra | exact Hf]. }
  apply py_min_glb; lra.
Qed.

Lemma history_actual_floor (ws : string) (b : Q) (st : Running)
      (weeks : list Z) (rs : list Progress) :
  0 <= b ->
  history fmt ws b st weeks rs -> sane st ->
  Forall (fun p => round2 (current_actual st) <= actual_pct p) rs.
Proof.
  intros Hb. induction 1 as [st | st i weeks f k rs Hr Hh IH]; intros Hs.
  - constructor.
  - destruct (ranges_of_pos _ _ _ Hr) as [Hf Hk].
    assert (Hs' : sane (advance b f k st)) by (apply advance_sane; auto; lra).
    assert (Ha : current_actual st <= current_actual (advance b f k st)).
    { apply advance_actual; [lra |]. destruct Hs as (_ & Ha & _). lra. }
    apply round2_mono in Ha.
    constructor; [exact Ha |].
    specialize (IH Hs'). revert IH. apply Forall_impl. intros p Hp. lra.
Qed.

Lemma history_no_setback (ws : string) (b : Q) (st : Running)
      (weeks : list Z) (rs : list Progress) :
  0 <= b ->
  history fmt ws b st weeks rs -> sane st -> StronglySorted no_setback rs.
Proof.
  intros Hb. induction 1 as [st | st i weeks f k rs Hr Hh IH]; intros Hs.
  - constructor.
  - destruct (ranges_of_pos _ _ _ Hr) as [Hf Hk].
    assert (Hs' : sane (advance b f k st)) by (apply advance_sane; auto; lra).
    constructor; [apply IH; exact Hs' |].
    exact (history_actual_floor ws b _ _ _ Hb Hh Hs').
Qed.

Lemma record_metrics (wk ws : string) (b : Q) (st : Running) :
  0 <= b -> sane st -> metrics_consistent (record_of wk ws b st).
Proof.
  intros Hb ((Hp0 & Hp1) & (Ha0 & Ha1) & Hs).
  unfold metrics_consistent, record_of; cbn.
  pose proof (round2_near (current_actual st - current_planned st)) as [V1 V2].
  pose proof (round2_near (current_actual st)) as [A1 A2].
  pose proof (round2_near (current_planned st)) as [P1 P2].
  split; [| split; [split | split]].
  - apply round2_nonneg. apply Qle_shift_div_l; [lra |].
    assert (0 <= current_actual st / 100).
    { apply Qle_shift_div_l; lra. }
    assert (0 <= current_actual st / 100 * b) by (apply Qmult_le_0_compat; lra).
    lra.
  - apply (round2_ge_Z _ (-100)). change (inject_Z (-100)) with (-100). lra.
  - apply (round2_le_Z _ 100). change (inject_Z 100) with 100. lra.
  - lra.
  - lra.
Qed.

Lemma history_metrics (ws : string) (b : Q) (st : Running)
      (weeks : list Z) (rs : list Progress) :
  0 <= b ->
  history fmt ws b st weeks rs -> sane st -> Forall metrics_consistent rs.
Proof.
  intros Hb. induction 1 as [st | st i weeks f k rs Hr Hh IH]; intros Hs.
  - constructor.
  - destruct (ranges_of_pos _ _ _ Hr) as [Hf Hk].
    assert (Hs' : sane (advance b f k st)) by (apply advance_sane; auto; lra).
    constructor; [now apply record_metrics | now apply IH].
Qed.

Lemma histories_metrics (wss : list Workstream) (rs : list Progress) :
  histories fmt wss rs ->
  Forall (fun w => 0 <= budget w) wss ->
  Forall metrics_consistent rs.
Proof.
  induction 1 as [| w wss rs rs' Hh Hhs IH]; intros Hb.
  - constructor.
  - inversion Hb; subst. apply Forall_app. split.
    + eapply history_metrics; eauto using start_sane.
    + apply IH. assumption.
Qed.

End SnapshotFacts.

Section SnapshotSpec.
Context {G : Type} {RG : Random G} {RL : RandomLaws G}.
Variable fmt : Z -> string.

(** X5. The plan does not depend on the draws nor on the workstream: the
    [planned_pct] values of every workstream are, week after week, 4.17,
    8.33, 12.5, ..., 95.83 and 100. *)
Theorem planned_series_is_linear (g : G) (w : Workstream) :
  In w workstreams_data ->
  Forall2 Qeq
    (map planned_pct
         (filter (fun p => (p_ws_id p =? ws_id w)%string) (fst (progress_records fmt g))))
    linear_plan.
Proof.
  intros Hw.
  pose proof (progress_loop_histories fmt workstreams_data g) as Hh.
  fold (progress_records fmt) in Hh.
  pose proof (histories_filter fmt _ _ Hh workstreams_data_keys w Hw) as Hf.
  rewrite (history_plan fmt _ _ _ _ _ Hf).
  exact linear_plan_eq.
Qed.

(** X6. Whatever the random source draws, the [actual_pct] of a workstream
    never decreases from one of its snapshots to a later one. *)
Theorem actual_never_decreases (g : G) (w : Workstream) :
  In w workstreams_data ->
  StronglySorted no_setback
    (filter (fun p => (p_ws_id p =? ws_id w)%string) (fst (progress_records fmt g))).
Proof.
  intros Hw.
  pose proof (progress_loop_histories fmt workstreams_data g) as Hh.
  fold (progress_records fmt) in Hh.
  pose proof (histories_filter fmt _ _ Hh workstreams_data_keys w Hw) as Hf.
  assert (Hb : 0 <= budget w).
  { pose proof workstreams_data_budgets as Hall.
    rewrite Forall_forall in Hall. now apply Hall. }
  eapply history_no_setback; [exact Hb | exact Hf | apply start_sane].
Qed.

(** X7. Whatever the random source draws, every generated snapshot has a
    non-negative [cpi], a [schedule_variance] between -100 and 100, and a
    [schedule_variance] within 0.015 of the difference of its stored
    [actual_pct] and [planned_pct] (the three values are rounded
    separately). *)
Theorem snapshot_metrics_consistent (g : G) :
  Forall metrics_consistent (fst (progress_records fmt g)).
Proof.
  eapply histories_metrics;
    [apply progress_loop_histories | apply workstreams_data_budgets].
Qed.

End SnapshotSpec.

Lemma planned_series_is_linear_witness :
  RandomLaws nat /\
  In (mkWorkstream "WS_002" "Supply Chain (MM/SD)" "Mike R." 2200000 "High")
     workstreams_data /\
  Forall2 Qeq
    (map planned_pct
         (filter (fun p => (p_ws_id p =? "WS_002")%string)
                 (fst (progress_records replay_dates 0%nat))))
    linear_plan.
Proof.
  assert (Hw : In (mkWorkstream "WS_002" "Supply Chain (MM/SD)" "Mike R." 2200000 "High")
                  workstreams_data) by (cbn; tauto).
  split; [exact replay_laws |]. split; [exact Hw |].
  exact (planned_series_is_linear (G := nat) replay_dates 0%nat _ Hw).
Defined.

Lemma actual_never_decreases_witness :
  RandomLaws nat /\
  In (mkWorkstream "WS_002" "Supply Chain (MM/SD)" "Mike R." 2200000 "High")
     workstreams_data /\
  StronglySorted no_setback
    (filter (fun p => (p_ws_id p =? "WS_002")%string)
            (fst (progress_records replay_dates 0%nat))).
Proof.
  assert (Hw : In (mkWorkstream "WS_002" "Supply Chain (MM/SD)" "Mike R." 2200000 "High")
                  workstreams_data) by (cbn; tauto).
  split; [exact replay_laws |]. split; [exact Hw |].
  exact (actual_never_decreases (G := nat) replay_dates 0%nat _ Hw).
Defined.

Lemma snapshot_metrics_consistent_witness :
  RandomLaws nat /\
  Forall metrics_consistent (fst (progress_records replay_dates 0%nat)).
Proof.
  split; [exact replay_laws |].
  exact (snapshot_metrics_consistent (G := nat) replay_dates 0%nat).
Defined.

(* ===================================================================== *)
(** ** The chart payload *)
(* ===================================================================== *)

Section ChartLabels.

Lemma string_leb_total (a b : string) : String.leb a b = true \/ String.leb b a = true.
Proof. apply String.leb_total. Qed.

Lemma string_leb_ne_ltb (a b : string) :
  String.leb a b = true -> a <> b -> String.ltb a b = true.
Proof.
  unfold String.leb, String.ltb. intros Hle Hne.
  destruct (String.compare a b) eqn:E; try reflexivity; try discriminate.
  apply OrderedTypeEx.String_as_OT.cmp_eq in E. contradiction.
Qed.

Lemma sorted_nodup_strict (l : list string) :
  StronglySorted (fun a b => String.leb a b = true) l -> NoDup l ->
  StronglySorted (fun a b => String.ltb a b = true) l.
Proof.
  induction 1 as [| a l Hs IH Hall]; intros Hnd; constructor;
    inversion Hnd as [| ? ? Hnotin Hnd']; subst.
  - now apply IH.
  - rewrite Forall_forall in *. intros b Hb.
    apply string_leb_ne_ltb; [now apply Hall |].
    intros ->. contradiction.
Qed.

Lemma sorted_set_strict (l : list string) :
  StronglySorted (fun a b => String.ltb a b = true) (sorted_set l).
Proof.
  unfold sorted_set. apply sorted_nodup_strict.
  - apply order_by_sorted; [apply string_leb_total | apply string_leb_trans].
  - eapply Permutation_NoDup; [symmetry; apply order_by_perm | apply NoDup_nodup].
Qed.

Lemma sorted_set_In (l : list string) (a : string) : In a (sorted_set l) <-> In a l.
Proof.
  unfold sorted_set. rewrite <- (nodup_In string_dec l a). split; intros Hin.
  - exact (Permutation_in _ (order_by_perm _ _) Hin).
  - exact (Permutation_in _ (Permutation_sym (order_by_perm _ _)) Hin).
Qed.

(** X8. The chart labels are the [week_ending] values of the snapshots, each
    once, in strictly ascending order. *)
Theorem chart_labels_ascending (db : DB) :
  StronglySorted (fun a b => String.ltb a b = true) (chart_labels (dashboard db)) /\
  forall wk, In wk (chart_labels (dashboard db)) <->
             exists p, In p (progress db) /\ week_ending p = wk.
Proof.
  unfold dashboard; cbn [chart_labels]. split; [apply sorted_set_strict |].
  intros wk. rewrite sorted_set_In, in_map_iff. split.
  - intros (row & E & Hrow).
    apply (Permutation_in _ (order_by_perm _ _)) in Hrow.
    apply in_map_iff in Hrow. destruct Hrow as (p & <- & Hp).
    exists p. split; [exact Hp | exact E].
  - intros (p & Hp & E).
    exists (history_row p). split; [exact E |].
    apply (Permutation_in _ (Permutation_sym (order_by_perm _ _))).
    exact (in_map history_row _ _ Hp).
Qed.

End ChartLabels.

Section ChartDatasets.

Lemma chart_append_lookup (d : list (string * Series)) (row : HistoryRow) (k : string) :
  find_by fst k (chart_append d row)
  = if (h_ws_id row =? k)%string
    then Some (k, match find_by fst k d with
                  | Some e => mkSeries (actual (snd e) ++ [h_actual_pct row])
                                       (planned (snd e) ++ [h_planned_pct row])
                  | None => mkSeries [h_actual_pct row] [h_planned_pct row]
                  end)
    else find_by fst k d.
Proof.
  unfold find_by. induction d as [| [k' s] d IH]; cbn [chart_append find fst].
  - destruct (String.eqb_spec (h_ws_id row) k) as [-> | _]; reflexivity.
  - destruct (String.eqb_spec k' (h_ws_id row)) as [E | E]; cbn [find fst snd].
    + subst k'. destruct (String.eqb_spec (h_ws_id row) k) as [-> | _]; reflexivity.
    + destruct (String.eqb_spec k' k) as [-> | E'].
      * destruct (String.eqb_spec (h_ws_id row) k); [congruence | reflexivity].
      * exact IH.
Qed.

Lemma chart_append_keys (d : list (string * Series)) (row : HistoryRow) :
  NoDup (map fst d) -> NoDup (map fst (chart_append d row)).
Proof.
  induction d as [| [k s] d IH]; cbn [chart_append map fst]; intros Hnd.
  - repeat constructor. intros [].
  - inversion Hnd as [| ? ? Hnotin Hnd']; subst.
    destruct (String.eqb_spec k (h_ws_id row)) as [E | E]; cbn [map fst].
    + constructor; assumption.
    + constructor; [| now apply IH].
      intros Hin. apply Hnotin. clear IH Hnd Hnd' Hnotin.
      induction d as [| [k1 s1] d IHd]; cbn [chart_append map fst In] in *.
      * destruct Hin as [Hin | []]. congruence.
      * destruct (k1 =? h_ws_id row)%string; cbn [map fst In] in Hin; tauto.
Qed.

Lemma existsb_false_filter {A : Type} (f : A -> bool) (l : list A) :
  existsb f l = false -> filter f l = [].
Proof.
  induction l as [| a l IH]; cbn; [reflexivity |].
  destruct (f a); cbn; [discriminate | exact IH].
Qed.

Lemma charts_step (pre : list HistoryRow) (d : list (string * Series)) (row : HistoryRow) :
  charts pre d -> charts (pre ++ [row]) (chart_append d row).
Proof.
  intros [Hnd Hlook]. split; [now apply chart_append_keys |].
  intros ws. rewrite chart_append_lookup, Hlook.
  rewrite existsb_app. cbn [existsb]. rewrite orb_false_r.
  unfold series_of. rewrite filter_app. cbn [filter].
  destruct (h_ws_id row =? ws)%string.
  - rewrite orb_true_r, !map_app. cbn [map].
    destruct (existsb (fun r0 => (h_ws_id r0 =? ws)%string) pre) eqn:Ex.
    + reflexivity.
    + now rewrite (existsb_false_filter _ _ Ex).
  - now rewrite orb_false_r, app_nil_r.
Qed.

Lemma charts_fold (rows : list HistoryRow) :
  forall pre d, charts pre d -> charts (pre ++ rows) (fold_left chart_append rows d).
Proof.
  induction rows as [| row rows IH]; intros pre d Hc; cbn [fold_left].
  - now rewrite app_nil_r.
  - replace (pre ++ row :: rows) with ((pre ++ [row]) ++ rows)
      by (now rewrite <- app_assoc).
    apply IH. now apply charts_step.
Qed.

Lemma charts_built (rows : list HistoryRow) :
  charts rows (fold_left chart_append rows []).
Proof.
  apply (charts_fold rows [] []). split; [constructor | reflexivity].
Qed.

Lemma insert_by_map {A B : Type} (f : A -> B) (leb : B -> B -> bool) (a : A) (l : list A) :
  insert_by leb (f a) (map f l) = map f (insert_by (fun u v => leb (f u) (f v)) a l).
Proof.
  induction l as [| b l IH]; cbn; [reflexivity |].
  destruct (leb (f a) (f b)); cbn; [reflexivity | now rewrite IH].
Qed.

Lemma order_by_map {A B : Type} (f : A -> B) (leb : B -> B -> bool) (l : list A) :
  order_by leb (map f l) = map f (order_by (fun u v => leb (f u) (f v)) l).
Proof.
  induction l as [| a l IH]; cbn; [reflexivity |].
  now rewrite IH, insert_by_map.
Qed.

Lemma filter_of_map {A B : Type} (f : A -> B) (g : B -> bool) (l : list A) :
  filter g (map f l) = map f (filter (fun a => g (f a)) l).
Proof.
  induction l as [| a l IH]; cbn; [reflexivity |].
  destruct (g (f a)); cbn; now rewrite IH.
Qed.

Lemma StronglySorted_filter {A : Type} (R : A -> A -> Prop) (f : A -> bool) (l : list A) :
  StronglySorted R l -> StronglySorted R (filter f l).
Proof.
  induction 1 as [| a l _ IH Hall]; cbn; [constructor |].
  destruct (f a); [| exact IH].
  constructor; [exact IH |].
  rewrite Forall_forall in *. intros b Hb. apply filter_In in Hb. now apply Hall.
Qed.

Lemma history_query_by_week (db : DB) :
  history_query db = map history_row (by_week db).
Proof. unfold history_query, by_week. apply (order_by_map history_row). Qed.

Lemma find_by_key {A : Type} (k : string) (d : list (string * A)) (e : string * A) :
  find_by fst k d = Some e -> fst e = k /\ In e d.
Proof.
  unfold find_by. intros Hf. apply find_some in Hf. destruct Hf as [Hin E].
  apply String.eqb_eq in E. tauto.
Qed.

Lemma find_by_missing {A : Type} (k : string) (d : list (string * A)) :
  find_by fst k d = None -> ~ In k (map fst d).
Proof.
  unfold find_by. intros Hf Hin. apply in_map_iff in Hin.
  destruct Hin as (e & E & He).
  pose proof (find_none _ _ Hf e He) as Hn. cbn in Hn.
  rewrite E, String.eqb_refl in Hn. discriminate.
Qed.

(** X9. The chart dict has one entry per workstream id that occurs in
    [progress], whether or not [workstreams] knows that id, and no entry for
    any other id. *)
Theorem chart_datasets_keys (db : DB) :
  NoDup (map fst (chart_datasets (dashboard db))) /\
  forall ws, In ws (map fst (chart_datasets (dashboard db))) <->
             exists p, In p (progress db) /\ p_ws_id p = ws.
Proof.
  unfold dashboard; cbn [chart_datasets].
  destruct (charts_built (history_query db)) as [Hnd Hlook].
  split; [exact Hnd |]. intros ws. specialize (Hlook ws).
  destruct (existsb _ (history_query db)) eqn:Ex.
  - split.
    + intros _. apply existsb_exists in Ex. destruct Ex as (row & Hrow & E).
      apply String.eqb_eq in E.
      rewrite history_query_by_week in Hrow. apply in_map_iff in Hrow.
      destruct Hrow as (p & <- & Hp).
      apply (Permutation_in _ (order_by_perm _ _)) in Hp.
      exists p. split; [exact Hp | exact E].
    + intros _. apply find_by_key in Hlook. destruct Hlook as [E Hin].
      apply in_map_iff. now exists (ws, series_of ws (history_query db)).
  - split.
    + intros Hin. now apply find_by_missing in Hlook.
    + intros (p & Hp & E). exfalso.
      assert (Hex : existsb (fun row => (h_ws_id row =? ws)%string) (history_query db) = true).
      { apply existsb_exists. exists (history_row p). split.
        - rewrite history_query_by_week. apply in_map.
          exact (Permutation_in _ (Permutation_sym (order_by_perm _ _)) Hp).
        - cbn. rewrite E. apply String.eqb_refl. }
      congruence.
Qed.

(** X10. The series of a workstream lists the [actual_pct] and the
    [planned_pct] of all its snapshots, side by side, by ascending
    [week_ending]; an id without a snapshot has no series. *)
Theorem chart_series_by_week (db : DB) (ws : string) :
  Permutation (snapshots_of db ws)
              (filter (fun p => (p_ws_id p =? ws)%string) (progress db)) /\
  StronglySorted (fun a b => String.leb (week_ending a) (week_ending b) = true)
                 (snapshots_of db ws) /\
  find_by fst ws (chart_datasets (dashboard db))
  = match snapshots_of db ws with
    | [] => None
    | snaps => Some (ws, mkSeries (map actual_pct snaps) (map planned_pct snaps))
    end.
Proof.
  split; [| split].
  - unfold snapshots_of, by_week. apply filter_perm. apply order_by_perm.
  - unfold snapshots_of, by_week. apply StronglySorted_filter.
    apply (order_by_sorted (fun a b => String.leb (week_ending a) (week_ending b))).
    + intros a b. apply string_leb_total.
    + intros a b c. apply string_leb_trans.
  - unfold dashboard; cbn [chart_datasets].
    destruct (charts_built (history_query db)) as [_ Hlook].
    rewrite (Hlook ws). rewrite history_query_by_week.
    unfold series_of. rewrite filter_of_map, !map_map. cbn [history_row h_ws_id h_actual_pct h_planned_pct].
    fold (snapshots_of db ws).
    assert (Ex : existsb (fun row => (h_ws_id row =? ws)%string) (map history_row (by_week db))
                 = match snapshots_of db ws with [] => false | _ => true end).
    { unfold snapshots_of. induction (by_week db) as [| p l IH]; cbn; [reflexivity |].
      destruct (p_ws_id p =? ws)%string; cbn; [reflexivity | exact IH]. }
    rewrite Ex. destruct (snapshots_of db ws); reflexivity.
Qed.

End ChartDatasets.

(* ===================================================================== *)
(** ** The KPI row and the views side by side *)
(* ===================================================================== *)

Section KpiFacts.

Lemma sum_of_bounds (l : list Q) (lo hi : Q) :
  Forall (fun q => lo <= q <= hi) l ->
  inject_Z (Z.of_nat (List.length l)) * lo <= sum_of l
  <= inject_Z (Z.of_nat (List.length l)) * hi.
Proof.
  induction 1 as [| q l [Hlo Hhi] _ [IH1 IH2]].
  - cbn. change (inject_Z 0) with 0. lra.
  - cbn [List.length]. rewrite Nat2Z.inj_succ. unfold Z.succ.
    rewrite inject_Z_plus. change (inject_Z 1) with 1.
    unfold sum_of in *. cbn [fold_right]. split; lra.
Qed.

(** X11. The two sums of the KPI row are NULL exactly when there is no
    snapshot. Otherwise [avg_cpi] times the number of snapshots of the latest
    week is the sum of their [cpi], so that [avg_cpi] lies between any two
    bounds that all those [cpi] respect. *)
Theorem kpi_aggregates (db : DB) :
  (total_spend (kpi_query db) = None <-> progress db = []) /\
  (avg_cpi (kpi_query db) = None <-> progress db = []) /\
  forall a, avg_cpi (kpi_query db) = Some a ->
    exists wk,
      is_latest_week (progress db) wk /\
      let rows := filter (at_week wk) (progress db) in
      rows <> [] /\
      a * inject_Z (Z.of_nat (List.length rows)) == sum_of (map cpi rows) /\
      forall lo hi, Forall (fun p => lo <= cpi p <= hi) rows -> lo <= a <= hi.
Proof.
  destruct (progress db) as [| p0 ps] eqn:Eprog.
  - unfold kpi_query, at_latest_week. rewrite Eprog. cbn.
    repeat split; auto; discriminate.
  - assert (Hne : progress db <> []) by (rewrite Eprog; discriminate).
    destruct (max_week_ending_nonempty _ Hne) as (wk & Emax & Hl).
    assert (Hrows : filter (at_week wk) (progress db) <> []).
    { destruct Hl as [(p & Hp & Ep) _]. intros E.
      assert (Hin : In p (filter (at_week wk) (progress db))).
      { apply filter_In. split; [exact Hp |]. unfold at_week. rewrite Ep.
        apply String.eqb_refl. }
      now rewrite E in Hin. }
    unfold kpi_query; cbn [total_spend avg_cpi].
    rewrite (at_latest_week_filter db wk Emax). fold (at_week wk).
    rewrite <- Eprog.
    destruct (filter (at_week wk) (progress db)) as [| r0 rows] eqn:Ef; [congruence |].
    split; [| split].
    + cbn. split; [discriminate | congruence].
    + cbn. split; [discriminate | congruence].
    + intros a Ha. exists wk. split; [exact Hl |]. cbv zeta. rewrite Ef.
      split; [discriminate |].
      assert (Ha' : fold_left Qplus (map cpi (r0 :: rows)) 0
                    / inject_Z (Z.of_nat (List.length (map cpi (r0 :: rows)))) = a).
      { change (sql_avg (map cpi (r0 :: rows)) = Some a) in Ha.
        cbn [map sql_avg] in Ha. cbn [map]. congruence. }
      clear Ha. rename Ha' into Ha. rewrite length_map in Ha.
      pose proof (fold_left_Qplus (map cpi (r0 :: rows)) 0) as F.
      set (n := inject_Z (Z.of_nat (List.length (r0 :: rows)))) in *.
      assert (Hn : 0 < n).
      { subst n. change 0 with (inject_Z 0). rewrite <- Zlt_Qlt. cbn. lia. }
      assert (Hmean : a * n == sum_of (map cpi (r0 :: rows))).
      { rewrite <- Ha.
        transitivity (fold_left Qplus (map cpi (r0 :: rows)) 0);
          [field; lra | rewrite F; ring]. }
      split; [exact Hmean |].
      intros lo hi Hall.
      assert (Hq : Forall (fun q => lo <= q <= hi) (map cpi (r0 :: rows))).
      { apply Forall_map. exact Hall. }
      apply sum_of_bounds in Hq. rewrite length_map in Hq. fold n in Hq.
      destruct Hq as [H1 H2]. rewrite <- Hmean in H1, H2.
      split; nra.
Qed.

End KpiFacts.

Section AcrossViews.
Variable db : DB.
Hypothesis keyed : well_keyed db.

(** X12. On a fact set with the keys of the data model the bubble chart and
    the status grid show the same workstreams with the same
    [schedule_variance]: the (name, variance) pairs of the two views are the
    same, up to order. *)
Theorem bubbles_match_status_grid :
  Permutation (map bubble_face (bubble_data (dashboard db)))
              (map status_face (projects (dashboard db))).
Proof.
  unfold dashboard; cbn [bubble_data projects].
  transitivity (flat_map (fun w => map (fun p => (name w, schedule_variance p))
                                       (filter (latest_of db w) (progress db)))
                         (workstreams db)).
  - rewrite map_map. rewrite (Permutation_map _ (bubble_query_perm db keyed)).
    rewrite map_of_flat_map. apply Permutation_refl'.
    apply flat_map_ext. intros w. rewrite map_map. reflexivity.
  - symmetry. unfold status_query.
    rewrite (Permutation_map _ (order_by_perm variance_leb (status_join db))).
    rewrite status_join_eq, map_of_flat_map. apply Permutation_refl'.
    apply flat_map_ext. intros w. unfold status_rows_of. rewrite map_map. reflexivity.
Qed.

End AcrossViews.

Lemma bubbles_match_status_grid_witness :
  well_keyed lagging_facts /\
  Permutation (map bubble_face (bubble_data (dashboard lagging_facts)))
              (map status_face (projects (dashboard lagging_facts))).
Proof.
  split; [exact lagging_facts_keyed |].
  exact (bubbles_match_status_grid lagging_facts lagging_facts_keyed).
Defined.

Section BubbleCounts.

Lemma total_x_app (l l' : list Bubble) : total_x (l ++ l') = (total_x l + total_x l')%Z.
Proof.
  unfold total_x. induction l as [| b l IH]; cbn [app map fold_right]; [reflexivity |].
  rewrite IH. lia.
Qed.

Lemma total_x_perm (l l' : list Bubble) : Permutation l l' -> total_x l = total_x l'.
Proof.
  unfold total_x. induction 1; cbn [map fold_right]; lia.
Qed.

Lemma filter_split_length {A : Type} (f g : A -> bool) (l : list A) :
  List.length (filter f l)
  = (List.length (filter (fun a => g a && f a) l)
     + List.length (filter (fun a => f a && negb (g a)) l))%nat.
Proof.
  induction l as [| a l IH]; cbn; [reflexivity |].
  destruct (f a), (g a); cbn; lia.
Qed.

Lemma sum_agree {A : Type} (F F' : A -> Z) (l : list A) :
  (forall a, In a l -> F a = F' a) ->
  fold_right (fun a acc => (F a + acc)%Z) 0%Z l
  = fold_right (fun a acc => (F' a + acc)%Z) 0%Z l.
Proof.
  induction l as [| a l IH]; cbn; intros Hall; [reflexivity |].
  rewrite (Hall a (or_introl eq_refl)), IH; auto.
Qed.

(** Change requests are counted for at most one workstream each. *)
Lemma by_workstream_le (crs : list ChangeRequest) (ws : list Workstream) :
  NoDup (map ws_id ws) ->
  forall P : ChangeRequest -> bool,
    (fold_right
       (fun w acc =>
          (Z.of_nat (List.length
                       (filter (fun c => (ws_id w =? cr_ws_id c)%string && P c) crs))
           + acc)%Z) 0%Z ws
     <= Z.of_nat (List.length (filter P crs)))%Z.
Proof.
  induction ws as [| w ws IH]; intros Hnd P; cbn [fold_right]; [lia |].
  cbn [map] in Hnd. inversion Hnd as [| ? ? Hnotin Hnd']; subst.
  set (P' := fun c => P c && negb (ws_id w =? cr_ws_id c)%string).
  rewrite (filter_split_length P (fun c => (ws_id w =? cr_ws_id c)%string) crs).
  fold P'. rewrite Nat2Z.inj_add.
  specialize (IH Hnd' P').
  rewrite (sum_agree _
             (fun w' => Z.of_nat (List.length
                (filter (fun c => (ws_id w' =? cr_ws_id c)%string && P' c) crs)))).
  - lia.
  - intros w' Hw'. do 2 f_equal. apply filter_ext. intros c. unfold P'.
    destruct (String.eqb_spec (ws_id w') (cr_ws_id c)) as [E | E]; [| reflexivity].
    destruct (String.eqb_spec (ws_id w) (cr_ws_id c)) as [E' | E'].
    + exfalso. apply Hnotin. rewrite E', <- E. now apply in_map.
    + cbn. now rewrite andb_true_r.
Qed.

Variable db : DB.
Hypothesis keyed : well_keyed db.

Lemma bubble_entries_x (w : Workstream) :
  (0 <= total_x (bubble_entries db w)
   <= Z.of_nat (List.length (approved_of db w)))%Z.
Proof.
  destruct (latest_snapshots db w keyed) as [Hyes Hno].
  unfold bubble_entries.
  destruct (filter (latest_of db w) (progress db)) as [| p l] eqn:E.
  - cbn. lia.
  - assert (Hr : reports_latest db w).
    { assert (Hin : In p (filter (latest_of db w) (progress db)))
        by (rewrite E; now left).
      apply filter_In in Hin. destruct Hin as [Hp Hf].
      apply (latest_of_iff db w p Hp) in Hf. exists p. tauto. }
    destruct (Hyes Hr) as (p' & E' & _). inversion E'; subst.
    unfold total_x. cbn. lia.
Qed.

(** X13. On a fact set with the keys of the data model, the change requests
    counted on the bubbles, all together, never exceed [active_risks]: an
    approved change request is counted on at most one bubble, and on none
    when its workstream is unknown or has no snapshot at the latest week. *)
Theorem bubble_counts_within_active_risks :
  (0 <= total_x (bubble_data (dashboard db)) <= active_risks (kpis (dashboard db)))%Z.
Proof.
  destruct keyed as [Hws _].
  assert (Hperm : Permutation (bubble_data (dashboard db))
                              (flat_map (bubble_entries db) (workstreams db))).
  { unfold dashboard; cbn [bubble_data].
    rewrite (bubble_query_perm db keyed), map_of_flat_map.
    apply Permutation_refl'. apply flat_map_ext. intros w.
    unfold bubble_entries. rewrite map_map. reflexivity. }
  rewrite (total_x_perm _ _ Hperm).
  unfold dashboard; cbn [kpis]. unfold kpi_query; cbn [active_risks].
  pose proof (by_workstream_le (change_requests db) (workstreams db) Hws approved) as Hle.
  fold (approved_of db) in Hle.
  assert (Hsum : (0 <= total_x (flat_map (bubble_entries db) (workstreams db))
                  <= fold_right
                       (fun w acc => (Z.of_nat (List.length (approved_of db w)) + acc)%Z)
                       0%Z (workstreams db))%Z).
  { clear Hle Hperm Hws.
    induction (workstreams db) as [| w ws IH]; cbn [flat_map fold_right].
    - cbn. lia.
    - rewrite total_x_app. pose proof (bubble_entries_x w). lia. }
  unfold approved_of in Hsum. lia.
Qed.

End BubbleCounts.

Lemma bubble_counts_within_active_risks_witness :
  well_keyed (fst (main replay_dates 0%nat)) /\
  (0 <= total_x (bubble_data (dashboard (fst (main replay_dates 0%nat))))
   <= active_risks (kpis (dashboard (fst (main replay_dates 0%nat)))))%Z.
Proof.
  split; [exact replayed_facts_keyed |].
  exact (bubble_counts_within_active_risks _ replayed_facts_keyed).
Defined.

(* ===================================================================== *)
(** ** The generated database under the dashboard *)
(* ===================================================================== *)

Section WeekLabels.

Lemma range_In (n i : Z) : In i (range n) <-> (0 <= i < n)%Z.
Proof.
  unfold range. rewrite in_map_iff. split.
  - intros (k & <- & Hk). apply in_seq in Hk. lia.
  - intros Hi. exists (Z.to_nat i). split; [lia |]. apply in_seq. lia.
Qed.

Lemma range_NoDup (n : Z) : NoDup (range n).
Proof.
  unfold range. apply NoDup_map_inj; [intros a b; lia | apply seq_NoDup].
Qed.

Lemma string_ltb_irrefl (a : string) : String.ltb a a = false.
Proof. unfold String.ltb. now rewrite string_compare_refl. Qed.

Lemma NoDup_map_inj_in {A B : Type} (f : A -> B) (l : list A) :
  (forall a b, In a l -> In b l -> f a = f b -> a = b) ->
  NoDup l -> NoDup (map f l).
Proof.
  intros Hinj Hnd. induction Hnd as [| a l Hnotin _ IH]; cbn; constructor.
  - intros Hin. apply in_map_iff in Hin. destruct Hin as (b & E & Hb).
    apply Hinj in E; [| now right | now left]. now subst b.
  - apply IH. intros u v Hu Hv. apply Hinj; now right.
Qed.

Lemma NoDup_list_prod {A B : Type} (l : list A) (l' : list B) :
  NoDup l -> NoDup l' -> NoDup (list_prod l l').
Proof.
  intros Hl Hl'. induction Hl as [| a l Hnotin _ IH]; cbn [list_prod]; [constructor |].
  apply NoDup_app.
  - apply NoDup_map_inj; [intros u v [= E]; exact E | exact Hl'].
  - exact IH.
  - intros [u v] Hin Hin'. apply in_map_iff in Hin.
    destruct Hin as (y & [= <- <-] & _).
    apply in_prod_iff in Hin'. tauto.
Qed.

Lemma week_labels_injective (fmt : Z -> string) (i j : Z) :
  weeks_increasing fmt ->
  (0 <= i < NUM_WEEKS)%Z -> (0 <= j < NUM_WEEKS)%Z ->
  fmt (7 * i)%Z = fmt (7 * j)%Z -> i = j.
Proof.
  intros Hinc Hi Hj E.
  destruct (Z.lt_trichotomy i j) as [Hlt | [Heq | Hgt]]; [| exact Heq |].
  - pose proof (Hinc i j ltac:(lia) Hlt ltac:(lia)) as H.
    rewrite E, string_ltb_irrefl in H. discriminate.
  - pose proof (Hinc j i ltac:(lia) Hgt ltac:(lia)) as H.
    rewrite E, string_ltb_irrefl in H. discriminate.
Qed.

Lemma week_labels_distinct (fmt : Z -> string) :
  weeks_increasing fmt ->
  NoDup (map (fun i => fmt (7 * i)%Z) (range NUM_WEEKS)).
Proof.
  intros Hinc. apply NoDup_map_inj_in; [| apply range_NoDup].
  intros i j Hi Hj. apply range_In in Hi, Hj.
  now apply week_labels_injective.
Qed.

Lemma weeks_increasing_checked (fmt : Z -> string) :
  weeks_increasing_check fmt = true -> weeks_increasing fmt.
Proof.
  unfold weeks_increasing_check. rewrite forallb_forall.
  intros Hall i j Hi Hij Hj.
  specialize (Hall (i, j)). cbn [fst snd] in Hall.
  assert (Hin : In (i, j) (list_prod (range NUM_WEEKS) (range NUM_WEEKS))).
  { apply in_prod_iff. split; apply range_In; lia. }
  specialize (Hall Hin). apply orb_true_iff in Hall.
  destruct Hall as [Hle | Hlt]; [apply Z.leb_le in Hle; lia | exact Hlt].
Qed.

Lemma replay_dates_increasing : weeks_increasing replay_dates.
Proof. apply weeks_increasing_checked. vm_compute. reflexivity. Qed.

End WeekLabels.

Section GeneratedKeys.
Variable fmt : Z -> string.

Lemma history_keys (ws : string) (b : Q) (st : Running)
      (weeks : list Z) (rs : list Progress) :
  history fmt ws b st weeks rs ->
  map snapshot_key rs = map (fun i => (ws, fmt (7 * i)%Z)) weeks.
Proof.
  induction 1 as [st | st i weeks f k rs _ _ IH]; [reflexivity |].
  cbn [map]. now rewrite IH.
Qed.

Lemma histories_keys (wss : list Workstream) (rs : list Progress) :
  histories fmt wss rs ->
  map snapshot_key rs
  = list_prod (map ws_id wss) (map (fun i => fmt (7 * i)%Z) (range NUM_WEEKS)).
Proof.
  induction 1 as [| w wss rs rs' Hh _ IH]; [reflexivity |].
  cbn [map list_prod]. rewrite map_app, IH, (history_keys _ _ _ _ _ Hh), map_map.
  reflexivity.
Qed.

Lemma main_tables {G : Type} {RG : Random G} (g : G) :
  workstreams (fst (main fmt g)) = workstreams_data /\
  progress (fst (main fmt g)) = fst (progress_records fmt g).
Proof.
  unfold main, generate_data. rewrite bind_run. rewrite bind_run.
  cbn [ret fst workstreams progress empty_db]. split; [reflexivity |].
  now rewrite insert_progress_many.
Qed.

End GeneratedKeys.

Section GeneratedKeysSpec.
Context {G : Type} {RG : Random G} {RL : RandomLaws G}.
Variable fmt : Z -> string.

Lemma main_well_keyed (g : G) :
  weeks_increasing fmt -> well_keyed (fst (main fmt g)).
Proof.
  intros Hinc. destruct (main_tables fmt g) as [Ews Eps].
  unfold well_keyed. rewrite Ews, Eps. split; [apply workstreams_data_keys |].
  change (fun p : Progress => (p_ws_id p, week_ending p)) with snapshot_key.
  unfold progress_records.
  rewrite (histories_keys fmt _ _ (progress_loop_histories fmt workstreams_data g)).
  apply NoDup_list_prod; [apply workstreams_data_keys | now apply week_labels_distinct].
Qed.

(** X14. When the week labels of the window are strictly ascending, the
    database the script builds from scratch has the keys of the data model:
    [ws_id] identifies a workstream and no workstream has two snapshots of
    the same week. *)
Theorem generated_facts_keyed (g : G) :
  weeks_increasing fmt -> well_keyed (fst (main fmt g)).
Proof. exact (main_well_keyed g). Qed.

End GeneratedKeysSpec.

Lemma generated_facts_keyed_witness :
  RandomLaws nat /\ weeks_increasing replay_dates /\
  well_keyed (fst (main replay_dates 0%nat)).
Proof.
  split; [exact replay_laws |]. split; [exact replay_dates_increasing |].
  exact (generated_facts_keyed (G := nat) replay_dates 0%nat replay_dates_increasing).
Defined.

Section GeneratedGrid.
Variable fmt : Z -> string.

Lemma nth_range (n : nat) :
  (n < 24)%nat -> nth n (range NUM_WEEKS) 0%Z = Z.of_nat n.
Proof.
  intros Hn. unfold range.
  change 0%Z with (Z.of_nat 0). rewrite map_nth.
  rewrite seq_nth; [reflexivity | exact Hn].
Qed.

Lemma history_member (ws : string) (b : Q) (st : Running)
      (weeks : list Z) (rs : list Progress) :
  history fmt ws b st weeks rs ->
  forall p, In p rs ->
    exists n st', (n < List.length weeks)%nat /\
      reach (ranges_of ws) b (S n) st st' /\
      p = record_of (fmt (7 * nth n weeks 0)%Z) ws b st'.
Proof.
  induction 1 as [st | st i weeks f k rs Hr Hh IH]; intros p Hin; [destruct Hin |].
  destruct Hin as [<- | Hin].
  - exists 0%nat, (advance b f k st). cbn [List.length nth]. split; [lia |].
    split; [| reflexivity]. econstructor; [exact Hr | constructor].
  - destruct (IH p Hin) as (n & st' & Hn & Hreach & Ep).
    exists (S n), st'. cbn [List.length nth]. split; [lia |].
    split; [| exact Ep]. econstructor; [exact Hr | exact Hreach].
Qed.

Lemma histories_member (wss : list Workstream) (rs : list Progress) :
  histories fmt wss rs ->
  forall p, In p rs ->
    exists w n st', In w wss /\ (n < 24)%nat /\
      reach (ranges_of (ws_id w)) (budget w) (S n) start st' /\
      p = record_of (fmt (7 * Z.of_nat n)%Z) (ws_id w) (budget w) st'.
Proof.
  induction 1 as [| w wss rs rs' Hh _ IH]; intros p Hin; [destruct Hin |].
  apply in_app_or in Hin. destruct Hin as [Hin | Hin].
  - destruct (history_member _ _ _ _ _ Hh p Hin) as (n & st' & Hn & Hreach & Ep).
    change (List.length (range NUM_WEEKS)) with 24%nat in Hn.
    rewrite (nth_range n Hn) in Ep.
    exists w, n, st'. split; [now left | tauto].
  - destruct (IH p Hin) as (w' & n & st' & Hw' & Hrest).
    exists w', n, st'. split; [now right | exact Hrest].
Qed.

Lemma last_member {A : Type} (l : list A) (d : A) : l <> [] -> In (last l d) l.
Proof.
  induction l as [| a l IH]; intros Hne; [congruence |].
  destruct l as [| b l]; [now left |].
  right. apply IH. discriminate.
Qed.

Lemma histories_last_week (wss : list Workstream) (rs : list Progress) (w : Workstream) :
  histories fmt wss rs -> NoDup (map ws_id wss) -> In w wss ->
  exists p, In p rs /\ p_ws_id p = ws_id w /\ week_ending p = fmt (7 * 23)%Z.
Proof.
  intros Hh Hnd Hw.
  pose proof (histories_filter fmt _ _ Hh Hnd w Hw) as Hf.
  destruct (terminal_of_history fmt _ _ _ Hf) as (p & l & st' & E & _ & Hlast).
  assert (Hin : In (last (p :: l) p) (p :: l)) by (apply last_member; discriminate).
  assert (Hin2 : In (last (p :: l) p)
                    (filter (fun q => (p_ws_id q =? ws_id w)%string) rs))
    by (rewrite E; exact Hin).
  clear Hin. apply filter_In in Hin2. destruct Hin2 as [Hin Hws].
  exists (last (p :: l) p). split; [exact Hin |].
  split; [now apply String.eqb_eq | now rewrite Hlast].
Qed.

Lemma histories_latest (wss : list Workstream) (rs : list Progress) (w : Workstream) :
  weeks_increasing fmt ->
  histories fmt wss rs -> NoDup (map ws_id wss) -> In w wss ->
  is_latest_week rs (fmt (7 * 23)%Z).
Proof.
  intros Hinc Hh Hnd Hw. split.
  - destruct (histories_last_week _ _ w Hh Hnd Hw) as (p & Hp & _ & E).
    now exists p.
  - intros p Hp.
    destruct (histories_member _ _ Hh p Hp) as (w' & n & st' & _ & Hn & _ & ->).
    cbn [record_of week_ending].
    destruct (Nat.eq_dec n 23) as [-> | Hne]; [apply string_leb_refl |].
    apply string_ltb_leb. apply Hinc; unfold NUM_WEEKS; lia.
Qed.

Lemma ranges_of_floor (ws : string) :
  ws <> "WS_002"%string -> 8 # 10 <= f_lo (ranges_of ws).
Proof.
  intros Hne. unfold ranges_of.
  destruct (String.eqb_spec ws "WS_002"); [contradiction |].
  destruct (ws =? "WS_001")%string; cbn; lra.
Qed.

Lemma same_workstream (w w' : Workstream) :
  In w workstreams_data -> In w' workstreams_data -> ws_id w = ws_id w' -> w = w'.
Proof.
  cbn. intros Hw Hw' E.
  repeat (destruct Hw as [<- | Hw]; [| ]);
    repeat (destruct Hw' as [<- | Hw']; [| ]);
    try contradiction; try reflexivity; discriminate.
Qed.

End GeneratedGrid.

Section GeneratedGridSpec.
Context {G : Type} {RG : Random G} {RL : RandomLaws G}.
Variable fmt : Z -> string.
Hypothesis increasing : weeks_increasing fmt.

Lemma main_latest_week (g : G) :
  is_latest_week (progress (fst (main fmt g))) (fmt (7 * 23)%Z).
Proof.
  destruct (main_tables fmt g) as [_ Eps]. rewrite Eps.
  apply (histories_latest fmt workstreams_data _
           (mkWorkstream "WS_001" "Finance (FICO)" "Sarah J." 1500000 "High"));
    [exact increasing | apply progress_loop_histories
    | apply workstreams_data_keys | cbn; tauto].
Qed.

(** Every generated workstream has exactly one snapshot at the latest week:
    the record of its totals after the 24 weeks. *)
Lemma main_latest_snapshot (g : G) (w : Workstream) :
  In w workstreams_data ->
  exists st',
    filter (latest_of (fst (main fmt g)) w) (progress (fst (main fmt g)))
    = [record_of (fmt (7 * 23)%Z) (ws_id w) (budget w) st'] /\
    reach (ranges_of (ws_id w)) (budget w) (List.length (range NUM_WEEKS)) start st'.
Proof.
  intros Hw.
  destruct (main_tables fmt g) as [Ews Eps].
  pose proof (progress_loop_histories fmt workstreams_data g) as Hh.
  fold (progress_records fmt) in Hh.
  pose proof (main_well_keyed fmt g increasing) as Hk.
  pose proof (main_latest_week g) as Hl.
  set (db := fst (main fmt g)) in *.
  destruct (histories_last_week fmt _ _ w Hh workstreams_data_keys Hw)
    as (q & Hq & Eq & Ewq).
  assert (Hr : reports_latest db w).
  { exists q. split; [rewrite Eps; exact Hq |]. split; [exact Eq |]. now rewrite Ewq. }
  destruct (latest_snapshots db w Hk) as [Hyes _].
  destruct (Hyes Hr) as (p & Ef & Hp & Ep & Hl').
  pose proof (is_latest_week_unique _ _ _ Hl' Hl) as Ewk.
  rewrite Eps in Hp.
  destruct (histories_member fmt _ _ Hh p Hp) as (w' & n & st' & Hw' & Hn & Hreach & E).
  subst p. cbn [record_of p_ws_id week_ending] in Ep, Ewk.
  assert (w' = w) by (now apply same_workstream). subst w'.
  assert (En : Z.of_nat n = 23%Z).
  { apply (week_labels_injective fmt _ _ increasing); unfold NUM_WEEKS; [lia | lia |].
    exact Ewk. }
  assert (n = 23%nat) by lia. subst n.
  exists st'. split; [exact Ef | exact Hreach].
Qed.

Lemma main_status_row (g : G) (row : StatusRow) :
  In row (status_query (fst (main fmt g))) ->
  exists w, In w workstreams_data /\
            status_rows_of (fst (main fmt g)) w = [row] /\ sr_ws_id row = ws_id w.
Proof.
  intros Hrow.
  destruct (main_tables fmt g) as [Ews _].
  apply (Permutation_in _ (order_by_perm _ _)) in Hrow.
  rewrite status_join_eq in Hrow. apply in_flat_map in Hrow.
  destruct Hrow as (w & Hw & Hrow). rewrite Ews in Hw.
  destruct (main_latest_snapshot g w Hw) as (st' & Ef & _).
  unfold status_rows_of in Hrow. rewrite Ef in Hrow. cbn [map In] in Hrow.
  destruct Hrow as [<- | []].
  exists w. split; [exact Hw |].
  split; [unfold status_rows_of; now rewrite Ef | reflexivity].
Qed.

Lemma main_variance (g : G) (w : Workstream) (row : StatusRow) :
  In w workstreams_data ->
  status_rows_of (fst (main fmt g)) w = [row] ->
  (ws_id w = "WS_002"%string -> sr_schedule_variance row <= -20) /\
  (ws_id w <> "WS_002"%string -> -20 <= sr_schedule_variance row).
Proof.
  intros Hw Erow.
  destruct (main_latest_snapshot g w Hw) as (st' & Ef & Hreach).
  unfold status_rows_of in Erow. rewrite Ef in Erow. cbn [map] in Erow.
  injection Erow as <-.
  cbn [status_row sr_schedule_variance record_of schedule_variance].
  assert (Hb : 0 <= budget w).
  { pose proof workstreams_data_budgets as Hall. rewrite Forall_forall in Hall.
    now apply Hall. }
  apply final_totals in Hreach; [| exact Hb].
  destruct Hreach as (_ & Hp & Hau & Hal & _). split.
  - intros E. rewrite E in Hau. change (f_hi (ranges_of "WS_002")) with (8 # 10) in Hau.
    apply (round2_le_Z _ (-20)). change (inject_Z (-20)) with (-20). lra.
  - intros E. pose proof (ranges_of_floor _ E) as Hfl.
    assert (80 <= py_min 100 (100 * f_lo (ranges_of (ws_id w)))).
    { apply py_min_glb; lra. }
    apply (round2_ge_Z _ (-20)). change (inject_Z (-20)) with (-20). lra.
Qed.

Lemma main_grid_ids (g : G) (l : list Workstream) :
  (forall w, In w l -> In w workstreams_data) ->
  map sr_ws_id (flat_map (status_rows_of (fst (main fmt g))) l) = map ws_id l.
Proof.
  induction l as [| w l IH]; intros Hl; [reflexivity |].
  cbn [flat_map map]. rewrite map_app, IH by (intros; apply Hl; now right).
  destruct (main_latest_snapshot g w (Hl w (or_introl eq_refl))) as (st' & Ef & _).
  unfold status_rows_of. rewrite Ef. reflexivity.
Qed.

(** X15. When the week labels of the window are strictly ascending, the
    dashboard of the database built from scratch takes week 23 as the latest
    week, lists each of the five workstreams once in the status grid, and
    WS_002 is there at least as far behind schedule as any other workstream,
    whatever the random source drew: its row and the first row of the grid
    have the same [schedule_variance]. *)
Theorem at_risk_workstream_most_behind (g : G) :
  let db := fst (main fmt g) in
  is_latest_week (progress db) (fmt (7 * 23)%Z) /\
  Permutation (map sr_ws_id (status_query db)) (map ws_id workstreams_data) /\
  (forall row row', In row (status_query db) -> In row' (status_query db) ->
     sr_ws_id row = "WS_002"%string ->
     sr_schedule_variance row <= sr_schedule_variance row') /\
  (forall top rest row, status_query db = top :: rest ->
     In row (status_query db) -> sr_ws_id row = "WS_002"%string ->
     sr_schedule_variance top == sr_schedule_variance row).
Proof.
  intros db.
  assert (Hmin : forall row row', In row (status_query db) -> In row' (status_query db) ->
            sr_ws_id row = "WS_002"%string ->
            sr_schedule_variance row <= sr_schedule_variance row').
  { intros row row' Hrow Hrow' E.
    destruct (main_status_row g row Hrow) as (w & Hw & Erow & Eid).
    destruct (main_status_row g row' Hrow') as (w' & Hw' & Erow' & Eid').
    destruct (main_variance g w row Hw Erow) as [Hlow _].
    destruct (main_variance g w' row' Hw' Erow') as [_ Hhigh].
    destruct (String.eqb_spec (ws_id w') "WS_002") as [E' | E'].
    - assert (w' = w) by (apply same_workstream; congruence). subst w'.
      fold db in Erow, Erow'. rewrite Erow in Erow'. injection Erow' as <-.
      apply Qle_refl.
    - specialize (Hlow ltac:(congruence)). specialize (Hhigh E'). lra. }
  split; [apply main_latest_week |]. split; [| split; [exact Hmin |]].
  - unfold status_query.
    rewrite (Permutation_map _ (order_by_perm variance_leb (status_join db))).
    rewrite status_join_eq. destruct (main_tables fmt g) as [Ews _].
    fold db in Ews. rewrite Ews.
    apply Permutation_refl'. apply main_grid_ids. auto.
  - intros top rest row Egrid Hrow E.
    assert (Hsorted : StronglySorted (fun a b => variance_leb a b = true)
                                     (status_query db)).
    { apply order_by_sorted; [apply variance_leb_total | apply variance_leb_trans]. }
    assert (Htop : In top (status_query db)) by (rewrite Egrid; now left).
    pose proof (Hmin row top Hrow Htop E) as Hle.
    rewrite Egrid in Hsorted, Hrow. inversion Hsorted as [| ? ? _ Hall]; subst.
    destruct Hrow as [<- | Hrow]; [reflexivity |].
    rewrite Forall_forall in Hall. specialize (Hall row Hrow).
    unfold variance_leb in Hall. apply Qle_bool_iff in Hall.
    now apply Qle_antisym.
Qed.

End GeneratedGridSpec.

Lemma at_risk_workstream_most_behind_witness :
  RandomLaws nat /\ weeks_increasing replay_dates /\
  Permutation (map sr_ws_id (status_query (fst (main replay_dates 0%nat))))
              (map ws_id workstreams_data).
Proof.
  split; [exact replay_laws |]. split; [exact replay_dates_increasing |].
  exact (proj1 (proj2 (at_risk_workstream_most_behind (G := nat) replay_dates
                         replay_dates_increasing 0%nat))).
Defined.

Section SecondRun.
Context {G : Type} {RG : Random G} {RL : RandomLaws G}.
Variables fmt fmt' : Z -> string.

Lemma shared_not_NoDup {A : Type} (a : A) (l l' : list A) :
  In a l -> In a l' -> ~ NoDup (l ++ l').
Proof.
  intros Hl Hl'. induction l as [| b l IH]; [destruct Hl |].
  cbn [app]. intros Hnd. inversion Hnd as [| ? ? Hnotin Hnd']; subst.
  destruct Hl as [-> | Hl]; [| now apply IH].
  apply Hnotin. apply in_or_app. now right.
Qed.

Lemma generated_key (f : Z -> string) (w : Workstream) (i : Z) :
  In w workstreams_data -> (0 <= i < NUM_WEEKS)%Z ->
  In (ws_id w, f (7 * i)%Z)
     (list_prod (map ws_id workstreams_data)
                (map (fun i => f (7 * i)%Z) (range NUM_WEEKS))).
Proof.
  intros Hw Hi. apply in_prod_iff. split.
  - now apply in_map.
  - apply in_map_iff. exists i. split; [reflexivity | now apply range_In].
Qed.

(** X16. Run a second time on the database of a first run, without the
    removal of the file that the script does first and with a window of
    weeks of its own, [generate_data] leaves the five workstreams as they are
    and appends its 120 snapshots: [progress] then holds 240 rows. When the
    two windows have a week label in common (as when both runs are of the
    same day), the database no longer has the keys of the data model; when
    the labels of each window are strictly ascending and the two windows have
    none in common (as when the second run is a day later), it still has
    them. *)
Theorem second_run_duplicates_snapshots (g g' : G) :
  let db1 := fst (main fmt g) in
  let db2 := fst (generate_data fmt' db1 g') in
  workstreams db2 = workstreams_data /\
  List.length (progress db2) = 240%nat /\
  (windows_overlap fmt fmt' -> ~ well_keyed db2) /\
  (weeks_increasing fmt -> weeks_increasing fmt' -> ~ windows_overlap fmt fmt' ->
   well_keyed db2).
Proof.
  intros db1 db2.
  destruct (main_tables fmt g) as [Ews Eps]. fold db1 in Ews, Eps.
  assert (Ews2 : workstreams db2 = workstreams_data).
  { subst db2. unfold generate_data. rewrite bind_run. rewrite bind_run.
    cbn [ret fst workstreams]. rewrite Ews. reflexivity. }
  assert (Eps2 : progress db2
                 = fst (progress_records fmt g) ++ fst (progress_records fmt' g')).
  { subst db2. unfold generate_data. rewrite bind_run. rewrite bind_run.
    cbn [ret fst progress]. now rewrite insert_progress_many, Eps. }
  assert (Ekeys : map snapshot_key (progress db2)
                  = list_prod (map ws_id workstreams_data)
                              (map (fun i => fmt (7 * i)%Z) (range NUM_WEEKS))
                    ++ list_prod (map ws_id workstreams_data)
                                 (map (fun i => fmt' (7 * i)%Z) (range NUM_WEEKS))).
  { rewrite Eps2, map_app. unfold progress_records.
    now rewrite (histories_keys fmt _ _ (progress_loop_histories fmt workstreams_data g)),
      (histories_keys fmt' _ _ (progress_loop_histories fmt' workstreams_data g')). }
  split; [exact Ews2 |]. split; [| split].
  - rewrite Eps2, length_app. unfold progress_records.
    now rewrite !progress_loop_length.
  - intros (i & j & Hi & Hj & E) [_ Hkeys].
    change (fun p : Progress => (p_ws_id p, week_ending p)) with snapshot_key in Hkeys.
    rewrite Ekeys in Hkeys. revert Hkeys.
    apply (shared_not_NoDup ("WS_001"%string, fmt (7 * i)%Z)).
    + apply (generated_key fmt
               (mkWorkstream "WS_001" "Finance (FICO)" "Sarah J." 1500000 "High"));
        [cbn; tauto | exact Hi].
    + rewrite E.
      apply (generated_key fmt'
               (mkWorkstream "WS_001" "Finance (FICO)" "Sarah J." 1500000 "High"));
        [cbn; tauto | exact Hj].
  - intros Hinc Hinc' Hapart. split; [rewrite Ews2; apply workstreams_data_keys |].
    change (fun p : Progress => (p_ws_id p, week_ending p)) with snapshot_key.
    rewrite Ekeys. apply NoDup_app.
    + apply NoDup_list_prod; [apply workstreams_data_keys | now apply week_labels_distinct].
    + apply NoDup_list_prod; [apply workstreams_data_keys | now apply week_labels_distinct].
    + intros [ws wk] H1 H2. apply in_prod_iff in H1, H2.
      destruct H1 as [_ H1]. destruct H2 as [_ H2].
      apply in_map_iff in H1, H2.
      destruct H1 as (i & Ei & Hi). destruct H2 as (j & Ej & Hj).
      apply range_In in Hi, Hj.
      apply Hapart. exists i, j. split; [exact Hi |]. split; [exact Hj |]. congruence.
Qed.

End SecondRun.

Lemma next_day_apart :
  ~ windows_overlap replay_dates (fun n => replay_dates (n + 1)%Z).
Proof.
  intros (i & j & Hi & Hj & E).
  assert (Hall : forallb (fun ij => negb (replay_dates (7 * fst ij)%Z
                                          =? replay_dates (7 * snd ij + 1)%Z)%string)
                         (list_prod (range NUM_WEEKS) (range NUM_WEEKS)) = true)
    by (vm_compute; reflexivity).
  rewrite forallb_forall in Hall.
  specialize (Hall (i, j)). cbn [fst snd] in Hall.
  rewrite E, String.eqb_refl in Hall.
  assert (Hin : In (i, j) (list_prod (range NUM_WEEKS) (range NUM_WEEKS)))
    by (apply in_prod_iff; split; now apply range_In).
  specialize (Hall Hin). discriminate.
Qed.

Lemma second_run_duplicates_snapshots_witness :
  RandomLaws nat /\ windows_overlap replay_dates replay_dates /\
  ~ well_keyed (fst (generate_data replay_dates
                       (fst (main replay_dates 0%nat)) 400%nat)) /\
  well_keyed (fst (generate_data (fun n => replay_dates (n + 1)%Z)
                     (fst (main replay_dates 0%nat)) 400%nat)).
Proof.
  assert (Hshare : windows_overlap replay_dates replay_dates).
  { exists 0%Z, 0%Z. split; [split; [lia | reflexivity] |].
    split; [split; [lia | reflexivity] | reflexivity]. }
  assert (Hnext : weeks_increasing (fun n => replay_dates (n + 1)%Z)).
  { apply weeks_increasing_checked. vm_compute. reflexivity. }
  split; [exact replay_laws |]. split; [exact Hshare |]. split.
  - exact (proj1 (proj2 (proj2 (second_run_duplicates_snapshots (G := nat)
                                  replay_dates replay_dates 0%nat 400%nat)))
             Hshare).
  - exact (proj2 (proj2 (proj2 (second_run_duplicates_snapshots (G := nat)
                                  replay_dates (fun n => replay_dates (n + 1)%Z)
                                  0%nat 400%nat)))
             replay_dates_increasing Hnext next_day_apart).
Defined.

(* ===================================================================== *)
(** ** The KPI total against the status grid *)
(* ===================================================================== *)

Section SpendAcrossViews.

Lemma sum_of_app (l l' : list Q) : sum_of (l ++ l') == sum_of l + sum_of l'.
Proof.
  unfold sum_of. induction l as [| q l IH]; cbn [app fold_right]; [ring |].
  rewrite IH. ring.
Qed.

Lemma split_sum {A : Type} (v : A -> Q) (f g : A -> bool) (l : list A) :
  sum_of (map v (filter f l))
  == sum_of (map v (filter (fun a => g a && f a) l))
     + sum_of (map v (filter (fun a => f a && negb (g a)) l)).
Proof.
  unfold sum_of. induction l as [| a l IH]; cbn [filter map fold_right]; [ring |].
  destruct (f a), (g a); cbn [andb negb map fold_right]; rewrite IH; ring.
Qed.

Lemma sum_agree_Q {A : Type} (F F' : A -> Q) (l : list A) :
  (forall a, In a l -> F a = F' a) ->
  fold_right (fun a acc => F a + acc) 0 l = fold_right (fun a acc => F' a + acc) 0 l.
Proof.
  induction l as [| a l IH]; cbn; intros Hall; [reflexivity |].
  rewrite (Hall a (or_introl eq_refl)), IH; auto.
Qed.

(** A column summed workstream by workstream, plus the rows of no
    workstream, is the column summed. *)
Lemma by_workstream_sum (v : Progress -> Q) (ps : list Progress) (ws : list Workstream) :
  NoDup (map ws_id ws) ->
  forall P : Progress -> bool,
    fold_right
      (fun w acc =>
         sum_of (map v (filter (fun p => (ws_id w =? p_ws_id p)%string && P p) ps)) + acc)
      0 ws
    + sum_of (map v (filter
                       (fun p => P p
                                 && negb (existsb (fun w => (ws_id w =? p_ws_id p)%string) ws))
                       ps))
    == sum_of (map v (filter P ps)).
Proof.
  induction ws as [| w ws IH]; intros Hnd P; cbn [fold_right existsb].
  - rewrite (filter_ext _ P); [ring |]. intros p. cbn. apply andb_true_r.
  - cbn [map] in Hnd. inversion Hnd as [| ? ? Hnotin Hnd']; subst.
    set (P' := fun p => P p && negb (ws_id w =? p_ws_id p)%string).
    specialize (IH Hnd' P').
    rewrite (split_sum v P (fun p => (ws_id w =? p_ws_id p)%string) ps).
    fold P'. rewrite <- IH.
    rewrite (sum_agree_Q _
               (fun w' => sum_of (map v (filter
                  (fun p => (ws_id w' =? p_ws_id p)%string && P' p) ps)))).
    + rewrite (filter_ext
                 (fun p => P p && negb ((ws_id w =? p_ws_id p)%string
                                        || existsb (fun w0 => (ws_id w0 =? p_ws_id p)%string) ws))
                 (fun p => P' p && negb (existsb (fun w0 => (ws_id w0 =? p_ws_id p)%string) ws))).
      * ring.
      * intros p. unfold P'. rewrite negb_orb. now rewrite andb_assoc.
    + intros w' Hw'. do 2 f_equal. apply filter_ext. intros p. unfold P'.
      destruct (String.eqb_spec (ws_id w') (p_ws_id p)) as [E | E]; [| reflexivity].
      destruct (String.eqb_spec (ws_id w) (p_ws_id p)) as [E' | E'].
      * exfalso. apply Hnotin. rewrite E', <- E. now apply in_map.
      * cbn. now rewrite andb_true_r.
Qed.

Lemma sum_of_status_join (db : DB) (ws : list Workstream) :
  sum_of (map sr_budget_spent (flat_map (status_rows_of db) ws))
  == fold_right
       (fun w acc =>
          sum_of (map budget_spent
                      (filter (fun p => (ws_id w =? p_ws_id p)%string && at_latest_week db p)
                              (progress db))) + acc)
       0 ws.
Proof.
  induction ws as [| w ws IH]; cbn [flat_map fold_right]; [reflexivity |].
  rewrite map_app, sum_of_app, IH. unfold status_rows_of at 1. rewrite map_map.
  reflexivity.
Qed.

(** X17. When [ws_id] is a key of [workstreams], [total_spend] is the
    [budget_spent] column of the status grid summed, plus the [budget_spent]
    of the latest-week snapshots that refer to no workstream of the table:
    the KPI counts such snapshots, the grid does not show them. *)
Theorem total_spend_against_grid (db : DB) :
  NoDup (map ws_id (workstreams db)) ->
  progress db <> [] ->
  opt_Qeq (total_spend (kpi_query db))
          (Some (sum_of (map sr_budget_spent (status_query db))
                 + sum_of (map budget_spent
                               (filter (fun p => at_latest_week db p && orphan db p)
                                       (progress db))))).
Proof.
  intros Hnd Hne.
  destruct (max_week_ending_nonempty _ Hne) as (wk & Emax & Hl).
  rewrite (kpi_total_spend db wk Hl). cbn [opt_Qeq].
  rewrite fold_left_Qplus. unfold at_week.
  rewrite <- (at_latest_week_filter db wk Emax).
  rewrite <- (by_workstream_sum budget_spent (progress db) (workstreams db) Hnd
                (at_latest_week db)).
  unfold status_query.
  rewrite (sum_of_perm _ _ (Permutation_map sr_budget_spent
                              (order_by_perm variance_leb (status_join db)))).
  rewrite status_join_eq, sum_of_status_join. unfold orphan. ring.
Qed.

End SpendAcrossViews.

Lemma total_spend_against_grid_witness :
  NoDup (map ws_id (workstreams lagging_facts)) /\
  progress lagging_facts <> [] /\
  opt_Qeq (total_spend (kpi_query lagging_facts))
          (Some (sum_of (map sr_budget_spent (status_query lagging_facts))
                 + sum_of (map budget_spent
                               (filter (fun p => at_latest_week lagging_facts p
                                                 && orphan lagging_facts p)
                                       (progress lagging_facts))))).
Proof.
  assert (Hnd : NoDup (map ws_id (workstreams lagging_facts)))
    by exact (proj1 lagging_facts_keyed).
  assert (Hne : progress lagging_facts <> []) by discriminate.
  split; [exact Hnd |]. split; [exact Hne |].
  exact (total_spend_against_grid lagging_facts Hnd Hne).
Defined.

(* ===================================================================== *)
(** ** Spend on the generated dashboard *)
(* ===================================================================== *)

Section GeneratedSpend.

Lemma reach_spend_upper (rg : Ranges) (b : Q) (n : nat) (st st' : Running) :
  reach rg b n st st' -> 0 <= b -> 0 <= g_lo rg ->
  current_spend st'
  <= current_spend st + inject_Z (Z.of_nat n) * (b / inject_Z NUM_WEEKS * g_hi rg).
Proof.
  intros Hreach Hb Hg.
  induction Hreach as [st | n st f k st' [_ [Hk1 Hk2]] _ IH].
  - cbn [Z.of_nat]. change (inject_Z 0) with 0. lra.
  - rewrite Nat2Z.inj_succ. unfold Z.succ. rewrite inject_Z_plus.
    change (inject_Z 1) with 1.
    assert (Hw : 0 <= b / inject_Z NUM_WEEKS).
    { rewrite weekly_budget_eq. apply Qle_shift_div_l; lra. }
    assert (X : b / inject_Z NUM_WEEKS * k <= b / inject_Z NUM_WEEKS * g_hi rg).
    { apply Qmult_le_compat_nonneg; split; lra. }
    unfold advance in IH; cbn in IH. lra.
Qed.

Lemma final_spend (ws : string) (b : Q) (st' : Running) :
  0 <= b ->
  reach (ranges_of ws) b (List.length (range NUM_WEEKS)) start st' ->
  b * g_lo (ranges_of ws) <= current_spend st' <= b * g_hi (ranges_of ws).
Proof.
  intros Hb Hreach.
  assert (Hg : 0 <= g_lo (ranges_of ws)).
  { unfold ranges_of.
    destruct (ws =? "WS_002")%string; [| destruct (ws =? "WS_001")%string]; cbn; lra. }
  pose proof (reach_spend_upper _ _ _ _ _ Hreach Hb Hg) as Hup.
  apply final_totals in Hreach; [| exact Hb].
  destruct Hreach as (_ & _ & _ & _ & Hlo).
  change (inject_Z (Z.of_nat (List.length (range NUM_WEEKS)))) with 24 in Hup.
  cbn [start current_spend] in Hup. rewrite weekly_budget_eq in Hup.
  assert (E : 0 + 24 * (b / 24 * g_hi (ranges_of ws)) == b * g_hi (ranges_of ws))
    by field.
  split; lra.
Qed.

Context {G : Type} {RG : Random G} {RL : RandomLaws G}.
Variable fmt : Z -> string.
Hypothesis increasing : weeks_increasing fmt.

(** The spend of a generated workstream at the latest week, against its
    budget. *)
Lemma main_latest_spend (g : G) (w : Workstream) (lo hi : Z) :
  In w workstreams_data ->
  inject_Z lo <= budget w * g_lo (ranges_of (ws_id w)) ->
  budget w * g_hi (ranges_of (ws_id w)) <= inject_Z hi ->
  inject_Z lo
  <= sum_of (map budget_spent
                 (filter (latest_of (fst (main fmt g)) w) (progress (fst (main fmt g)))))
  <= inject_Z hi.
Proof.
  intros Hw Hlo Hhi.
  destruct (main_latest_snapshot fmt increasing g w Hw) as (st' & Ef & Hreach).
  rewrite Ef. unfold sum_of. cbn [map fold_right record_of budget_spent].
  assert (Hb : 0 <= budget w).
  { pose proof workstreams_data_budgets as Hall. rewrite Forall_forall in Hall.
    now apply Hall. }
  destruct (final_spend _ _ _ Hb Hreach) as [H1 H2].
  assert (inject_Z lo <= round2 (current_spend st')) by (apply round2_ge_Z; lra).
  assert (round2 (current_spend st') <= inject_Z hi) by (apply round2_le_Z; lra).
  split; lra.
Qed.

Lemma main_no_orphan (g : G) :
  filter (fun p => at_latest_week (fst (main fmt g)) p && orphan (fst (main fmt g)) p)
         (progress (fst (main fmt g))) = [].
Proof.
  destruct (main_tables fmt g) as [Ews Eps].
  apply filter_none. apply Forall_forall. intros p Hp.
  rewrite Eps in Hp.
  pose proof (histories_owner fmt _ _ (progress_loop_histories fmt workstreams_data g))
    as Hown.
  fold (progress_records fmt) in Hown. rewrite Forall_forall in Hown.
  specialize (Hown p Hp). apply in_map_iff in Hown. destruct Hown as (w & E & Hw).
  unfold orphan. rewrite Ews.
  assert (Hex : existsb (fun w0 => (ws_id w0 =? p_ws_id p)%string) workstreams_data = true).
  { apply existsb_exists. exists w. split; [exact Hw |]. rewrite E. apply String.eqb_refl. }
  rewrite Hex. cbn. apply andb_false_r.
Qed.

(** X18. When the week labels of the window are strictly ascending, the
    dashboard of the database built from scratch reports a [total_spend]
    between 5 435 000 and 6 985 000 whatever the random source drew, and the
    status row of WS_002 shows a [budget_spent] between 2 420 000 and
    3 300 000, above its budget of 2 200 000. *)
Theorem generated_spend_bounds (g : G) :
  let db := fst (main fmt g) in
  (exists t, total_spend (kpis (dashboard db)) = Some t /\
             5435000 <= t <= 6985000) /\
  (forall row, In row (status_query db) -> sr_ws_id row = "WS_002"%string ->
               2420000 <= sr_budget_spent row <= 3300000).
Proof.
  intros db. split.
  - pose proof (main_latest_week fmt increasing g) as Hl. fold db in Hl.
    unfold dashboard; cbn [kpis].
    rewrite (kpi_total_spend db _ Hl). eexists. split; [reflexivity |].
    rewrite fold_left_Qplus. unfold at_week.
    rewrite <- (at_latest_week_filter db _ (max_week_ending_latest _ _ Hl)).
    destruct (main_tables fmt g) as [Ews _]. fold db in Ews.
    pose proof (by_workstream_sum budget_spent (progress db) (workstreams db)) as Hsum.
    rewrite Ews in Hsum.
    specialize (Hsum workstreams_data_keys (at_latest_week db)).
    pose proof (main_no_orphan g) as Hno. fold db in Hno.
    unfold orphan in Hno. rewrite Ews in Hno. rewrite Hno in Hsum.
    rewrite <- Hsum. change (sum_of (map budget_spent [])) with 0.
    unfold workstreams_data. cbn [fold_right ws_id].
    pose proof (fun w lo hi Hw => main_latest_spend g w lo hi Hw) as Hw.
    fold db in Hw. unfold latest_of in Hw.
    pose proof (Hw (mkWorkstream "WS_001" "Finance (FICO)" "Sarah J." 1500000 "High")
                   1350000%Z 1650000%Z ltac:(cbn; tauto)
                   ltac:(cbn; discriminate) ltac:(cbn; discriminate)) as H1.
    pose proof (Hw (mkWorkstream "WS_002" "Supply Chain (MM/SD)" "Mike R." 2200000 "High")
                   2420000%Z 3300000%Z ltac:(cbn; tauto)
                   ltac:(cbn; discriminate) ltac:(cbn; discriminate)) as H2.
    pose proof (Hw (mkWorkstream "WS_003" "Human Capital (HXM)" "Amit P." 800000 "Medium")
                   720000%Z 880000%Z ltac:(cbn; tauto)
                   ltac:(cbn; discriminate) ltac:(cbn; discriminate)) as H3.
    pose proof (Hw (mkWorkstream "WS_004" "Data Migration" "Emily W." 600000 "Critical")
                   540000%Z 660000%Z ltac:(cbn; tauto)
                   ltac:(cbn; discriminate) ltac:(cbn; discriminate)) as H4.
    pose proof (Hw (mkWorkstream "WS_005" "Analytics (BW/SAC)" "John D." 450000 "Medium")
                   405000%Z 495000%Z ltac:(cbn; tauto)
                   ltac:(cbn; discriminate) ltac:(cbn; discriminate)) as H5.
    cbn [ws_id] in H1, H2, H3, H4, H5.
    unfold inject_Z in H1, H2, H3, H4, H5. lra.
  - intros row Hrow E.
    destruct (main_status_row fmt increasing g row Hrow) as (w & Hw & Erow & Eid).
    fold db in Erow.
    pose proof (main_latest_spend g w 2420000%Z 3300000%Z Hw) as Hs. fold db in Hs.
    rewrite E in Eid. rewrite <- Eid in Hs.
    change (g_lo (ranges_of "WS_002")) with (11 # 10) in Hs.
    change (g_hi (ranges_of "WS_002")) with (15 # 10) in Hs.
    assert (Ew : w = mkWorkstream "WS_002" "Supply Chain (MM/SD)" "Mike R." 2200000 "High").
    { apply same_workstream; [exact Hw | cbn; tauto | now rewrite <- Eid]. }
    rewrite Ew in Hs. cbn [budget] in Hs.
    specialize (Hs ltac:(discriminate) ltac:(discriminate)).
    rewrite <- Ew in Hs.
    unfold status_rows_of in Erow.
    destruct (filter (latest_of db w) (progress db)) as [| p [| p' l]];
      cbn [map] in Erow; try discriminate.
    injection Erow as <-. unfold sum_of in Hs. cbn [map fold_right] in Hs.
    cbn [status_row sr_budget_spent]. unfold inject_Z in Hs. lra.
Qed.

End GeneratedSpend.

Lemma generated_spend_bounds_witness :
  RandomLaws nat /\ weeks_increasing replay_dates /\
  exists t, total_spend (kpis (dashboard (fst (main replay_dates 0%nat)))) = Some t /\
            5435000 <= t <= 6985000.
Proof.
  split; [exact replay_laws |]. split; [exact replay_dates_increasing |].
  exact (proj1 (generated_spend_bounds (G := nat) replay_dates
                  replay_dates_increasing 0%nat)).
Defined.
